(** * claude-app: relay server, E2EE envelope and remote-control state machine

    A shallow embedding of
    - [server/src/relay.ts]        (module [Relay]),
    - [src/main/e2ee.ts] and the mobile [e2ee.ts]   (module [E2EE]),
    - [src/main/remote-control.ts] (module [RemoteControl]),
    together with the properties the design document states about them. *)

From stdpp Require Import base option list gmap strings.
From Stdlib Require Import ZArith Lia Ascii.
From Stdlib.Strings Require Import Byte.

Open Scope string_scope.
Open Scope list_scope.
Open Scope Z_scope.

(** ** JavaScript values as they come out of [JSON.parse] *)

Module Js.

(** A field of a parsed frame.  [JUndefined] is an absent field.  Numbers are
    kept to the integers; [JObj] stands for any object or array: it is truthy
    and, being freshly allocated by [JSON.parse], never [===] to a value that
    was stored earlier. *)
Inductive jsval : Type :=
| JUndefined
| JNull
| JBool (b : bool)
| JNum (n : Z)
| JStr (s : string)
| JObj.

#[global] Instance jsval_eq_dec : EqDecision jsval.
Proof. solve_decision. Defined.

(** [!!v] *)
Definition truthy (v : jsval) : bool :=
  match v with
  | JUndefined | JNull => false
  | JBool b => b
  | JNum n => negb (n =? 0)
  | JStr s => negb (bool_decide (s = ""))
  | JObj => true
  end.

(** [a === b]; also the key equality of [Map] (SameValueZero) on these values. *)
Definition strict_eq (a b : jsval) : bool :=
  match a, b with
  | JObj, _ | _, JObj => false
  | _, _ => bool_decide (a = b)
  end.

(** [a || b] *)
Definition js_or (a b : jsval) : jsval := if truthy a then a else b.

(** Numbers are IEEE-754 doubles.  [to_double z] is the double nearest to the
    integer [z], a tie going to the even significand, for [z] of magnitude
    below [2^1024]: every integer up to [2^53] in magnitude is a double, and
    beyond, the doubles are the multiples of the power of two that leaves a
    significand of 53 bits. *)
Definition to_double (z : Z) : Z :=
  let a := Z.abs z in
  if a <=? 2 ^ 53 then z
  else
    let ulp := 2 ^ (Z.log2 a - 52) in
    let q := a / ulp in
    let r := a mod ulp in
    let significand :=
      if 2 * r <? ulp then q
      else if ulp <? 2 * r then q + 1
      else if Z.even q then q else q + 1 in
    Z.sgn z * (significand * ulp).

(** The number that [n++] stores for an integer [n]: [n + 1] as a double. *)
Definition increment (n : Z) : Z := to_double (n + 1).

End Js.

(** ** The relay server, [server/src/relay.ts] *)

Module Relay.
Import Js.

(** *** Types *)

Inductive DeviceType : Type := desktop | mobile.

#[global] Instance DeviceType_eq_dec : EqDecision DeviceType.
Proof. solve_decision. Defined.

(** [ws.readyState] of a server-side socket. *)
Inductive readyState : Type := OPEN | CLOSING | CLOSED.

#[global] Instance readyState_eq_dec : EqDecision readyState.
Proof. solve_decision. Defined.

(** The [ws] field is the identity of the WebSocket object. *)
Record ConnectedDevice : Type := mkDevice {
  ws : nat;
  userId : string;
  deviceId : string;
  deviceType : DeviceType;
  deviceName : string;
  connectedAt : Z
}.

Record PairingEntry : Type := mkEntry {
  pairingCode : jsval;
  e_desktopId : string;
  desktopPublicKey : jsval;
  e_deviceName : jsval;
  e_userId : string;
  createdAt : Z
}.

Record PairedRelation : Type := mkRelation {
  desktopId : string;
  mobileId : string;
  r_userId : string;
  pairedAt : Z
}.

#[global] Instance ConnectedDevice_eq_dec : EqDecision ConnectedDevice.
Proof. solve_decision. Defined.
#[global] Instance PairingEntry_eq_dec : EqDecision PairingEntry.
Proof. solve_decision. Defined.
#[global] Instance PairedRelation_eq_dec : EqDecision PairedRelation.
Proof. solve_decision. Defined.

Definition PAIRING_TTL : Z := 5 * 60 * 1000.

(** *** Frames *)

(** The fields the handlers read from a parsed client frame ([msg: any]). *)
Record msg : Type := mkMsg {
  m_type : jsval;
  m_pairingCode : jsval;
  m_publicKey : jsval;
  m_deviceName : jsval;
  m_targetDeviceId : jsval;
  m_to : jsval;
  m_payload : jsval;
  m_seq : jsval;
  m_targetDesktopId : jsval;
  m_accepted : jsval
}.

(** What arrives on a socket: text on which [JSON.parse] throws or yields
    [null] (so that [msg.type] throws), or a value whose fields can be read. *)
Inductive inbound : Type :=
| Unparsable
| Parsed (m : msg).

(** The [message] of an [error] frame: one of the literals of the source, or
    the template [`Unknown message type: ${msg.type}`]. *)
Inductive errmsg : Type :=
| Lit (s : string)
| UnknownMessageType (t : jsval).

(** Server-to-client frames. *)
Inductive frame : Type :=
| FPong
| FError (message : errmsg)
| FPairingAcceptedDesktop (mobilePublicKey : jsval) (mobileDeviceId mobileDeviceName : string)
| FPairingAcceptedMobile (desktop_id : string) (desktopDeviceName desktop_key : jsval)
| FPairingRevoked (device_id : string)
| FRelay (from : string) (payload seq : jsval)
| FDeviceOnline (device_id : string)
| FDeviceOffline (device_id : string)
| FDeviceList (desktops : list (string * string * bool))
| FControlRequest (from device_name : string)
| FControlAck (from : string) (accepted : jsval)
| FControlRevoked (from : string).

#[global] Instance errmsg_eq_dec : EqDecision errmsg.
Proof. solve_decision. Defined.
#[global] Instance frame_eq_dec : EqDecision frame.
Proof. solve_decision. Defined.

(** What the server does to a socket, in the order it does it. *)
Inductive action : Type :=
| Send (w : nat) (f : frame)
| Close (w : nat) (code : Z) (reason : string).

#[global] Instance action_eq_dec : EqDecision action.
Proof. solve_decision. Defined.

Definition is_error (f : frame) : bool :=
  match f with FError _ => true | _ => false end.

(** *** State *)

(** The three module-level stores, the sockets the server holds with the
    [device] record each socket's listeners captured, and the wire. *)
Record ServerState : Type := mkState {
  devices : gmap string ConnectedDevice;
  pendingPairings : list (jsval * PairingEntry);
  pairedRelations : list PairedRelation;
  sockets : gmap nat readyState;
  listeners : gmap nat ConnectedDevice;
  wire : list action
}.

Definition initial : ServerState :=
  mkState ∅ [] [] ∅ ∅ [].

Definition set_devices (d : gmap string ConnectedDevice) (st : ServerState) : ServerState :=
  mkState d (pendingPairings st) (pairedRelations st) (sockets st) (listeners st) (wire st).

Definition set_pendingPairings (p : list (jsval * PairingEntry)) (st : ServerState) : ServerState :=
  mkState (devices st) p (pairedRelations st) (sockets st) (listeners st) (wire st).

Definition set_pairedRelations (r : list PairedRelation) (st : ServerState) : ServerState :=
  mkState (devices st) (pendingPairings st) r (sockets st) (listeners st) (wire st).

Definition set_sockets (s : gmap nat readyState) (st : ServerState) : ServerState :=
  mkState (devices st) (pendingPairings st) (pairedRelations st) s (listeners st) (wire st).

Definition set_listeners (l : gmap nat ConnectedDevice) (st : ServerState) : ServerState :=
  mkState (devices st) (pendingPairings st) (pairedRelations st) (sockets st) l (wire st).

Definition emit (a : action) (st : ServerState) : ServerState :=
  mkState (devices st) (pendingPairings st) (pairedRelations st) (sockets st) (listeners st)
          (wire st ++ [a]).

(** *** [Map<any, PairingEntry>] in insertion order *)

Fixpoint pending_get (k : jsval) (p : list (jsval * PairingEntry)) : option PairingEntry :=
  match p with
  | [] => None
  | (k', e) :: rest => if strict_eq k' k then Some e else pending_get k rest
  end.

Fixpoint pending_set (k : jsval) (e : PairingEntry) (p : list (jsval * PairingEntry))
  : list (jsval * PairingEntry) :=
  match p with
  | [] => [(k, e)]
  | (k', e') :: rest =>
      if strict_eq k' k then (k', e) :: rest else (k', e') :: pending_set k e rest
  end.

(** [Map.delete]: afterwards the key is absent. *)
Definition pending_delete (k : jsval) (p : list (jsval * PairingEntry))
  : list (jsval * PairingEntry) :=
  List.filter (fun ke => negb (strict_eq ke.1 k)) p.

(** [devices.get(v)] for a key read from a frame: only a string can hit. *)
Definition devices_get (v : jsval) (st : ServerState) : option ConnectedDevice :=
  match v with
  | JStr s => devices st !! s
  | _ => None
  end.

(** [arr.findIndex(p)] then [arr.splice(idx, 1)] when [idx >= 0]. *)
Fixpoint remove_first {A} (p : A -> bool) (l : list A) : list A :=
  match l with
  | [] => []
  | x :: rest => if p x then rest else x :: remove_first p rest
  end.

(** *** Helpers *)

Definition sendTo (w : nat) (f : frame) (st : ServerState) : ServerState :=
  match sockets st !! w with
  | Some OPEN => emit (Send w f) st
  | _ => st
  end.

(** [ws.close(code, reason)]: an open socket starts its closing handshake. *)
Definition ws_close (w : nat) (code : Z) (reason : string) (st : ServerState) : ServerState :=
  match sockets st !! w with
  | Some OPEN => emit (Close w code reason) (set_sockets (<[w := CLOSING]> (sockets st)) st)
  | _ => st
  end.

Definition notify_target (rel : PairedRelation) (device_id : string) : option string :=
  if bool_decide (desktopId rel = device_id) then
    if bool_decide (mobileId rel = "") then None else Some (mobileId rel)
  else if bool_decide (mobileId rel = device_id) then
    if bool_decide (desktopId rel = "") then None else Some (desktopId rel)
  else None.

Definition notifyPairedDevices (device_id user_id : string) (eventType : string -> frame)
    (st : ServerState) : ServerState :=
  fold_left
    (fun acc rel =>
       if negb (bool_decide (r_userId rel = user_id)) then acc
       else match notify_target rel device_id with
            | Some targetId =>
                match devices acc !! targetId with
                | Some target => sendTo (ws target) (eventType device_id) acc
                | None => acc
                end
            | None => acc
            end)
    (pairedRelations st) st.

Fixpoint desktop_list (user_id : string) (rels : list PairedRelation) (seen : list string)
    (devs : gmap string ConnectedDevice) : list (string * string * bool) :=
  match rels with
  | [] => []
  | rel :: rest =>
      if negb (bool_decide (r_userId rel = user_id)) || bool_decide (desktopId rel ∈ seen)
      then desktop_list user_id rest seen devs
      else
        let item :=
          match devs !! desktopId rel with
          | Some d => (desktopId rel,
                       if bool_decide (deviceName d = "") then "Unknown" else deviceName d,
                       true)
          | None => (desktopId rel, "Unknown", false)
          end in
        item :: desktop_list user_id rest (desktopId rel :: seen) devs
  end.

Definition sendDesktopList (w : nat) (user_id : string) (st : ServerState) : ServerState :=
  sendTo w (FDeviceList (desktop_list user_id (pairedRelations st) [] (devices st))) st.

(** *** Pairing *)

Definition handleRegisterPairing (device : ConnectedDevice) (m : msg) (now : Z)
    (st : ServerState) : ServerState :=
  if negb (bool_decide (deviceType device = desktop)) then
    sendTo (ws device) (FError (Lit "Only desktop can register pairing")) st
  else if negb (truthy (m_pairingCode m)) || negb (truthy (m_publicKey m)) then
    sendTo (ws device) (FError (Lit "Missing pairingCode or publicKey")) st
  else
    set_pendingPairings
      (pending_set (m_pairingCode m)
         {| pairingCode := m_pairingCode m;
            e_desktopId := deviceId device;
            desktopPublicKey := m_publicKey m;
            e_deviceName := js_or (m_deviceName m) (JStr (deviceName device));
            e_userId := userId device;
            createdAt := now |}
         (pendingPairings st))
      st.

(** The replacement of the pair relation: [findIndex], [splice], [push]. *)
Definition link (entry : PairingEntry) (device : ConnectedDevice) (now : Z)
    (rels : list PairedRelation) : list PairedRelation :=
  remove_first
    (fun r => bool_decide (desktopId r = e_desktopId entry)
              && bool_decide (mobileId r = deviceId device))
    rels
  ++ [ {| desktopId := e_desktopId entry;
          mobileId := deviceId device;
          r_userId := userId device;
          pairedAt := now |} ].

(** The two notifications that end a successful claim. *)
Definition notify_claim (device : ConnectedDevice) (entry : PairingEntry) (publicKey : jsval)
    (st : ServerState) : ServerState :=
  let st1 :=
    match devices st !! e_desktopId entry with
    | Some desktop_dev =>
        sendTo (ws desktop_dev)
          (FPairingAcceptedDesktop publicKey (deviceId device) (deviceName device)) st
    | None => st
    end in
  sendTo (ws device)
    (FPairingAcceptedMobile (e_desktopId entry) (e_deviceName entry) (desktopPublicKey entry))
    st1.

Definition handleClaimPairing (device : ConnectedDevice) (m : msg) (now : Z)
    (st : ServerState) : ServerState :=
  if negb (bool_decide (deviceType device = mobile)) then
    sendTo (ws device) (FError (Lit "Only mobile can claim pairing")) st
  else if negb (truthy (m_pairingCode m)) || negb (truthy (m_publicKey m)) then
    sendTo (ws device) (FError (Lit "Missing pairingCode or publicKey")) st
  else
    match pending_get (m_pairingCode m) (pendingPairings st) with
    | None => sendTo (ws device) (FError (Lit "Invalid or expired pairing code")) st
    | Some entry =>
        if negb (bool_decide (e_userId entry = userId device)) then
          sendTo (ws device) (FError (Lit "Pairing code belongs to a different account")) st
        else if now - createdAt entry >? PAIRING_TTL then
          sendTo (ws device) (FError (Lit "Pairing code expired"))
            (set_pendingPairings (pending_delete (m_pairingCode m) (pendingPairings st)) st)
        else
          let st1 := set_pairedRelations (link entry device now (pairedRelations st)) st in
          let st2 :=
            set_pendingPairings (pending_delete (m_pairingCode m) (pendingPairings st1)) st1 in
          notify_claim device entry (m_publicKey m) st2
    end.

(** The predicate of [handleRevokePairing] and [handleRelay]: the relation
    joins the two device ids, in either role. *)
Definition covers (a : string) (b : jsval) (r : PairedRelation) : bool :=
  (bool_decide (desktopId r = a) && strict_eq (JStr (mobileId r)) b)
  || (bool_decide (mobileId r = a) && strict_eq (JStr (desktopId r)) b).

Definition handleRevokePairing (device : ConnectedDevice) (m : msg)
    (st : ServerState) : ServerState :=
  if negb (truthy (m_targetDeviceId m)) then st
  else if existsb (covers (deviceId device) (m_targetDeviceId m)) (pairedRelations st) then
    let st1 :=
      set_pairedRelations
        (remove_first (covers (deviceId device) (m_targetDeviceId m)) (pairedRelations st)) st in
    match devices_get (m_targetDeviceId m) st1 with
    | Some target => sendTo (ws target) (FPairingRevoked (deviceId device)) st1
    | None => st1
    end
  else st.

(** *** Relay (encrypted message forwarding) *)

Definition handleRelay (device : ConnectedDevice) (m : msg) (st : ServerState) : ServerState :=
  if negb (truthy (m_to m)) || negb (truthy (m_payload m)) then
    sendTo (ws device) (FError (Lit "Missing relay target or payload")) st
  else if negb (existsb (covers (deviceId device) (m_to m)) (pairedRelations st)) then
    sendTo (ws device) (FError (Lit "Not paired with target device")) st
  else
    match devices_get (m_to m) st with
    | None => sendTo (ws device) (FError (Lit "Target device is offline")) st
    | Some target =>
        sendTo (ws target) (FRelay (deviceId device) (m_payload m) (m_seq m)) st
    end.

(** *** Remote control *)

Definition handleControlRequest (device : ConnectedDevice) (m : msg)
    (st : ServerState) : ServerState :=
  if negb (bool_decide (deviceType device = mobile)) then
    sendTo (ws device) (FError (Lit "Only mobile can request control")) st
  else if negb (truthy (m_targetDesktopId m)) then st
  else if negb (existsb
                  (fun r => strict_eq (JStr (desktopId r)) (m_targetDesktopId m)
                            && bool_decide (mobileId r = deviceId device))
                  (pairedRelations st)) then
    sendTo (ws device) (FError (Lit "Not paired with target desktop")) st
  else
    match devices_get (m_targetDesktopId m) st with
    | None => sendTo (ws device) (FError (Lit "Desktop is offline")) st
    | Some desktop_dev =>
        sendTo (ws desktop_dev) (FControlRequest (deviceId device) (deviceName device)) st
    end.

Definition handleControlAck (device : ConnectedDevice) (m : msg)
    (st : ServerState) : ServerState :=
  if negb (truthy (m_to m)) then st
  else match devices_get (m_to m) st with
       | Some target => sendTo (ws target) (FControlAck (deviceId device) (m_accepted m)) st
       | None => st
       end.

Definition handleControlRevoked (device : ConnectedDevice) (m : msg)
    (st : ServerState) : ServerState :=
  if negb (truthy (m_to m)) then st
  else match devices_get (m_to m) st with
       | Some target => sendTo (ws target) (FControlRevoked (deviceId device)) st
       | None => st
       end.

(** *** Message handling *)

(** The [switch (msg.type)]: the cases are tried in order with [===]. *)
Definition handleMessage (device : ConnectedDevice) (m : msg) (now : Z)
    (st : ServerState) : ServerState :=
  let type_is t := strict_eq (m_type m) (JStr t) in
  if type_is "heartbeat" then sendTo (ws device) FPong st
  else if type_is "register-pairing" then handleRegisterPairing device m now st
  else if type_is "claim-pairing" then handleClaimPairing device m now st
  else if type_is "relay" then handleRelay device m st
  else if type_is "revoke-pairing" then handleRevokePairing device m st
  else if type_is "control-request" then handleControlRequest device m st
  else if type_is "control-ack" then handleControlAck device m st
  else if type_is "control-revoked" then handleControlRevoked device m st
  else sendTo (ws device) (FError (UnknownMessageType (m_type m))) st.

(** The [ws.on('message')] listener, with its [try]/[catch]. *)
Definition on_message (device : ConnectedDevice) (data : inbound) (now : Z)
    (st : ServerState) : ServerState :=
  match data with
  | Unparsable => sendTo (ws device) (FError (Lit "Invalid message format")) st
  | Parsed m => handleMessage device m now st
  end.

(** The [ws.on('close')] listener. *)
Definition on_close (device : ConnectedDevice) (st : ServerState) : ServerState :=
  notifyPairedDevices (deviceId device) (userId device) FDeviceOffline
    (set_devices (delete (deviceId device) (devices st)) st).

(** The [wss.on('connection')] handler for the new socket [w]. *)
Definition on_connection (w : nat) (user_id device_id : string) (device_type : DeviceType)
    (device_name : string) (now : Z) (st : ServerState) : ServerState :=
  let st0 :=
    set_listeners
      (<[w := mkDevice w user_id device_id device_type device_name now]> (listeners st))
      (set_sockets (<[w := OPEN]> (sockets st)) st) in
  let st1 :=
    match devices st0 !! device_id with
    | Some existing => ws_close (ws existing) 1000 "Replaced by new connection" st0
    | None => st0
    end in
  let device := mkDevice w user_id device_id device_type device_name now in
  let st2 := set_devices (<[device_id := device]> (devices st1)) st1 in
  let st3 := notifyPairedDevices device_id user_id FDeviceOnline st2 in
  match device_type with
  | mobile => sendDesktopList w user_id st3
  | desktop => st3
  end.

(** The [setInterval] sweep of expired pairing codes. *)
Definition sweep (now : Z) (st : ServerState) : ServerState :=
  set_pendingPairings
    (List.filter (fun ke => negb (now - createdAt ke.2 >? PAIRING_TTL)) (pendingPairings st)) st.

(** *** Connection admission and the event loop *)

(** The path and query parameters of an upgrade request.  [q_deviceName] is
    the parameter after [decodeURIComponent]. *)
Record UpgradeRequest : Type := mkUpgrade {
  pathname : string;
  q_token : option string;
  q_deviceType : option string;
  q_deviceId : option string;
  q_deviceName : option string
}.

Inductive UpgradeResult : Type :=
| Destroyed
| BadRequest
| Unauthorized
| Upgraded (user_id device_id : string) (device_type : DeviceType) (device_name : string).

Definition parse_deviceType (s : string) : option DeviceType :=
  if bool_decide (s = "desktop") then Some desktop
  else if bool_decide (s = "mobile") then Some mobile
  else None.

(** [x || dflt] on a query parameter ([null] when absent). *)
Definition param_or (x : option string) (dflt : string) : string :=
  match x with
  | Some s => if bool_decide (s = "") then dflt else s
  | None => dflt
  end.

(** What the event loop delivers.  [EvClosing] is the step the [ws] library
    takes on its own when the peer's close frame arrives or the transport
    fails: the socket leaves [OPEN] for [CLOSING], and no listener of the
    server runs until the close event. *)
Inductive event : Type :=
| EvUpgrade (req : UpgradeRequest) (w : nat) (now : Z)
| EvMessage (w : nat) (data : inbound) (now : Z)
| EvClosing (w : nat)
| EvClose (w : nat)
| EvSweep (now : Z).

Section Server.

(** The authentication service: [verifyToken] of [auth.js] and whether
    [getUserById] of [db.js] finds the user. *)
Variable verifyToken : string -> option string.
Variable getUserById : string -> bool.

(** The [server.on('upgrade')] handler up to [wss.handleUpgrade]. *)
Definition upgrade (req : UpgradeRequest) : UpgradeResult :=
  if negb (bool_decide (pathname req = "/ws/relay")) then Destroyed
  else
    match q_token req, q_deviceType req, q_deviceId req with
    | Some token, Some dt, Some device_id =>
        if bool_decide (token = "") || bool_decide (dt = "") || bool_decide (device_id = "")
        then BadRequest
        else
          match parse_deviceType dt with
          | None => BadRequest
          | Some device_type =>
              match verifyToken token with
              | None => Unauthorized
              | Some user_id =>
                  if bool_decide (user_id = "") then Unauthorized
                  else if negb (getUserById user_id) then Unauthorized
                  else Upgraded user_id device_id device_type
                         (param_or (q_deviceName req) "Unknown")
              end
          end
    | _, _, _ => BadRequest
    end.

(** One turn of the event loop.  The socket of an upgrade is a new object; a
    socket delivers frames until its close event, which fires once. *)
Definition step (st : ServerState) (ev : event) : ServerState :=
  match ev with
  | EvUpgrade req w now =>
      match sockets st !! w with
      | Some _ => st
      | None =>
          match upgrade req with
          | Upgraded user_id device_id device_type device_name =>
              on_connection w user_id device_id device_type device_name now st
          | _ => st
          end
      end
  | EvMessage w data now =>
      match sockets st !! w, listeners st !! w with
      | Some OPEN, Some device | Some CLOSING, Some device => on_message device data now st
      | _, _ => st
      end
  | EvClosing w =>
      match sockets st !! w with
      | Some OPEN => set_sockets (<[w := CLOSING]> (sockets st)) st
      | _ => st
      end
  | EvClose w =>
      match sockets st !! w, listeners st !! w with
      | Some OPEN, Some device | Some CLOSING, Some device =>
          on_close device (set_sockets (<[w := CLOSED]> (sockets st)) st)
      | _, _ => st
      end
  | EvSweep now => sweep now st
  end.

Definition run (evs : list event) (st : ServerState) : ServerState :=
  fold_left step evs st.

Definition reachable (st : ServerState) : Prop :=
  exists evs, st = run evs initial.

End Server.

(** *** Client frames, as the endpoints build them *)

Definition register_pairing_frame (code key name : jsval) : msg :=
  mkMsg (JStr "register-pairing") code key name JUndefined JUndefined JUndefined JUndefined
        JUndefined JUndefined.

Definition claim_pairing_frame (code key : jsval) : msg :=
  mkMsg (JStr "claim-pairing") code key JUndefined JUndefined JUndefined JUndefined JUndefined
        JUndefined JUndefined.

Definition revoke_pairing_frame (target : jsval) : msg :=
  mkMsg (JStr "revoke-pairing") JUndefined JUndefined JUndefined target JUndefined JUndefined
        JUndefined JUndefined JUndefined.

Definition relay_frame (to payload seq : jsval) : msg :=
  mkMsg (JStr "relay") JUndefined JUndefined JUndefined JUndefined to payload seq JUndefined
        JUndefined.

Definition control_request_frame (target : jsval) : msg :=
  mkMsg (JStr "control-request") JUndefined JUndefined JUndefined JUndefined JUndefined
        JUndefined JUndefined target JUndefined.

Definition control_ack_frame (to accepted : jsval) : msg :=
  mkMsg (JStr "control-ack") JUndefined JUndefined JUndefined JUndefined to JUndefined
        JUndefined JUndefined accepted.

Definition control_revoked_frame (to : jsval) : msg :=
  mkMsg (JStr "control-revoked") JUndefined JUndefined JUndefined JUndefined to JUndefined
        JUndefined JUndefined JUndefined.

Definition connect_request (token device_type device_id device_name : string) : UpgradeRequest :=
  mkUpgrade "/ws/relay" (Some token) (Some device_type) (Some device_id) (Some device_name).

(** *** Vocabulary of the properties *)

(** The frames a handler put on the wire between [st] and [st']. *)
Definition sent_by (st st' : ServerState) : list action :=
  drop (length (wire st)) (wire st').

(** The relation joins device ids [a] and [b], in either role. *)
Definition joins (r : PairedRelation) (a b : string) : Prop :=
  (desktopId r = a /\ mobileId r = b) \/ (mobileId r = a /\ desktopId r = b).

(** [st'] differs from [st] by frames put on the wire only. *)
Definition same_stores (st st' : ServerState) : Prop :=
  devices st' = devices st /\ pendingPairings st' = pendingPairings st /\
  pairedRelations st' = pairedRelations st /\ sockets st' = sockets st /\
  listeners st' = listeners st.

Definition is_send (a : action) : Prop := exists w f, a = Send w f.

(** [st'] has the registry and sockets of [st], and its wire extends that of
    [st] by sent frames only (no socket is closed). *)
Definition keeps_connections (st st' : ServerState) : Prop :=
  devices st' = devices st /\ sockets st' = sockets st /\ listeners st' = listeners st /\
  exists out : list action, wire st' = wire st ++ out /\ Forall is_send out.

(** The state in which the two [pairing-accepted] frames of a successful
    claim are sent: relation linked, offer removed, wire as before. *)
Definition claimed (device : ConnectedDevice) (m : msg) (entry : PairingEntry) (now : Z)
    (st : ServerState) : ServerState :=
  set_pendingPairings (pending_delete (m_pairingCode m) (pendingPairings st))
    (set_pairedRelations (link entry device now (pairedRelations st)) st).


(** A frame of one of the four types that name a target device, without
    that field. *)
Definition names_no_target (m : msg) : Prop :=
  (m_type m = JStr "revoke-pairing" /\ m_targetDeviceId m = JUndefined) \/
  (m_type m = JStr "control-request" /\ m_targetDesktopId m = JUndefined) \/
  (m_type m = JStr "control-ack" /\ m_to m = JUndefined) \/
  (m_type m = JStr "control-revoked" /\ m_to m = JUndefined).

(** The design document's reading: such a frame, like every frame with a
    missing field, gets the sender exactly one [error] frame, and the sender
    keeps its connection. *)
Definition missing_field_answered_with_error : Prop :=
  forall st device m now,
    sockets st !! ws device = Some OPEN ->
    names_no_target m ->
    let st' := handleMessage device m now st in
    (exists e, sent_by st st' = [Send (ws device) (FError e)]) /\
    sockets st' !! ws device = Some OPEN.

(** *** A deployment with two accounts, used in the scenarios below *)

Module Scenario.

Definition verifyToken (token : string) : option string :=
  if bool_decide (token = "token-U1") then Some "U1"
  else if bool_decide (token = "token-U2") then Some "U2"
  else None.

Definition getUserById (user_id : string) : bool := true.

Definition run := Relay.run verifyToken getUserById.

(** Desktop D1 and mobile M of account U1 connect and pair with code C1. *)
Definition paired : list event :=
  [ EvUpgrade (connect_request "token-U1" "desktop" "D1" "Desk") 0%nat 1000;
    EvUpgrade (connect_request "token-U1" "mobile" "M" "Phone") 1%nat 2000;
    EvMessage 0%nat (Parsed (register_pairing_frame (JStr "C1") (JStr "KD") JUndefined)) 3000;
    EvMessage 1%nat (Parsed (claim_pairing_frame (JStr "C1") (JStr "KM"))) 4000 ].


(** The desktop reconnects while its first socket is still open. *)
Definition desktop_reconnects : list event :=
  paired ++ [ EvUpgrade (connect_request "token-U1" "desktop" "D1" "Desk") 2%nat 5000 ].

(** D1 of account U1 registers code C3 while M2 of account U2 and M1 of
    account U1 are attached. *)
Definition offer_pending : list event :=
  [ EvUpgrade (connect_request "token-U1" "desktop" "D1" "Desk") 0%nat 1000;
    EvUpgrade (connect_request "token-U2" "mobile" "M2" "Phone2") 1%nat 2000;
    EvUpgrade (connect_request "token-U1" "mobile" "M1" "Phone1") 2%nat 2500;
    EvMessage 0%nat (Parsed (register_pairing_frame (JStr "C3") (JStr "KD") JUndefined)) 3000 ].

Definition D1 : ConnectedDevice := mkDevice 0 "U1" "D1" desktop "Desk" 1000.
Definition M2 : ConnectedDevice := mkDevice 1 "U2" "M2" mobile "Phone2" 2000.
Definition M1 : ConnectedDevice := mkDevice 2 "U1" "M1" mobile "Phone1" 2500.

Definition offer_C3 : PairingEntry :=
  mkEntry (JStr "C3") "D1" (JStr "KD") (JStr "Desk") "U1" 3000.


Definition X : ConnectedDevice := mkDevice 2 "U2" "X" desktop "Other" 5000.
Definition M : ConnectedDevice := mkDevice 1 "U1" "M" mobile "Phone" 2000.

End Scenario.

End Relay.

(** ** Byte buffers and their text encodings *)

Module Buffer.

Abbreviation bytes := (list byte).

#[global] Instance byte_eq_dec : EqDecision byte.
Proof.
  intros a b. destruct (N.eq_dec (Byte.to_N a) (Byte.to_N b)) as [Heq | Hne].
  - left. apply (f_equal Byte.of_N) in Heq. rewrite !Byte.of_to_N in Heq. congruence.
  - right. congruence.
Defined.

Definition byte_of_N (n : N) : byte :=
  match Byte.of_N (n mod 256) with
  | Some b => b
  | None => x00
  end.

(** The relative index of [subarray] and [slice]: negative counts from the
    end, and the result is clamped to the buffer. *)
Definition clamp_index (len i : Z) : Z :=
  if i <? 0 then Z.max (len + i) 0 else Z.min i len.

(** [buf.subarray(start, end)] and [Uint8Array.prototype.slice(start, end)]. *)
Definition subarray (b : bytes) (start end_ : Z) : bytes :=
  let len := Z.of_nat (length b) in
  let s := clamp_index len start in
  let e := clamp_index len end_ in
  take (Z.to_nat (e - s)) (drop (Z.to_nat s) b).

(** [buf.subarray(start)] *)
Definition subarray_from (b : bytes) (start : Z) : bytes :=
  subarray b start (Z.of_nat (length b)).

(** [src.copy(dst, offset)]: overwrite [dst] from [offset] on, as far as it
    reaches. *)
Definition copy_into (src dst : bytes) (offset : nat) : bytes :=
  take offset dst
  ++ take (length dst - offset) src
  ++ drop (offset + length src) dst.

(** [Buffer.alloc(n)] *)
Definition alloc (n : nat) : bytes := replicate n x00.

(** *** Hexadecimal *)

Definition hex_digit (n : N) : ascii :=
  match String.get (N.to_nat n) "0123456789abcdef" with
  | Some c => c
  | None => "0"%char
  end.

(** The value of a hexadecimal digit, either case. *)
Definition hex_val (c : ascii) : option N :=
  let n := N_of_ascii c in
  if ((48 <=? n) && (n <=? 57))%N then Some (n - 48)%N
  else if ((97 <=? n) && (n <=? 102))%N then Some (n - 87)%N
  else if ((65 <=? n) && (n <=? 70))%N then Some (n - 55)%N
  else None.

(** [buf.toString('hex')]: two lower-case digits per byte. *)
Fixpoint to_hex (b : bytes) : string :=
  match b with
  | [] => ""
  | x :: rest =>
      String (hex_digit (Byte.to_N x / 16)) (String (hex_digit (Byte.to_N x mod 16)) (to_hex rest))
  end.

(** [Buffer.from(s, 'hex')]: decoding stops at the first pair that is not
    two hexadecimal digits. *)
Fixpoint from_hex (s : string) : bytes :=
  match s with
  | String c1 (String c2 rest) =>
      match hex_val c1, hex_val c2 with
      | Some h, Some l => byte_of_N (16 * h + l) :: from_hex rest
      | _, _ => []
      end
  | _ => []
  end.

(** *** Base64 *)

Definition base64_alphabet : string :=
  "ABCDEFGHIJKLMNOPQRSTUVWXYZabcdefghijklmnopqrstuvwxyz0123456789+/".

Definition sextet_char (n : N) : ascii :=
  match String.get (N.to_nat n) base64_alphabet with
  | Some c => c
  | None => "="%char
  end.

Definition char_sextet (c : ascii) : option N :=
  let n := N_of_ascii c in
  if ((65 <=? n) && (n <=? 90))%N then Some (n - 65)%N
  else if ((97 <=? n) && (n <=? 122))%N then Some (n - 71)%N
  else if ((48 <=? n) && (n <=? 57))%N then Some (n + 4)%N
  else if (n =? 43)%N then Some 62%N
  else if (n =? 47)%N then Some 63%N
  else None.

(** [buf.toString('base64')] and [btoa] of the binary string of the same
    bytes: the standard alphabet with [=] padding. *)
Fixpoint to_base64 (b : bytes) : string :=
  match b with
  | [] => ""
  | [x] =>
      let x := Byte.to_N x in
      String (sextet_char (x / 4)) (String (sextet_char (x mod 4 * 16)) "==")
  | [x; y] =>
      let x := Byte.to_N x in
      let y := Byte.to_N y in
      String (sextet_char (x / 4))
        (String (sextet_char (x mod 4 * 16 + y / 16))
           (String (sextet_char (y mod 16 * 4)) "="))
  | x :: y :: z :: rest =>
      let x := Byte.to_N x in
      let y := Byte.to_N y in
      let z := Byte.to_N z in
      String (sextet_char (x / 4))
        (String (sextet_char (x mod 4 * 16 + y / 16))
           (String (sextet_char (y mod 16 * 4 + z / 64))
              (String (sextet_char (z mod 64)) (to_base64 rest))))
  end.

(** A strict decoder of padded base64: [None] on anything that is not the
    encoding of some buffer. *)
Fixpoint strict_from_base64 (s : string) : option bytes :=
  match s with
  | "" => Some []
  | String c1 (String c2 (String c3 (String c4 rest))) =>
      match char_sextet c1, char_sextet c2 with
      | Some n1, Some n2 =>
          if bool_decide (c3 = "="%char) then
            if bool_decide (c4 = "="%char) && bool_decide (rest = "") then
              Some [byte_of_N (n1 * 4 + n2 / 16)]
            else None
          else
            match char_sextet c3 with
            | None => None
            | Some n3 =>
                if bool_decide (c4 = "="%char) then
                  if bool_decide (rest = "") then
                    Some [byte_of_N (n1 * 4 + n2 / 16); byte_of_N (n2 mod 16 * 16 + n3 / 4)]
                  else None
                else
                  match char_sextet c4, strict_from_base64 rest with
                  | Some n4, Some tail =>
                      Some (byte_of_N (n1 * 4 + n2 / 16)
                            :: byte_of_N (n2 mod 16 * 16 + n3 / 4)
                            :: byte_of_N (n3 mod 4 * 64 + n4) :: tail)
                  | _, _ => None
                  end
            end
      | _, _ => None
      end
  | _ => None
  end.

(** The values of the base64 digits. *)
Definition sextets : list N := N.of_nat <$> seq 0 64.

End Buffer.

(** ** The E2EE envelope: desktop [e2ee.ts] and mobile [e2ee.ts] *)

Module E2EE.
Import Buffer.

(** What the platform libraries compute: UTF-8 conversion of JavaScript
    strings, AES-GCM, HMAC-SHA256, the two base64 decoders and the P-256
    group with its point encodings.  [aes_gcm_open] is [None] when the tag
    does not verify or the parameters are refused. *)
Class Primitives : Type := {
  text : Type;
  utf8_encode : text -> bytes;
  utf8_decode : bytes -> text;
  aes_gcm_seal : bytes -> bytes -> bytes -> bytes * bytes;
  aes_gcm_open : bytes -> bytes -> bytes -> bytes -> option bytes;
  hmac_sha256 : bytes -> bytes -> bytes;
  buffer_from_base64 : string -> bytes;
  atob : string -> option string;
  scalar : Type;
  point : Type;
  base_point : point;
  point_mul : scalar -> point -> point;
  x_coordinate : point -> bytes;
  y_coordinate : point -> bytes;
  y_is_odd : point -> bool;
  parse_point : bytes -> option point;
  scalar_bytes : scalar -> bytes
}.

(** The uncompressed point [0x04 || X || Y] and the compressed point
    [0x02/0x03 || X]. *)
Definition uncompressed `{Primitives} (P : point) : bytes :=
  x04 :: x_coordinate P ++ y_coordinate P.

Definition compressed `{Primitives} (P : point) : bytes :=
  (if y_is_odd P then x03 else x02) :: x_coordinate P.

(** What the envelope relies on. *)
Class PrimitivesOk `{Primitives} : Prop := {
  gcm_open_seal key iv pt :
    length key = 32%nat -> length iv = 12%nat ->
    aes_gcm_open key iv (aes_gcm_seal key iv pt).1 (aes_gcm_seal key iv pt).2 = Some pt;
  gcm_tag_length key iv pt : length (aes_gcm_seal key iv pt).2 = 16%nat;
  hmac_length key data : length (hmac_sha256 key data) = 32%nat;
  buffer_from_to_base64 b : buffer_from_base64 (to_base64 b) = b;
  atob_to_base64 b : atob (to_base64 b) = Some (String.string_of_list_byte b);
  ecdh_agree a b :
    point_mul a (point_mul b base_point) = point_mul b (point_mul a base_point);
  x_coordinate_length P : length (x_coordinate P) = 32%nat;
  parse_uncompressed a :
    parse_point (uncompressed (point_mul a base_point)) = Some (point_mul a base_point)
}.

Inductive DecryptError : Type :=
| ReplayRejected   (* the [Replay detected] error of [decrypt] *)
| AuthFailed.      (* any error thrown by the decoding or the decipher *)

Inductive outcome (A : Type) : Type :=
| Ok (a : A)
| Err (e : DecryptError).
Arguments Ok {A} a.
Arguments Err {A} e.

(** The UTF-8 bytes of an ASCII literal of the source. *)
Definition ascii_bytes (literal : string) : bytes := String.list_byte_of_string literal.

(** [Math.ceil(length / 32)] *)
Definition blocks (len : nat) : nat := ((len + 31) / 32)%nat.

Section Shared.
Context `{Primitives}.

(** The frame either endpoint builds for plaintext bytes [pt]. *)
Definition sealed (key iv pt : bytes) : bytes :=
  iv ++ (aes_gcm_seal key iv pt).1 ++ (aes_gcm_seal key iv pt).2.

(** The first block of HKDF-Expand. *)
Definition first_block (ikm salt info : bytes) : bytes :=
  hmac_sha256 (hmac_sha256 salt ikm) (info ++ [x01]).

End Shared.

(** *** Desktop: Node [crypto] *)

Module Desktop.
Section WithPrimitives.
Context `{Primitives}.

Definition IV_LENGTH : Z := 12.
Definition TAG_LENGTH : Z := 16.

Record E2EEKeyPair : Type := mkKeyPair {
  publicKey : string;
  privateKey : string;
  ecdh : scalar
}.

Record E2EESession : Type := mkSession {
  sharedSecret : bytes;
  derivedKey : bytes;
  seq : Z;
  peerSeq : Z
}.

Definition set_seq (n : Z) (s : E2EESession) : E2EESession :=
  mkSession (sharedSecret s) (derivedKey s) n (peerSeq s).

Definition set_peerSeq (n : Z) (s : E2EESession) : E2EESession :=
  mkSession (sharedSecret s) (derivedKey s) (seq s) n.

(** [generateKeyPair], for the private key [d] that [generateKeys] drew. *)
Definition generateKeyPair (d : scalar) : E2EEKeyPair :=
  {| publicKey := to_hex (uncompressed (point_mul d base_point));
     privateKey := to_hex (scalar_bytes d);
     ecdh := d |}.

(** [ecdh.computeSecret(otherPublicKey)]: the X coordinate of the shared
    point; throws on a buffer that is not a point. *)
Definition computeSecret (d : scalar) (otherPublicKey : bytes) : option bytes :=
  P ← parse_point otherPublicKey; Some (x_coordinate (point_mul d P)).

Fixpoint hkdf_loop (steps i : nat) (prk info prev okm : bytes) : bytes :=
  match steps with
  | O => okm
  | S k =>
      let input := prev ++ info ++ [byte_of_N (N.of_nat (i + 1))] in
      let prev' := hmac_sha256 prk input in
      hkdf_loop k (S i) prk info prev' (copy_into prev' okm (i * 32))
  end.

Definition hkdfSha256 (ikm salt info : bytes) (len : nat) : bytes :=
  let prk := hmac_sha256 salt ikm in
  let n := blocks len in
  let okm := alloc (n * 32) in
  subarray (hkdf_loop n 0 prk info [] okm) 0 (Z.of_nat len).

Definition deriveSession (d : scalar) (peerPublicKeyHex : string) (pairingCode : text)
    : option E2EESession :=
  secret ← computeSecret d (from_hex peerPublicKeyHex);
  let salt := utf8_encode pairingCode in
  let info := ascii_bytes "claude-studio-e2ee" in
  Some {| sharedSecret := secret;
          derivedKey := hkdfSha256 secret salt info 32;
          seq := 0;
          peerSeq := -1 |}.

(** [createCipheriv('aes-256-gcm', key, iv)], [update], [final],
    [getAuthTag]: throws unless the key has 32 bytes. *)
Definition cipher (key iv plaintext : bytes) : option (bytes * bytes) :=
  if bool_decide (length key = 32%nat) then Some (aes_gcm_seal key iv plaintext) else None.

(** [createDecipheriv('aes-256-gcm', key, iv, { authTagLength: 16 })],
    [setAuthTag], [update], [final]. *)
Definition decipher (key iv ciphertext authTag : bytes) : option bytes :=
  if bool_decide (length key = 32%nat) && bool_decide (length authTag = 16%nat)
  then aes_gcm_open key iv ciphertext authTag
  else None.

(** [encrypt], for the [iv] that [randomBytes(IV_LENGTH)] drew.  [None] is a
    throw, which happens before the sequence number is touched.
    [session.seq++] yields the counter and stores its successor as a double. *)
Definition encrypt (session : E2EESession) (plaintext : text) (iv : bytes)
    : option (string * Z * E2EESession) :=
  '(encrypted, authTag) ← cipher (derivedKey session) iv (utf8_encode plaintext);
  let combined := iv ++ encrypted ++ authTag in
  Some (to_base64 combined, seq session, set_seq (Js.increment (seq session)) session).

(** [decrypt], at the types of its signature: the payload a string, the
    sequence number an integer. *)
Definition decrypt (session : E2EESession) (payload : string) (seq : Z)
    : outcome text * E2EESession :=
  if seq <=? peerSeq session then (Err ReplayRejected, session)
  else
    let session := set_peerSeq seq session in
    let combined := buffer_from_base64 payload in
    let len := Z.of_nat (length combined) in
    let iv := subarray combined 0 IV_LENGTH in
    let authTag := subarray_from combined (len - TAG_LENGTH) in
    let ciphertext := subarray combined IV_LENGTH (len - TAG_LENGTH) in
    match decipher (derivedKey session) iv ciphertext authTag with
    | Some decrypted => (Ok (utf8_decode decrypted), session)
    | None => (Err AuthFailed, session)
    end.

End WithPrimitives.
End Desktop.

(** *** Mobile: [@noble/curves], [@noble/hashes], [@noble/ciphers] *)

Module Mobile.
Section WithPrimitives.
Context `{Primitives}.

Record E2EEKeyPair : Type := mkKeyPair {
  publicKey : string;
  privateKey : scalar
}.

Record E2EESession : Type := mkSession {
  derivedKey : bytes;
  seq : Z;
  peerSeq : Z
}.

Definition set_seq (n : Z) (s : E2EESession) : E2EESession :=
  mkSession (derivedKey s) n (peerSeq s).

Definition set_peerSeq (n : Z) (s : E2EESession) : E2EESession :=
  mkSession (derivedKey s) (seq s) n.

(** [b.toString(16)] for a byte. *)
Definition toString16 (b : byte) : string :=
  let n := Byte.to_N b in
  if (n <? 16)%N then String (hex_digit n) ""
  else String (hex_digit (n / 16)) (String (hex_digit (n mod 16)) "").

(** [s.padStart(2, '0')] *)
Definition padStart2 (s : string) : string :=
  match s with
  | "" => "00"
  | String c "" => String "0" (String c "")
  | _ => s
  end.

Definition bytesToHex (b : bytes) : string :=
  fold_right (fun x acc => padStart2 (toString16 x) +:+ acc) "" b.

Definition is_whitespace (c : ascii) : bool :=
  let n := N_of_ascii c in
  ((9 <=? n) && (n <=? 13) || (n =? 32) || (n =? 160))%N.

Fixpoint skip_whitespace (s : string) : string :=
  match s with
  | String c rest => if is_whitespace c then skip_whitespace rest else s
  | "" => ""
  end.

Fixpoint hex_prefix_value (s : string) (acc : option N) : option N :=
  match s with
  | String c rest =>
      match hex_val c with
      | Some d => hex_prefix_value rest (Some (16 * default 0%N acc + d)%N)
      | None => acc
      end
  | "" => acc
  end.

Definition strip_0x (s : string) : string :=
  match s with
  | String "0" (String c rest) =>
      if bool_decide (c = "x"%char) || bool_decide (c = "X"%char) then rest else s
  | _ => s
  end.

(** [parseInt(s, 16)] on strings of code units below 256; [None] is [NaN]. *)
Definition parseInt16 (s : string) : option Z :=
  let s1 := skip_whitespace s in
  let '(negative, s2) :=
    match s1 with
    | String "-" rest => (true, rest)
    | String "+" rest => (false, rest)
    | _ => (false, s1)
    end in
  match hex_prefix_value (strip_0x s2) None with
  | None => None
  | Some v => Some (if negative : bool then - Z.of_N v else Z.of_N v)
  end.

(** Storing a number into a [Uint8Array] cell. *)
Definition to_uint8 (v : option Z) : byte :=
  match v with
  | None => x00
  | Some z => byte_of_N (Z.to_N (z mod 256))
  end.

Fixpoint hexToBytes (hex : string) : bytes :=
  match hex with
  | String c1 (String c2 rest) =>
      to_uint8 (parseInt16 (String c1 (String c2 ""))) :: hexToBytes rest
  | _ => []
  end.

(** [btoa] of a binary string (code units below 256). *)
Definition btoa (binary : string) : string :=
  to_base64 (String.list_byte_of_string binary).

(** [String.fromCharCode] of each byte, then [btoa]. *)
Definition uint8ToBase64 (b : bytes) : string :=
  btoa (String.string_of_list_byte b).

(** [atob], then [charCodeAt] of each character; [None] when [atob] throws. *)
Definition base64ToUint8 (base64 : string) : option bytes :=
  String.list_byte_of_string <$> atob base64.

(** [generateKeyPair], for the key [d] of [randomPrivateKey]. *)
Definition generateKeyPair (d : scalar) : E2EEKeyPair :=
  {| publicKey := bytesToHex (uncompressed (point_mul d base_point));
     privateKey := d |}.

(** [p256.getSharedSecret(privateKey, publicKey)]: the compressed shared
    point; throws on bytes that are not a point. *)
Definition getSharedSecret (d : scalar) (publicKey : bytes) : option bytes :=
  P ← parse_point publicKey; Some (compressed (point_mul d P)).

(** [hkdf(sha256, ikm, salt, info, length)] as RFC 5869 defines it: the first
    [length] bytes of [T(1) || T(2) || ...]; throws beyond [255 * 32]. *)
Fixpoint hkdf_blocks (n : nat) (counter : nat) (prk info prev : bytes) : bytes :=
  match n with
  | O => []
  | S k =>
      let t := hmac_sha256 prk (prev ++ info ++ [byte_of_N (N.of_nat counter)]) in
      t ++ hkdf_blocks k (S counter) prk info t
  end.

Definition hkdf (ikm salt info : bytes) (len : nat) : option bytes :=
  if (255 * 32 <? len)%nat then None
  else Some (take len (hkdf_blocks (blocks len) 1 (hmac_sha256 salt ikm) info [])).

Definition deriveSession (d : scalar) (peerPublicKeyHex : string) (pairingCode : text)
    : option E2EESession :=
  sharedSecret ← getSharedSecret d (hexToBytes peerPublicKeyHex);
  let sharedX := subarray sharedSecret 1 33 in
  let salt := utf8_encode pairingCode in
  let info := ascii_bytes "claude-studio-e2ee" in
  key ← hkdf sharedX salt info 32;
  Some {| derivedKey := key; seq := 0; peerSeq := -1 |}.

(** [gcm(key, iv).encrypt(data)]: ciphertext with the tag appended; the key
    must have an AES length. *)
Definition gcm_encrypt (key iv data : bytes) : option bytes :=
  if bool_decide (length key ∈ [16; 24; 32]%nat) then
    let '(ct, tag) := aes_gcm_seal key iv data in Some (ct ++ tag)
  else None.

(** [gcm(key, iv).decrypt(data)]: the last 16 bytes are the tag. *)
Definition gcm_decrypt (key iv data : bytes) : option bytes :=
  if bool_decide (length key ∈ [16; 24; 32]%nat) && (16 <=? length data)%nat then
    aes_gcm_open key iv (subarray data 0 (-16)) (subarray_from data (-16))
  else None.

Definition encrypt (session : E2EESession) (plaintext : text) (iv : bytes)
    : option (string * Z * E2EESession) :=
  ciphertext ← gcm_encrypt (derivedKey session) iv (utf8_encode plaintext);
  let combined := iv ++ ciphertext in
  Some (uint8ToBase64 combined, seq session, set_seq (Js.increment (seq session)) session).

(** [decrypt], at the types of its signature: the payload a string, the
    sequence number an integer. *)
Definition decrypt (session : E2EESession) (payload : string) (seq : Z)
    : outcome text * E2EESession :=
  if seq <=? peerSeq session then (Err ReplayRejected, session)
  else
    let session := set_peerSeq seq session in
    match base64ToUint8 payload with
    | None => (Err AuthFailed, session)
    | Some combined =>
        let iv := subarray combined 0 12 in
        let ciphertextWithTag := subarray_from combined 12 in
        match gcm_decrypt (derivedKey session) iv ciphertextWithTag with
        | Some decrypted => (Ok (utf8_decode decrypted), session)
        | None => (Err AuthFailed, session)
        end
    end.

End WithPrimitives.
End Mobile.

(** *** A small executable model of the primitives

    Text is Latin-1, the cipher reverses the plaintext and tags it with a
    checksum of key, IV and ciphertext, the MAC pads or cuts its input to 32
    bytes, and the group is the integers modulo 251 under multiplication by
    a scalar.  It satisfies the laws the envelope relies on, and lets the
    functions above run on concrete inputs. *)

Module Toy.

Definition checksum (b : bytes) : byte :=
  byte_of_N (fold_right (fun x acc => (Byte.to_N x + acc) mod 256)%N 0%N b).

Definition tag_of (key iv ct : bytes) : bytes :=
  replicate 16 (checksum (key ++ iv ++ ct)).

Definition seal (key iv pt : bytes) : bytes * bytes :=
  (rev pt, tag_of key iv (rev pt)).

Definition open (key iv ct tag : bytes) : option bytes :=
  if bool_decide (tag = tag_of key iv ct) then Some (rev ct) else None.

Definition mac (key data : bytes) : bytes :=
  take 32 (key ++ data ++ replicate 32 x00).

Definition mul (a P : N) : N := (a * P) mod 251.

Definition parse (b : bytes) : option N :=
  match b with
  | x04 :: rest =>
      if bool_decide (length rest = 64%nat) then Byte.to_N <$> rest !! 31%nat else None
  | _ => None
  end.

#[export] Instance primitives : Primitives := {|
  text := string;
  utf8_encode := String.list_byte_of_string;
  utf8_decode := String.string_of_list_byte;
  aes_gcm_seal := seal;
  aes_gcm_open := open;
  hmac_sha256 := mac;
  buffer_from_base64 := fun s => default [] (strict_from_base64 s);
  atob := fun s => String.string_of_list_byte <$> strict_from_base64 s;
  scalar := N;
  point := N;
  base_point := 1%N;
  point_mul := mul;
  x_coordinate := fun P => replicate 31 x00 ++ [byte_of_N P];
  y_coordinate := fun P => replicate 32 x00;
  y_is_odd := N.odd;
  parse_point := parse;
  scalar_bytes := fun a => [byte_of_N a]
|}.

(** A session whose key is 32 zero bytes, as either endpoint holds it. *)
Definition zero_key : bytes := replicate 32 x00.
Definition zero_iv : bytes := replicate 12 x00.

Definition desktop_session : Desktop.E2EESession :=
  Desktop.mkSession [] zero_key 0 (-1).

Definition mobile_session : Mobile.E2EESession :=
  Mobile.mkSession zero_key 0 (-1).

Definition hello : @text primitives := "hello".

(** A desktop session that has sent [2^53] frames. *)
Definition worn_session : Desktop.E2EESession :=
  Desktop.mkSession [] zero_key (2 ^ 53) (-1).

(** A frame whose tag is wrong: IV, one byte of ciphertext, 16 zero bytes. *)
Definition forged_payload : string := to_base64 (zero_iv ++ [x01] ++ replicate 16 x00).

End Toy.

(** The design document's reading of [decrypt]: the inbound counter moves
    on success only. *)
Definition inbound_counter_moves_on_success_only : Prop :=
  forall (P : Primitives) (s : Desktop.E2EESession) (payload : string) (seq : Z),
    match Desktop.decrypt s payload seq with
    | (Ok _, s') => Desktop.peerSeq s' = seq
    | (Err _, s') => Desktop.peerSeq s' = Desktop.peerSeq s
    end.

(** The design document's reading of the envelope, between a desktop and a
    mobile session that hold the same 32-byte key: whatever the plaintext,
    [encrypt] on one side emits the outbound counter and leaves it one
    larger, and [decrypt] on the other side returns the plaintext when the
    emitted number exceeds its inbound counter. *)
Definition every_plaintext_round_trips_and_counter_steps : Prop :=
  forall (P : Primitives), @PrimitivesOk P ->
  forall (sd : Desktop.E2EESession) (sm : Mobile.E2EESession) (m : text) (iv : bytes),
    length (Desktop.derivedKey sd) = 32%nat ->
    Mobile.derivedKey sm = Desktop.derivedKey sd ->
    length iv = 12%nat ->
    0 <= Desktop.seq sd -> 0 <= Mobile.seq sm ->
    (exists payload sd',
       Desktop.encrypt sd m iv = Some (payload, Desktop.seq sd, sd') /\
       Desktop.seq sd' = Desktop.seq sd + 1 /\
       (Mobile.peerSeq sm < Desktop.seq sd ->
        (Mobile.decrypt sm payload (Desktop.seq sd)).1 = Ok m)) /\
    (exists payload sm',
       Mobile.encrypt sm m iv = Some (payload, Mobile.seq sm, sm') /\
       Mobile.seq sm' = Mobile.seq sm + 1 /\
       (Desktop.peerSeq sd < Mobile.seq sm ->
        (Desktop.decrypt sd payload (Mobile.seq sm)).1 = Ok m)).

End E2EE.

(** ** The remote-control state machine, [src/main/remote-control.ts] *)

Module RemoteControl.
Import Js.

Inductive ControlMode : Type := local | remote | unlocking.

#[global] Instance ControlMode_eq_dec : EqDecision ControlMode.
Proof. solve_decision. Defined.

Record RemoteControlState : Type := mkControlState {
  mode : ControlMode;
  controllingDeviceId : option string;
  controllingDeviceName : option string
}.

#[global] Instance RemoteControlState_eq_dec : EqDecision RemoteControlState.
Proof. solve_decision. Defined.

(** The fields of the [RemoteControl] object.  [timers] are the pending
    [setTimeout] callbacks, each with the arguments of the [enterRemoteMode]
    call it will make; [lockTimer] is the handle of the last one set. *)
Record RemoteControl : Type := mkRemoteControl {
  state : RemoteControlState;
  lockPassword : string;
  allowRemoteControl : bool;
  autoLockTimeout : Z;
  lockTimer : option nat;
  timers : list (nat * (string * string));
  next_handle : nat
}.

Definition unlocked_state : RemoteControlState := mkControlState local None None.

(** [new RemoteControl()] *)
Definition create : RemoteControl :=
  mkRemoteControl unlocked_state "666666" true 0 None [] 0.

Definition set_state (s : RemoteControlState) (rc : RemoteControl) : RemoteControl :=
  mkRemoteControl s (lockPassword rc) (allowRemoteControl rc) (autoLockTimeout rc)
    (lockTimer rc) (timers rc) (next_handle rc).

Definition set_mode (m : ControlMode) (s : RemoteControlState) : RemoteControlState :=
  mkControlState m (controllingDeviceId s) (controllingDeviceName s).

(** What a method does to the outside: calls on [relayClient], and
    [state-changed] events carrying a copy of the state. *)
Inductive effect : Type :=
| SendControlAck (device_id : string) (accepted : bool)
| SendControlRevoked (device_id : string)
| StateChanged (s : RemoteControlState).

#[global] Instance effect_eq_dec : EqDecision effect.
Proof. solve_decision. Defined.

(** The frame [relayClient] puts on its socket for a call, when the socket
    is open ([RelayClient.send]). *)
Definition transmitted (ws_open : bool) (e : effect) : list Relay.msg :=
  match e with
  | SendControlAck device_id accepted =>
      if ws_open then [Relay.control_ack_frame (JStr device_id) (JBool accepted)] else []
  | SendControlRevoked device_id =>
      if ws_open then [Relay.control_revoked_frame (JStr device_id)] else []
  | StateChanged _ => []
  end.

Record Settings : Type := mkSettings {
  s_lockPassword : option string;
  s_allowRemoteControl : option bool;
  s_autoLockTimeout : option Z
}.

Definition updateSettings (settings : Settings) (rc : RemoteControl) : RemoteControl :=
  mkRemoteControl (state rc)
    (default (lockPassword rc) (s_lockPassword settings))
    (default (allowRemoteControl rc) (s_allowRemoteControl settings))
    (default (autoLockTimeout rc) (s_autoLockTimeout settings))
    (lockTimer rc) (timers rc) (next_handle rc).

Definition getState (rc : RemoteControl) : RemoteControlState := state rc.

Definition getMode (rc : RemoteControl) : ControlMode := mode (state rc).

Definition isLocked (rc : RemoteControl) : bool :=
  bool_decide (mode (state rc) = remote) || bool_decide (mode (state rc) = unlocking).

Definition emitStateChange (rc : RemoteControl) : list effect :=
  [StateChanged (getState rc)].

Definition enterRemoteMode (device_id device_name : string) (rc : RemoteControl)
    : RemoteControl * list effect :=
  let rc' := set_state (mkControlState remote (Some device_id) (Some device_name)) rc in
  (rc', emitStateChange rc').

(** [handleControlRequest]; [hasSession] is [relayClient.hasSession]. *)
Definition handleControlRequest (hasSession : string -> bool) (device_id device_name : string)
    (rc : RemoteControl) : RemoteControl * list effect :=
  if negb (allowRemoteControl rc) then (rc, [SendControlAck device_id false])
  else if negb (bool_decide (mode (state rc) = local)) then
    (rc, [SendControlAck device_id false])
  else if negb (hasSession device_id) then (rc, [SendControlAck device_id false])
  else if 0 <? autoLockTimeout rc then
    (mkRemoteControl (state rc) (lockPassword rc) (allowRemoteControl rc) (autoLockTimeout rc)
       (Some (next_handle rc))
       (timers rc ++ [(next_handle rc, (device_id, device_name))])
       (S (next_handle rc)),
     [SendControlAck device_id true])
  else
    let '(rc', effects) := enterRemoteMode device_id device_name rc in
    (rc', SendControlAck device_id true :: effects).

(** The callback of the timer with handle [h] runs. *)
Definition timer_fires (h : nat) (rc : RemoteControl) : RemoteControl * list effect :=
  match List.find (fun t => bool_decide (t.1 = h)) (timers rc) with
  | Some (_, (device_id, device_name)) =>
      enterRemoteMode device_id device_name
        (mkRemoteControl (state rc) (lockPassword rc) (allowRemoteControl rc)
           (autoLockTimeout rc) (lockTimer rc)
           (List.filter (fun t => negb (bool_decide (t.1 = h))) (timers rc))
           (next_handle rc))
  | None => (rc, [])
  end.

(** [tryUnlock(password)]: the result, the object afterwards, the effects. *)
Definition tryUnlock (password : string) (rc : RemoteControl)
    : bool * RemoteControl * list effect :=
  if negb (bool_decide (mode (state rc) = remote))
     && negb (bool_decide (mode (state rc) = unlocking))
  then (true, rc, [])
  else
    let '(rc1, changed) :=
      if bool_decide (mode (state rc) = remote) then
        let rc1 := set_state (set_mode unlocking (state rc)) rc in
        (rc1, emitStateChange rc1)
      else (rc, []) in
    if bool_decide (password = lockPassword rc1) then
      let revoked :=
        match controllingDeviceId (state rc1) with
        | Some device_id =>
            if bool_decide (device_id = "") then [] else [SendControlRevoked device_id]
        | None => []
        end in
      let rc2 := set_state unlocked_state rc1 in
      (true, rc2, changed ++ revoked ++ emitStateChange rc2)
    else (false, rc1, changed).

Definition clearLockTimer (rc : RemoteControl) : RemoteControl :=
  match lockTimer rc with
  | Some h =>
      mkRemoteControl (state rc) (lockPassword rc) (allowRemoteControl rc) (autoLockTimeout rc)
        None (List.filter (fun t => negb (bool_decide (t.1 = h))) (timers rc))
        (next_handle rc)
  | None => rc
  end.

Definition forceRelease (rc : RemoteControl) : RemoteControl * list effect :=
  if bool_decide (mode (state rc) = local) then (rc, [])
  else
    let rc' := set_state unlocked_state (clearLockTimer rc) in
    (rc', emitStateChange rc').

(** The listeners on [relayClient]. *)
Inductive relay_event : Type :=
| ControlRequest (device_id device_name : string)
| DeviceOffline (device_id : string)
| PairingRevoked (device_id : string)
| Disconnected.

Definition on_relay_event (hasSession : string -> bool) (ev : relay_event)
    (rc : RemoteControl) : RemoteControl * list effect :=
  match ev with
  | ControlRequest device_id device_name =>
      handleControlRequest hasSession device_id device_name rc
  | DeviceOffline device_id | PairingRevoked device_id =>
      if bool_decide (controllingDeviceId (state rc) = Some device_id)
      then forceRelease rc else (rc, [])
  | Disconnected =>
      if negb (bool_decide (mode (state rc) = local)) then forceRelease rc else (rc, [])
  end.

(** What can happen to the object: a relay event (with the sessions the
    relay client holds at that moment), an unlock attempt, a timer, a change
    of settings. *)
Inductive input : Type :=
| FromRelay (hasSession : string -> bool) (ev : relay_event)
| Unlock (password : string)
| TimerFires (h : nat)
| UpdateSettings (settings : Settings).

Definition fsm_step (rc : RemoteControl) (i : input) : RemoteControl :=
  match i with
  | FromRelay hasSession ev => (on_relay_event hasSession ev rc).1
  | Unlock password => (tryUnlock password rc).1.2
  | TimerFires h => (timer_fires h rc).1
  | UpdateSettings settings => updateSettings settings rc
  end.

Definition reachable (rc : RemoteControl) : Prop :=
  exists inputs, rc = fold_left fsm_step inputs create.

(** The controller reference goes with the mode. *)
Definition controller_known (rc : RemoteControl) : Prop :=
  match mode (state rc) with
  | local => controllingDeviceId (state rc) = None /\ controllingDeviceName (state rc) = None
  | remote | unlocking =>
      is_Some (controllingDeviceId (state rc)) /\ is_Some (controllingDeviceName (state rc))
  end.

(** The desktop of the lifecycle scenario: paired with mobile M, default
    settings, after M's [control-request]. *)
Definition controlled_by_M : RemoteControl :=
  (handleControlRequest (fun d => bool_decide (d = "M")) "M" "Phone" create).1.

End RemoteControl.

(** ** Notions used by the further properties of the relay server *)

Module RelayNotions.
Import Js Relay.

(** The key under which [handleClaimPairing] replaces a relation. *)
Definition pair_key (r : PairedRelation) : string * string := (desktopId r, mobileId r).

(** The only way the server closes a socket. *)
Definition is_replacement_close (a : action) : Prop :=
  match a with
  | Close _ code reason => code = 1000 /\ reason = "Replaced by new connection"
  | Send _ _ => True
  end.

(** [st'] extends the wire of [st] by actions that satisfy [P]. *)
Definition wire_grows (P : action -> Prop) (st st' : ServerState) : Prop :=
  exists out : list action, wire st' = wire st ++ out /\ Forall P out.

Section WithAuth.
Variable verifyToken : string -> option string.
Variable getUserById : string -> bool.

(** The record of a connection that went through the upgrade handler. *)
Definition authenticated (dev : ConnectedDevice) : Prop :=
  deviceId dev <> "" /\ userId dev <> "" /\ getUserById (userId dev) = true /\
  exists token, token <> "" /\ verifyToken token = Some (userId dev).

(** Every socket with listeners belongs to an authenticated device, and every
    registry entry is filed under its own device id and routes to a socket
    whose listeners captured that very record and whose close event has not
    fired: the socket is open, or closing. *)
Definition registry_consistent (st : ServerState) : Prop :=
  (forall w dev, listeners st !! w = Some dev ->
     ws dev = w /\ authenticated dev /\ is_Some (sockets st !! w)) /\
  (forall d dev, devices st !! d = Some dev ->
     deviceId dev = d /\ listeners st !! ws dev = Some dev /\
     (sockets st !! ws dev = Some OPEN \/ sockets st !! ws dev = Some CLOSING)).

End WithAuth.

End RelayNotions.


(** *** Further vocabulary: presence notifications and the desktop list *)

Module RelayPresenceNotions.
Import Js Relay.

(** The frame one relation contributes to a presence notification about
    [device_id], sent under [user_id], in the state [st]. *)
Definition notification (device_id user_id : string) (eventType : string -> frame)
    (st : ServerState) (rel : PairedRelation) : option action :=
  if bool_decide (r_userId rel = user_id) then
    match notify_target rel device_id with
    | Some targetId =>
        match devices st !! targetId with
        | Some target =>
            if bool_decide (sockets st !! ws target = Some OPEN)
            then Some (Send (ws target) (eventType device_id))
            else None
        | None => None
        end
    | None => None
    end
  else None.

Definition item_id (item : string * string * bool) : string := item.1.1.

End RelayPresenceNotions.


(** ** Notions used by the further properties of the control state machine *)

Module RemoteControlNotions.
Import RemoteControl.

(** Inputs other than a control request and a timer callback. *)
Definition passive (i : input) : Prop :=
  match i with
  | FromRelay _ (ControlRequest _ _) => False
  | TimerFires _ => False
  | _ => True
  end.

(** Every pending timer has a handle that was handed out before. *)
Definition handles_issued (rc : RemoteControl) : Prop :=
  Forall (fun t => (t.1 < next_handle rc)%nat) (timers rc).

(** The frames the effects put on an open relay socket. *)
Definition frames (effects : list effect) : list Relay.msg :=
  concat (transmitted true <$> effects).

End RemoteControlNotions.


(** ** Project path encoding ([platform.ts]) *)

Module Platform.

(** The character class [[/\\:.]] of [encodePath]. *)
Definition is_separator (c : ascii) : bool :=
  bool_decide (c = "/"%char) || bool_decide (c = "\"%char)
  || bool_decide (c = ":"%char) || bool_decide (c = "."%char).

(** [absolutePath.replace(/[/\\:.]/g, '-')].  The four characters are ASCII,
    so the replacement acts alike on the code units of the JavaScript string
    and on the bytes of its UTF-8 form, which is what the [string] holds. *)
Fixpoint encodePath (absolutePath : string) : string :=
  match absolutePath with
  | "" => ""
  | String c rest => String (if is_separator c then "-"%char else c) (encodePath rest)
  end.

(** A character that [encodePath] maps to a hyphen. *)
Definition reads_as_hyphen (c : ascii) : Prop := is_separator c = true \/ c = "-"%char.

End Platform.

(** ** Remote command execution ([remote-ipc-handlers.ts]) *)

Module CommandProxy.
Import Js.

(** The fields [handleRemoteCommand] reads from the decrypted message.
    [c_args] is [None] when [msg.args] is absent (or otherwise falsy) and the
    array otherwise. *)
Record command : Type := mkCommand {
  c_type : jsval;
  c_id : jsval;
  c_channel : jsval;
  c_args : option (list jsval)
}.

Definition ALLOWED_CHANNELS : list string :=
  [ "claude:spawn"; "claude:send"; "claude:kill";
    "claude:permission-response"; "claude:setPermissionMode";
    "sessions:list"; "sessions:getMessages"; "sessions:listProjects"; "sessions:fork";
    "git:status"; "git:diff"; "git:stage"; "git:unstage";
    "git:commit"; "git:branch"; "git:listBranches";
    "git:checkout"; "git:createBranch"; "git:push"; "git:pushTags";
    "git:log"; "git:showCommitFiles"; "git:showCommitFileDiff";
    "git:searchFiles"; "git:listFiles";
    "app:getProjectPath"; "app:getPlatform"; "app:getVersion";
    "app:getModel"; "app:getClaudeCodeVersion";
    "settings:read";
    "skills:list"; "commands:list" ].

(** [ALLOWED_CHANNELS.has(v)]: only a string can be a member. *)
Definition allowed (v : jsval) : bool :=
  match v with
  | JStr channel => bool_decide (channel ∈ ALLOWED_CHANNELS)
  | _ => false
  end.

(** What a registered handler does with its arguments: it returns a value,
    or throws an [err] whose [err.message] is the given value. *)
Inductive outcome : Type :=
| Returned (result : jsval)
| Thrown (message : jsval).

(** The [error] of a response: the two templates of the source, or the
    message of what the handler threw. *)
Inductive response_error : Type :=
| ChannelNotAllowed (channel : jsval)
| NoHandlerRegistered (channel : string)
| HandlerError (message : jsval).

(** Calls the function makes: a handler of the registry, and
    [relayClient.sendResponse] / [relayClient.sendEvent]. *)
Inductive effect : Type :=
| Invoked (channel : string) (args : list jsval)
| SendResponse (device_id : string) (id : jsval) (result : jsval)
               (error : option response_error)
| SendStreamEnd (device_id : string)
| SendSystemMessage (device_id : string) (content : string).

Abbreviation handler := (list jsval -> outcome).

Section WithRegistry.

(** [handlerRegistry] *)
Variable handlerRegistry : string -> option handler.

(** [invokeHandler]: the outcome of the registered handler; an unregistered
    channel throws. *)
Definition invokeHandler (channel : string) (args : list jsval)
    : list effect * (jsval + response_error) :=
  match handlerRegistry channel with
  | None => ([], inr (NoHandlerRegistered channel))
  | Some h =>
      ([Invoked channel args],
       match h args with
       | Returned result => inl result
       | Thrown message => inr (HandlerError (js_or message (JStr "Unknown error")))
       end)
  end.

(** [handleRemoteCommand], with the [processToDevice] map before and after. *)
Definition handleRemoteCommand (fromDeviceId : string) (msg : command)
    (processToDevice : gmap string string) : gmap string string * list effect :=
  if negb (strict_eq (c_type msg) (JStr "command"))
     || negb (truthy (c_id msg)) || negb (truthy (c_channel msg))
  then (processToDevice, [])
  else if negb (allowed (c_channel msg)) then
    (processToDevice,
     [SendResponse fromDeviceId (c_id msg) JUndefined
        (Some (ChannelNotAllowed (c_channel msg)))])
  else
    match c_channel msg with
    | JStr channel =>
        match invokeHandler channel (default [] (c_args msg)) with
        | (calls, inl result) =>
            let p1 :=
              if bool_decide (channel = "claude:spawn") then
                match result with
                | JStr pid => <[pid := fromDeviceId]> processToDevice
                | _ => processToDevice
                end
              else processToDevice in
            let p2 :=
              if bool_decide (channel = "claude:kill") then
                match c_args msg with
                | Some (JStr pid :: _) =>
                    if bool_decide (pid = "") then p1 else delete pid p1
                | _ => p1
                end
              else p1 in
            (p2, calls ++ [SendResponse fromDeviceId (c_id msg) result None])
        | (calls, inr e) =>
            (processToDevice,
             calls ++ [SendResponse fromDeviceId (c_id msg) JUndefined (Some e)])
        end
    | _ => (processToDevice, [])
    end.

End WithRegistry.

(** The [exit] listener on the process manager. *)
Definition on_process_exit (pid : string) (processToDevice : gmap string string)
    : gmap string string * list effect :=
  match processToDevice !! pid with
  | Some mobileDeviceId =>
      if bool_decide (mobileDeviceId = "") then (processToDevice, [])
      else (delete pid processToDevice, [SendStreamEnd mobileDeviceId])
  | None => (processToDevice, [])
  end.

(** The [error] listener on the process manager. *)
Definition on_process_error (pid errorMsg : string) (processToDevice : gmap string string)
    : gmap string string * list effect :=
  match processToDevice !! pid with
  | Some mobileDeviceId =>
      if bool_decide (mobileDeviceId = "") then (processToDevice, [])
      else (delete pid processToDevice,
            [SendSystemMessage mobileDeviceId errorMsg; SendStreamEnd mobileDeviceId])
  | None => (processToDevice, [])
  end.

(** The responses among the effects. *)
Definition responses (effects : list effect) : list effect :=
  List.filter (fun e => match e with SendResponse _ _ _ _ => true | _ => false end) effects.

Definition well_formed (msg : command) : Prop :=
  c_type msg = JStr "command" /\ truthy (c_id msg) = true /\ truthy (c_channel msg) = true.

End CommandProxy.


(** ** The relay clients ([relay-client.ts] of the desktop and of the mobile) *)

(** [Math.min(1000 * Math.pow(2, attempts), 30000)], the delay both clients
    wait before reconnect number [attempts] (counted from 0). *)
Module Reconnect.

Definition maxReconnectDelay : Z := 30000.

Definition delay (reconnectAttempts : nat) : Z :=
  Z.min (1000 * 2 ^ Z.of_nat reconnectAttempts) maxReconnectDelay.

(** [scheduleReconnect] after [clearReconnect]: the timer set and the
    counter afterwards.  The [open] listener resets the counter to 0. *)
Definition scheduleReconnect (reconnectAttempts : nat) : Z * nat :=
  (delay reconnectAttempts, S reconnectAttempts).

(** The delays of [n] reconnects in a row, none of which opened. *)
Fixpoint delays (n : nat) (reconnectAttempts : nat) : list Z :=
  match n with
  | O => []
  | S k => (scheduleReconnect reconnectAttempts).1
           :: delays k (scheduleReconnect reconnectAttempts).2
  end.

End Reconnect.

Module DesktopClient.
Import Js Buffer E2EE.

(** A paired device as the desktop lists it (the two timestamps of the
    record are left out). *)
Record PairedDevice : Type := mkPaired {
  pd_deviceId : string;
  pd_deviceName : string
}.

Record RelayConfig : Type := mkConfig {
  serverUrl : string;
  token : string;
  cfg_deviceName : string
}.

(** The content of the QR code. *)
Record QRPayload : Type := mkQR {
  qr_s : string;
  qr_t : string;
  qr_p : string;
  qr_k : string;
  qr_d : string
}.

(** A server frame as the casts of [handleMessage] type it. *)
Inductive inbound : Type :=
| Pong
| PairingAccepted (mobilePublicKey mobileDeviceId mobileDeviceName : string)
| PairingRevoked (deviceId : string)
| RelayFrame (from payload : string) (seq : Z)
| DeviceOnline (deviceId : string)
| DeviceOffline (deviceId : string)
| ControlRequestFrame (from deviceName : string)
| ErrorFrame (message : Relay.errmsg)
| OtherFrame.

(** The frame the server sent, when its fields have the types the casts
    assume: a [relay] frame is covered when its payload is a string and its
    sequence number an integer.  The types the desktop has no case for fall
    to [default]. *)
Definition of_frame (f : Relay.frame) : option inbound :=
  match f with
  | Relay.FPong => Some Pong
  | Relay.FPairingAcceptedDesktop (JStr key) id name => Some (PairingAccepted key id name)
  | Relay.FPairingRevoked d => Some (PairingRevoked d)
  | Relay.FRelay from (JStr payload) (JNum seq) => Some (RelayFrame from payload seq)
  | Relay.FDeviceOnline d => Some (DeviceOnline d)
  | Relay.FDeviceOffline d => Some (DeviceOffline d)
  | Relay.FControlRequest from name => Some (ControlRequestFrame from name)
  | Relay.FError message => Some (ErrorFrame message)
  | Relay.FDeviceList _ | Relay.FControlAck _ _ | Relay.FControlRevoked _ => Some OtherFrame
  | _ => None
  end.

Section WithPrimitives.
Context `{Primitives}.

(** [JSON.parse] of a decrypted plaintext into a value of type [json]
    ([None]: it throws), and the JavaScript string of an ASCII literal. *)
Variable json : Type.
Variable json_parse : text -> option json.
Variable text_of_string : string -> text.

(** What the client emits on its [EventEmitter]. *)
Inductive client_event : Type :=
| Paired (device : PairedDevice)
| Revoked (deviceId : string)
| Message (from : string) (parsed : json)
| Online (deviceId : string)
| Offline (deviceId : string)
| ControlRequested (deviceId deviceName : string)
| RelayError (message : Relay.errmsg).

(** The fields of the [RelayClient] object that the pairing and the
    encrypted traffic use, the frames it has put on its socket and the
    events it has emitted. *)
Record RelayClient : Type := mkClient {
  desktopId : string;
  config : option RelayConfig;
  connected : bool;
  ws_open : bool;
  pairingKeyPair : option scalar;
  pairingCode : option string;
  sessions : gmap string Desktop.E2EESession;
  pairedDevices : list PairedDevice;
  sent : list Relay.msg;
  emitted : list client_event
}.

Definition set_pairing (k : option scalar) (code : option string) (c : RelayClient)
    : RelayClient :=
  mkClient (desktopId c) (config c) (connected c) (ws_open c) k code (sessions c)
    (pairedDevices c) (sent c) (emitted c).

Definition set_sessions (s : gmap string Desktop.E2EESession) (c : RelayClient)
    : RelayClient :=
  mkClient (desktopId c) (config c) (connected c) (ws_open c) (pairingKeyPair c)
    (pairingCode c) s (pairedDevices c) (sent c) (emitted c).

Definition set_pairedDevices (l : list PairedDevice) (c : RelayClient) : RelayClient :=
  mkClient (desktopId c) (config c) (connected c) (ws_open c) (pairingKeyPair c)
    (pairingCode c) (sessions c) l (sent c) (emitted c).

Definition emit (e : client_event) (c : RelayClient) : RelayClient :=
  mkClient (desktopId c) (config c) (connected c) (ws_open c) (pairingKeyPair c)
    (pairingCode c) (sessions c) (pairedDevices c) (sent c) (emitted c ++ [e]).

(** [send]: the frame goes out iff the socket is open. *)
Definition send (m : Relay.msg) (c : RelayClient) : bool * RelayClient :=
  if ws_open c then
    (true, mkClient (desktopId c) (config c) (connected c) (ws_open c) (pairingKeyPair c)
             (pairingCode c) (sessions c) (pairedDevices c) (sent c ++ [m]) (emitted c))
  else (false, c).

Definition hasSession (c : RelayClient) (deviceId : string) : bool :=
  bool_decide (is_Some (sessions c !! deviceId)).

(** [pairedDevices.filter(d => d.deviceId !== deviceId)] *)
Definition without (deviceId : string) (l : list PairedDevice) : list PairedDevice :=
  List.filter (fun d => negb (bool_decide (pd_deviceId d = deviceId))) l.

(** [sendEncrypted], for the IV that [encrypt] draws.  [None] is a throw of
    [encrypt]; the counter of the session moves whether or not the frame
    goes out. *)
Definition sendEncrypted (targetDeviceId : string) (plaintext : text) (iv : bytes)
    (c : RelayClient) : option (bool * RelayClient) :=
  match sessions c !! targetDeviceId with
  | None => Some (false, c)
  | Some session =>
      '(payload, seq, session') ← Desktop.encrypt session plaintext iv;
      Some (send (Relay.relay_frame (JStr targetDeviceId) (JStr payload) (JNum seq))
              (set_sessions (<[targetDeviceId := session']> (sessions c)) c))
  end.

(** [generatePairingQR], for the key and the code it draws; the result is
    the content of the QR code. *)
Definition generatePairingQR (d : scalar) (code : string) (c : RelayClient)
    : option QRPayload * RelayClient :=
  match config c with
  | Some cfg =>
      if negb (connected c) then (None, c)
      else
        let c1 := set_pairing (Some d) (Some code) c in
        let key := Desktop.publicKey (Desktop.generateKeyPair d) in
        let c2 :=
          (send (Relay.register_pairing_frame (JStr code) (JStr key)
                   (JStr (cfg_deviceName cfg))) c1).2 in
        (Some (mkQR (serverUrl cfg) (token cfg) code key (desktopId c)), c2)
  | None => (None, c)
  end.

Definition revokePairing (deviceId : string) (c : RelayClient) : bool * RelayClient :=
  send (Relay.revoke_pairing_frame (JStr deviceId))
    (set_pairedDevices (without deviceId (pairedDevices c))
       (set_sessions (delete deviceId (sessions c)) c)).

Definition sendControlAck (mobileDeviceId : string) (accepted : bool) (c : RelayClient)
    : bool * RelayClient :=
  send (Relay.control_ack_frame (JStr mobileDeviceId) (JBool accepted)) c.

Definition sendControlRevoked (mobileDeviceId : string) (c : RelayClient)
    : bool * RelayClient :=
  send (Relay.control_revoked_frame (JStr mobileDeviceId)) c.

(** [handleMessage].  A throw of [deriveSession] leaves the handler before
    anything was changed; a throw of [decrypt] or [JSON.parse] is caught and
    the session removed. *)
Definition handleMessage (msg : inbound) (c : RelayClient) : RelayClient :=
  match msg with
  | Pong | OtherFrame => c
  | PairingAccepted mobilePublicKey mobileDeviceId mobileDeviceName =>
      match pairingKeyPair c, pairingCode c with
      | Some d, Some code =>
          if bool_decide (code = "") then c
          else
            match Desktop.deriveSession d mobilePublicKey (text_of_string code) with
            | Some session =>
                let device := mkPaired mobileDeviceId mobileDeviceName in
                emit (Paired device)
                  (set_pairing None None
                     (set_pairedDevices (without mobileDeviceId (pairedDevices c) ++ [device])
                        (set_sessions (<[mobileDeviceId := session]> (sessions c)) c)))
            | None => c
            end
      | _, _ => c
      end
  | PairingRevoked deviceId =>
      emit (Revoked deviceId)
        (set_pairedDevices (without deviceId (pairedDevices c))
           (set_sessions (delete deviceId (sessions c)) c))
  | RelayFrame from payload seq =>
      match sessions c !! from with
      | None => c
      | Some session =>
          match Desktop.decrypt session payload seq with
          | (Ok plaintext, session') =>
              match json_parse plaintext with
              | Some parsed =>
                  emit (Message from parsed)
                    (set_sessions (<[from := session']> (sessions c)) c)
              | None => set_sessions (delete from (sessions c)) c
              end
          | (Err _, _) => set_sessions (delete from (sessions c)) c
          end
      end
  | DeviceOnline deviceId =>
      if existsb (fun d => bool_decide (pd_deviceId d = deviceId)) (pairedDevices c)
      then emit (Online deviceId) c else c
  | DeviceOffline deviceId => emit (Offline deviceId) c
  | ControlRequestFrame from deviceName => emit (ControlRequested from deviceName) c
  | ErrorFrame message => emit (RelayError message) c
  end.

End WithPrimitives.
End DesktopClient.


Module MobileClient.
Import Js Buffer E2EE.

Record DesktopInfo : Type := mkDesktop {
  di_desktopId : string;
  di_deviceName : jsval;
  di_online : bool
}.

(** The content of the scanned QR code. *)
Record QRPayload : Type := mkQR {
  qr_s : string;
  qr_t : string;
  qr_p : string;
  qr_k : string;
  qr_d : string
}.

(** A server frame as [handleMessage] reads it.  An absent [desktopId] of
    [pairing-accepted] reads as the empty string (both are falsy). *)
Inductive inbound : Type :=
| Pong
| DeviceList (desktops : list (string * string * bool))
| PairingAccepted (desktopId : string) (desktopDeviceName : jsval)
| PairingRevoked (deviceId : string)
| RelayFrame (from payload : string) (seq : Z)
| ControlAck (from : string) (accepted : jsval)
| ControlRevoked (from : string)
| DeviceOnline (deviceId : string)
| DeviceOffline (deviceId : string)
| ErrorFrame (message : Relay.errmsg)
| OtherFrame.

(** The frame the server sent, when its fields have the types the casts
    assume: a [relay] frame is covered when its payload is a string and its
    sequence number an integer. *)
Definition of_frame (f : Relay.frame) : option inbound :=
  match f with
  | Relay.FPong => Some Pong
  | Relay.FDeviceList desktops => Some (DeviceList desktops)
  | Relay.FPairingAcceptedMobile id name _ => Some (PairingAccepted id name)
  | Relay.FPairingAcceptedDesktop _ _ _ => Some (PairingAccepted "" JUndefined)
  | Relay.FPairingRevoked d => Some (PairingRevoked d)
  | Relay.FRelay from (JStr payload) (JNum seq) => Some (RelayFrame from payload seq)
  | Relay.FControlAck from accepted => Some (ControlAck from accepted)
  | Relay.FControlRevoked from => Some (ControlRevoked from)
  | Relay.FDeviceOnline d => Some (DeviceOnline d)
  | Relay.FDeviceOffline d => Some (DeviceOffline d)
  | Relay.FError message => Some (ErrorFrame message)
  | Relay.FControlRequest _ _ => Some OtherFrame
  | Relay.FRelay _ _ _ => None
  end.

(** What [handleEncryptedRelay] reads from a parsed plaintext. *)
Inductive downlink : Type :=
| Response (id result error : jsval)
| Event (channel data : jsval)
| OtherJson.

(** Calls on the event handlers, and the settling of command promises. *)
Inductive note : Type :=
| PairingAcceptedNote (desktopId : string)
| ControlAckNote (accepted : jsval) (from : string)
| ControlRevokedNote (from : string)
| DesktopDisconnected (desktopId : string)
| ErrorNote (message : Relay.errmsg)
| RemoteEvent (channel data : jsval)
| Resolved (id : string) (result : jsval)
| Rejected (id : string) (error : jsval)
| TimedOut (id : string).

Section WithPrimitives.
Context `{Primitives}.

(** [JSON.parse] of a decrypted plaintext ([None]: it throws, or yields
    [null] so that reading [parsed.type] throws), [JSON.stringify] of a
    command, and the JavaScript string of an ASCII literal. *)
Variable json_parse : text -> option downlink.
Variable stringify_command : string -> string -> list jsval -> text.
Variable text_of_string : string -> text.

Record RelayClient : Type := mkClient {
  connected : bool;
  ws_open : bool;
  pairingKeyPair : option scalar;
  pendingSession : option (string * Mobile.E2EESession);
  sessions : gmap string Mobile.E2EESession;
  desktops : list DesktopInfo;
  controllingDesktopId : option string;
  pendingCommands : list string;
  sent : list Relay.msg;
  notes : list note
}.

Definition set_link (up open : bool) (c : RelayClient) : RelayClient :=
  mkClient up open (pairingKeyPair c) (pendingSession c) (sessions c) (desktops c)
    (controllingDesktopId c) (pendingCommands c) (sent c) (notes c).

Definition set_pairing (k : option scalar) (p : option (string * Mobile.E2EESession))
    (c : RelayClient) : RelayClient :=
  mkClient (connected c) (ws_open c) k p (sessions c) (desktops c)
    (controllingDesktopId c) (pendingCommands c) (sent c) (notes c).

Definition set_sessions (s : gmap string Mobile.E2EESession) (c : RelayClient)
    : RelayClient :=
  mkClient (connected c) (ws_open c) (pairingKeyPair c) (pendingSession c) s (desktops c)
    (controllingDesktopId c) (pendingCommands c) (sent c) (notes c).

Definition set_desktops (l : list DesktopInfo) (c : RelayClient) : RelayClient :=
  mkClient (connected c) (ws_open c) (pairingKeyPair c) (pendingSession c) (sessions c) l
    (controllingDesktopId c) (pendingCommands c) (sent c) (notes c).

Definition set_controlling (d : option string) (c : RelayClient) : RelayClient :=
  mkClient (connected c) (ws_open c) (pairingKeyPair c) (pendingSession c) (sessions c)
    (desktops c) d (pendingCommands c) (sent c) (notes c).

Definition set_pendingCommands (l : list string) (c : RelayClient) : RelayClient :=
  mkClient (connected c) (ws_open c) (pairingKeyPair c) (pendingSession c) (sessions c)
    (desktops c) (controllingDesktopId c) l (sent c) (notes c).

Definition notify (n : note) (c : RelayClient) : RelayClient :=
  mkClient (connected c) (ws_open c) (pairingKeyPair c) (pendingSession c) (sessions c)
    (desktops c) (controllingDesktopId c) (pendingCommands c) (sent c) (notes c ++ [n]).

Definition send (m : Relay.msg) (c : RelayClient) : bool * RelayClient :=
  if ws_open c then
    (true, mkClient (connected c) (ws_open c) (pairingKeyPair c) (pendingSession c)
             (sessions c) (desktops c) (controllingDesktopId c) (pendingCommands c)
             (sent c ++ [m]) (notes c))
  else (false, c).

Definition hasSession (c : RelayClient) (desktopId : string) : bool :=
  bool_decide (is_Some (sessions c !! desktopId)).

Definition sendEncrypted (targetDeviceId : string) (plaintext : text) (iv : bytes)
    (c : RelayClient) : option (bool * RelayClient) :=
  match sessions c !! targetDeviceId with
  | None => Some (false, c)
  | Some session =>
      '(payload, seq, session') ← Mobile.encrypt session plaintext iv;
      Some (send (Relay.relay_frame (JStr targetDeviceId) (JStr payload) (JNum seq))
              (set_sessions (<[targetDeviceId := session']> (sessions c)) c))
  end.

(** [pairFromQR], for the key it draws; [opens] is the result of
    [doConnect] when the client is not connected yet.  [None] is a throw of
    [deriveSession]. *)
Definition pairFromQR (qrPayload : QRPayload) (d : scalar) (opens : bool)
    (c : RelayClient) : option (bool * RelayClient) :=
  match pendingSession c with
  | Some _ => Some (true, c)
  | None =>
      if negb (connected c) && negb opens then Some (false, c)
      else
        let c1 := if connected c then c else set_link true true c in
        session ← Mobile.deriveSession d (qr_k qrPayload) (text_of_string (qr_p qrPayload));
        Some (send (Relay.claim_pairing_frame (JStr (qr_p qrPayload))
                      (JStr (Mobile.publicKey (Mobile.generateKeyPair d))))
                (set_pairing (Some d) (Some (qr_d qrPayload, session)) c1))
  end.

Definition forgetDesktop (desktopId : string) (c : RelayClient) : RelayClient :=
  (send (Relay.revoke_pairing_frame (JStr desktopId))
     (set_desktops
        (List.filter (fun d => negb (bool_decide (di_desktopId d = desktopId))) (desktops c))
        (set_sessions (delete desktopId (sessions c)) c))).2.

Definition requestControl (desktopId : string) (c : RelayClient) : bool * RelayClient :=
  send (Relay.control_request_frame (JStr desktopId)) c.

(** [executeCommand], for the id and the IV it draws: [Some (true, _)] when
    the command went out and its promise is pending, [Some (false, _)] when
    it throws [Failed to send command], [None] when [encrypt] throws. *)
Definition executeCommand (desktopId channel : string) (args : list jsval) (id : string)
    (iv : bytes) (c : RelayClient) : option (bool * RelayClient) :=
  '(was_sent, c1) ← sendEncrypted desktopId (stringify_command id channel args) iv c;
  if was_sent : bool
  then Some (true, set_pendingCommands (pendingCommands c1 ++ [id]) c1)
  else Some (false, c1).

(** The 15-second timer of a command runs (it is cleared when the response
    arrives first). *)
Definition command_timeout (id : string) (c : RelayClient) : RelayClient :=
  if bool_decide (id ∈ pendingCommands c)
  then notify (TimedOut id)
         (set_pendingCommands
            (List.filter (fun i => negb (bool_decide (i = id))) (pendingCommands c)) c)
  else c.

Definition set_online (desktopId : string) (online : bool) (l : list DesktopInfo)
    : list DesktopInfo :=
  (fun d => if bool_decide (di_desktopId d = desktopId)
            then mkDesktop (di_desktopId d) (di_deviceName d) online else d) <$> l.

(** [handleEncryptedRelay]: errors of [decrypt] and [JSON.parse] are logged,
    and the session stays. *)
Definition handleEncryptedRelay (from payload : string) (seq : Z) (c : RelayClient)
    : RelayClient :=
  match sessions c !! from with
  | None => c
  | Some session =>
      let '(r, session') := Mobile.decrypt session payload seq in
      let c1 := set_sessions (<[from := session']> (sessions c)) c in
      match r with
      | Err _ => c1
      | Ok plaintext =>
          match json_parse plaintext with
          | Some (Response (JStr id) result error) =>
              if bool_decide (id ∈ pendingCommands c1) then
                notify (if truthy error then Rejected id error else Resolved id result)
                  (set_pendingCommands
                     (List.filter (fun i => negb (bool_decide (i = id))) (pendingCommands c1))
                     c1)
              else c1
          | Some (Event channel data) => notify (RemoteEvent channel data) c1
          | _ => c1
          end
      end
  end.

Definition handleMessage (msg : inbound) (c : RelayClient) : RelayClient :=
  match msg with
  | Pong | OtherFrame => c
  | DeviceList serverDesktops =>
      set_desktops
        ((fun d =>
            mkDesktop (di_desktopId d) (di_deviceName d)
              (existsb (fun s => s.2 && bool_decide (s.1.1 = di_desktopId d)) serverDesktops))
           <$> desktops c) c
  | PairingAccepted msgDesktopId desktopDeviceName =>
      match pendingSession c with
      | Some (pendingDesktopId, session) =>
          let desktopId :=
            if bool_decide (msgDesktopId = "") then pendingDesktopId else msgDesktopId in
          if bool_decide (desktopId = "") then c
          else
            let marked := set_online desktopId true (desktops c) in
            let listed :=
              if existsb (fun d => bool_decide (di_desktopId d = desktopId)) marked
              then marked
              else marked ++ [mkDesktop desktopId (js_or desktopDeviceName (JStr "Desktop"))
                                true] in
            notify (PairingAcceptedNote desktopId)
              (set_desktops listed
                 (set_pairing (pairingKeyPair c) None
                    (set_sessions (<[desktopId := session]> (sessions c)) c)))
      | None => c
      end
  | PairingRevoked deviceId =>
      let c1 :=
        set_desktops
          (List.filter (fun d => negb (bool_decide (di_desktopId d = deviceId))) (desktops c))
          (set_sessions (delete deviceId (sessions c)) c) in
      if bool_decide (controllingDesktopId c1 = Some deviceId)
      then set_controlling None c1 else c1
  | RelayFrame from payload seq => handleEncryptedRelay from payload seq c
  | ControlAck from accepted =>
      notify (ControlAckNote accepted from)
        (if truthy accepted then set_controlling (Some from) c else c)
  | ControlRevoked from => notify (ControlRevokedNote from) (set_controlling None c)
  | DeviceOnline deviceId => set_desktops (set_online deviceId true (desktops c)) c
  | DeviceOffline deviceId =>
      let c1 := set_desktops (set_online deviceId false (desktops c)) c in
      if bool_decide (controllingDesktopId c1 = Some deviceId)
      then notify (DesktopDisconnected deviceId) (set_controlling None c1) else c1
  | ErrorFrame message => notify (ErrorNote message) c
  end.

End WithPrimitives.
End MobileClient.


(** ** The desktop as a whole: relay client, control state machine and
    command execution, wired by their listeners *)

Module DesktopApp.
Import Js Buffer E2EE.

Section WithPrimitives.
Context `{Primitives}.

(** [JSON.parse] of a decrypted plaintext, read as the fields
    [handleRemoteCommand] inspects; [JSON.stringify] of a response; the
    handler registry. *)
Variable json_parse : text -> option CommandProxy.command.
Variable text_of_string : string -> text.
Variable stringify_response : jsval -> jsval -> option CommandProxy.response_error -> text.
Variable handlerRegistry : string -> option CommandProxy.handler.

Abbreviation Client := (DesktopClient.RelayClient CommandProxy.command).

(** [invoked] logs the handler calls made on behalf of mobiles. *)
Record Desktop : Type := mkDesktop {
  client : Client;
  control : RemoteControl.RemoteControl;
  processToDevice : gmap string string;
  invoked : list (string * list jsval)
}.

(** A call of [RemoteControl] on [relayClient]. *)
Definition perform (c : Client) (e : RemoteControl.effect) : Client :=
  match e with
  | RemoteControl.SendControlAck device_id accepted =>
      (DesktopClient.sendControlAck _ device_id accepted c).2
  | RemoteControl.SendControlRevoked device_id =>
      (DesktopClient.sendControlRevoked _ device_id c).2
  | RemoteControl.StateChanged _ => c
  end.

(** [relayClient.sendResponse]: the response is stringified and sent
    encrypted; when [encrypt] throws nothing goes out. *)
Definition sendResponse (targetDeviceId : string) (id result : jsval)
    (error : option CommandProxy.response_error) (iv : bytes) (c : Client) : Client :=
  match DesktopClient.sendEncrypted _ targetDeviceId (stringify_response id result error) iv c
  with
  | Some (_, c') => c'
  | None => c
  end.

(** The effects of [handleRemoteCommand] on the desktop. *)
Definition carry_out (iv : bytes) (d : Desktop) (e : CommandProxy.effect) : Desktop :=
  match e with
  | CommandProxy.Invoked channel args =>
      mkDesktop (client d) (control d) (processToDevice d) (invoked d ++ [(channel, args)])
  | CommandProxy.SendResponse device_id id result error =>
      mkDesktop (sendResponse device_id id result error iv (client d)) (control d)
        (processToDevice d) (invoked d)
  | _ => d
  end.

Definition to_control (ev : RemoteControl.relay_event) (d : Desktop) : Desktop :=
  let '(rc, effects) :=
    RemoteControl.on_relay_event (DesktopClient.hasSession _ (client d)) ev (control d) in
  mkDesktop (fold_left perform effects (client d)) rc (processToDevice d) (invoked d).

(** The listeners registered on [relayClient] by [setupRelayListeners] and
    [registerRemoteIpcHandlers]; [iv] is the IV drawn if a response is
    encrypted. *)
Definition dispatch (iv : bytes) (d : Desktop)
    (e : DesktopClient.client_event CommandProxy.command) : Desktop :=
  match e with
  | DesktopClient.ControlRequested _ device_id device_name =>
      to_control (RemoteControl.ControlRequest device_id device_name) d
  | DesktopClient.Offline _ device_id => to_control (RemoteControl.DeviceOffline device_id) d
  | DesktopClient.Revoked _ device_id => to_control (RemoteControl.PairingRevoked device_id) d
  | DesktopClient.Message _ from parsed =>
      let '(tracked, effects) :=
        CommandProxy.handleRemoteCommand handlerRegistry from parsed (processToDevice d) in
      fold_left (carry_out iv)
        effects (mkDesktop (client d) (control d) tracked (invoked d))
  | _ => d
  end.

(** The [remote:unlock] handler: [remoteControl.tryUnlock(password)]. *)
Definition unlock (password : string) (d : Desktop) : bool * Desktop :=
  let '(ok, rc, effects) := RemoteControl.tryUnlock password (control d) in
  (ok, mkDesktop (fold_left perform effects (client d)) rc (processToDevice d) (invoked d)).

(** A frame arrives on the relay socket: the client handles it, and what it
    emits reaches the listeners. *)
Definition on_frame (msg : DesktopClient.inbound) (iv : bytes) (d : Desktop) : Desktop :=
  let c := DesktopClient.handleMessage _ json_parse text_of_string msg (client d) in
  fold_left (dispatch iv)
    (drop (length (DesktopClient.emitted _ (client d))) (DesktopClient.emitted _ c))
    (mkDesktop c (control d) (processToDevice d) (invoked d)).

End WithPrimitives.
End DesktopApp.


(** ** The two ends together *)

Module EndToEnd.

(** The mobile scans the QR code the desktop shows. *)
Definition scan (qr : DesktopClient.QRPayload) : MobileClient.QRPayload :=
  MobileClient.mkQR (DesktopClient.qr_s qr) (DesktopClient.qr_t qr) (DesktopClient.qr_p qr)
    (DesktopClient.qr_k qr) (DesktopClient.qr_d qr).

End EndToEnd.

(** A concrete desktop and mobile over the executable primitives: paired
    under the all-zero key, the desktop with remote control switched off. *)
Module ClientScenario.
Import Js E2EE.

Definition parse_command (plaintext : string) : option CommandProxy.command :=
  if bool_decide (plaintext = "send")
  then Some (CommandProxy.mkCommand (JStr "command") (JStr "cmd-1") (JStr "claude:send")
               (Some [JStr "hi"]))
  else None.

Definition stringify_response (id result : jsval)
    (error : option CommandProxy.response_error) : string := "response".

Definition registry (channel : string) : option CommandProxy.handler :=
  if bool_decide (channel = "claude:send")
  then Some (fun _ : list jsval => CommandProxy.Returned (JBool true))
  else None.

Definition desktop_client : DesktopClient.RelayClient (H := Toy.primitives)
                               CommandProxy.command :=
  DesktopClient.mkClient CommandProxy.command "D1"
    (Some (DesktopClient.mkConfig "https://relay" "token-U1" "Desk")) true true None None
    {["M" := Toy.desktop_session]} [DesktopClient.mkPaired "M" "Phone"] [] [].

Definition remote_control_off : RemoteControl.RemoteControl :=
  RemoteControl.updateSettings (RemoteControl.mkSettings None (Some false) None)
    RemoteControl.create.

Definition desktop : DesktopApp.Desktop (H := Toy.primitives) :=
  DesktopApp.mkDesktop desktop_client remote_control_off ∅ [].

Definition open_desktop : DesktopApp.Desktop (H := Toy.primitives) :=
  DesktopApp.mkDesktop desktop_client RemoteControl.create ∅ [].

Definition parse_downlink (plaintext : string) : option MobileClient.downlink :=
  if bool_decide (plaintext = "response")
  then Some (MobileClient.Response (JStr "cmd-1") (JBool true) JUndefined)
  else None.

Definition mobile_client : MobileClient.RelayClient (H := Toy.primitives) :=
  MobileClient.mkClient true true None None {["D1" := Toy.mobile_session]}
    [MobileClient.mkDesktop "D1" (JStr "Desk") true] None ["cmd-1"] [] [].

Definition idle_mobile : MobileClient.RelayClient (H := Toy.primitives) :=
  MobileClient.mkClient true true None None {["D1" := Toy.mobile_session]}
    [MobileClient.mkDesktop "D1" (JStr "Desk") true] None [] [] [].

Definition stringify_command (id channel : string) (args : list jsval) : string := "send".

Definition unpaired_mobile : MobileClient.RelayClient (H := Toy.primitives) :=
  MobileClient.mkClient true true None None ∅ [] None [] [] [].

Definition unpaired_desktop : DesktopClient.RelayClient (H := Toy.primitives)
                                 CommandProxy.command :=
  DesktopClient.mkClient CommandProxy.command "D1"
    (Some (DesktopClient.mkConfig "https://relay" "token-U1" "Desk")) true true None None
    ∅ [] [] [].

End ClientScenario.

(** * Properties of the JavaScript values *)

Module JsFacts.
Import Js.

Lemma truthy_str s : truthy (JStr s) = true <-> s <> "".
Proof.
  simpl. rewrite negb_true_iff, bool_decide_eq_false. reflexivity.
Qed.

Lemma strict_eq_str a b : strict_eq (JStr a) (JStr b) = bool_decide (a = b).
Proof.
  simpl. apply bool_decide_ext. split; congruence.
Qed.


(** Integers up to [2^53] in magnitude are doubles. *)
Lemma to_double_exact z : - 2 ^ 53 <= z <= 2 ^ 53 -> to_double z = z.
Proof.
  intros Hz. unfold to_double.
  destruct (Z.abs z <=? 2 ^ 53) eqn:Ha; [done|]. apply Z.leb_gt in Ha. lia.
Qed.

(** Up to [2^53], [n++] stores [n + 1]. *)
Lemma increment_exact n : - 2 ^ 53 - 1 <= n < 2 ^ 53 -> increment n = n + 1.
Proof. intros Hn. unfold increment. apply to_double_exact. lia. Qed.

(** At [2^53] the successor is no double and rounds back: [n++] stores [n]. *)
Lemma increment_stuck : increment (2 ^ 53) = 2 ^ 53.
Proof. reflexivity. Qed.

(** Beyond [2^53] the doubles are two apart and a successor rounds to the
    even significand, down or up. *)
Lemma increment_beyond :
  increment (2 ^ 53 + 2) = 2 ^ 53 + 4 /\ increment (2 ^ 53 + 4) = 2 ^ 53 + 4 /\
  increment (- 2 ^ 53 - 2) = - 2 ^ 53 /\ increment (2 ^ 54) = 2 ^ 54.
Proof. by vm_compute. Qed.

End JsFacts.

(** * Properties of the buffer encodings *)

Module BufferFacts.
Import Buffer.

Lemma byte_of_to_N b : byte_of_N (Byte.to_N b) = b.
Proof.
  unfold byte_of_N. pose proof (Byte.to_N_bounded b).
  rewrite N.mod_small by lia. by rewrite Byte.of_to_N.
Qed.

Lemma subarray_range (b : bytes) (s e : Z) :
  0 <= s <= e -> e <= Z.of_nat (length b) ->
  subarray b s e = take (Z.to_nat (e - s)) (drop (Z.to_nat s) b).
Proof.
  intros Hs He. unfold subarray, clamp_index.
  destruct (s <? 0) eqn:H1; [apply Z.ltb_lt in H1; lia|].
  destruct (e <? 0) eqn:H2; [apply Z.ltb_lt in H2; lia|].
  by rewrite !Z.min_l by lia.
Qed.

Lemma subarray_prefix (a b : bytes) :
  subarray (a ++ b) 0 (Z.of_nat (length a)) = a.
Proof.
  rewrite subarray_range by (rewrite ?length_app; lia).
  simpl. rewrite Z.sub_0_r, Nat2Z.id. apply take_app_length.
Qed.

Lemma subarray_suffix (a b : bytes) :
  subarray_from (a ++ b) (Z.of_nat (length a)) = b.
Proof.
  unfold subarray_from. rewrite subarray_range by (rewrite ?length_app; lia).
  rewrite Nat2Z.id, drop_app_length. apply take_ge. rewrite length_app. lia.
Qed.

Lemma subarray_middle (a b c : bytes) :
  subarray (a ++ b ++ c) (Z.of_nat (length a)) (Z.of_nat (length a + length b)) = b.
Proof.
  rewrite subarray_range by (rewrite ?length_app; lia).
  rewrite Nat2Z.id, drop_app_length.
  replace (Z.to_nat _) with (length b) by lia. apply take_app_length.
Qed.

Lemma subarray_drop_tail (a t : bytes) :
  (0 < length t)%nat ->
  subarray (a ++ t) 0 (- Z.of_nat (length t)) = a.
Proof.
  intros Ht. unfold subarray, clamp_index. simpl.
  destruct (- Z.of_nat (length t) <? 0) eqn:H; [|apply Z.ltb_ge in H; lia].
  rewrite length_app. rewrite Z.max_l, Z.min_l by lia. simpl.
  replace (Z.to_nat _) with (length a) by lia. apply take_app_length.
Qed.

Lemma subarray_tail (a t : bytes) :
  (0 < length t)%nat ->
  subarray_from (a ++ t) (- Z.of_nat (length t)) = t.
Proof.
  intros Ht. unfold subarray_from, subarray, clamp_index.
  destruct (- Z.of_nat (length t) <? 0) eqn:H; [|apply Z.ltb_ge in H; lia].
  destruct (Z.of_nat (length (a ++ t)) <? 0) eqn:H'; [apply Z.ltb_lt in H'; lia|].
  rewrite length_app. rewrite Z.max_l, Z.min_l by lia.
  replace (Z.to_nat (Z.of_nat (length a + length t) + - Z.of_nat (length t)))
    with (length a) by lia.
  rewrite drop_app_length. apply take_ge. lia.
Qed.

Example to_base64_hello :
  to_base64 (String.list_byte_of_string "hello") = "aGVsbG8=".
Proof. reflexivity. Qed.

Example to_base64_high_bytes : to_base64 [xff; xfe; xfd] = "//79".
Proof. reflexivity. Qed.

Example from_hex_stops_at_bad_pair : from_hex "04AB0fzz12" = [x04; xab; x0f].
Proof. reflexivity. Qed.

Example hexToBytes_parseInt_prefix :
  E2EE.Mobile.hexToBytes "1g-1zz0a" = [x01; xff; x00; x0a].
Proof. reflexivity. Qed.

(** Hexadecimal round trip through Node's decoder. *)
Lemma from_to_hex b : from_hex (to_hex b) = b.
Proof.
  induction b as [|x b IH]; [done|].
  simpl. rewrite IH. by destruct x.
Qed.

(** Base64 round trip through the strict decoder. *)

Lemma sextet_cases (P : N -> Prop) :
  Forall P sextets -> forall n, (n < 64)%N -> P n.
Proof.
  intros HF n Hn. rewrite Forall_forall in HF. apply HF.
  unfold sextets. apply list_elem_of_fmap. exists (N.to_nat n). split; [lia|].
  apply elem_of_seq. lia.
Qed.

Lemma char_sextet_char n : (n < 64)%N -> char_sextet (sextet_char n) = Some n.
Proof.
  revert n. apply sextet_cases. unfold sextets. simpl.
  repeat (apply Forall_cons; split; [reflexivity|]). apply Forall_nil_2.
Qed.

Lemma sextet_char_not_pad n : (n < 64)%N -> sextet_char n <> "="%char.
Proof.
  revert n. apply sextet_cases. unfold sextets. simpl.
  repeat (apply Forall_cons; split; [discriminate|]). apply Forall_nil_2.
Qed.

Ltac n_arith := zify; Z.to_euclidean_division_equations; lia.

Lemma byte_of_N_small n b : (n mod 256)%N = Byte.to_N b -> byte_of_N n = b.
Proof.
  intros Hn. unfold byte_of_N. rewrite Hn. by rewrite Byte.of_to_N.
Qed.

Lemma list_ind3 {A} (P : list A -> Prop) :
  P [] -> (forall x, P [x]) -> (forall x y, P [x; y]) ->
  (forall x y z l, P l -> P (x :: y :: z :: l)) ->
  forall l, P l.
Proof.
  intros H0 H1 H2 H3. fix IH 1. intros [|x [|y [|z l]]].
  - exact H0.
  - apply H1.
  - apply H2.
  - apply H3, IH.
Qed.

Lemma strict_from_to_base64 b : strict_from_base64 (to_base64 b) = Some b.
Proof.
  induction b as [|x|x y|x y z rest IH] using list_ind3; [done|..].
  - pose proof (Byte.to_N_bounded x) as Hx.
    cbn [to_base64 strict_from_base64].
    rewrite !char_sextet_char by n_arith. simpl.
    f_equal. f_equal. apply byte_of_N_small. n_arith.
  - pose proof (Byte.to_N_bounded x) as Hx. pose proof (Byte.to_N_bounded y) as Hy.
    cbn [to_base64 strict_from_base64].
    rewrite !char_sextet_char by n_arith.
    rewrite (bool_decide_false (sextet_char _ = "="%char))
      by (apply sextet_char_not_pad; n_arith).
    simpl. f_equal. f_equal; [|f_equal]; apply byte_of_N_small; n_arith.
  - pose proof (Byte.to_N_bounded x) as Hx. pose proof (Byte.to_N_bounded y) as Hy.
    pose proof (Byte.to_N_bounded z) as Hz.
    cbn [to_base64 strict_from_base64].
    rewrite !char_sextet_char by n_arith.
    rewrite !(bool_decide_false (sextet_char _ = "="%char))
      by (apply sextet_char_not_pad; n_arith).
    rewrite IH.
    f_equal. f_equal; [|f_equal; [|f_equal]]; apply byte_of_N_small; n_arith.
Qed.

End BufferFacts.

(** * Properties of the E2EE envelope *)

Module E2EEFacts.
Import Buffer BufferFacts E2EE.

(** *** The executable model satisfies the laws *)

Lemma toy_parse_uncompressed (a : N) :
  Toy.parse (x04 :: (replicate 31 x00 ++ [byte_of_N (Toy.mul a 1)]) ++ replicate 32 x00)
  = Some (Toy.mul a 1).
Proof.
  unfold Toy.parse. rewrite bool_decide_true by done.
  change ((replicate 31 x00 ++ [byte_of_N (Toy.mul a 1)]) ++ replicate 32 x00)
    with (replicate 31 x00 ++ byte_of_N (Toy.mul a 1) :: replicate 32 x00).
  rewrite (lookup_app_r (replicate 31 x00)) by (rewrite length_replicate; lia).
  rewrite length_replicate. simpl. f_equal.
  assert (Hlt : (Toy.mul a 1 < 251)%N) by (unfold Toy.mul; apply N.mod_lt; lia).
  destruct (Byte.of_N (Toy.mul a 1)) as [b|] eqn:Hb.
  - apply Byte.to_of_N in Hb. rewrite <- Hb. by rewrite byte_of_to_N.
  - pose proof (Byte.to_of_N_option_map (Toy.mul a 1)) as Hm.
    rewrite Hb in Hm. simpl in Hm.
    destruct (Toy.mul a 1 <=? 255)%N eqn:Hle; [done|]. apply N.leb_gt in Hle. lia.
Qed.

#[export] Instance toy_ok : @PrimitivesOk Toy.primitives.
Proof.
  split.
  - intros key iv pt _ _. simpl. unfold Toy.open, Toy.seal. simpl.
    rewrite bool_decide_true by done. by rewrite rev_involutive.
  - intros key iv pt. reflexivity.
  - intros key data. simpl. unfold Toy.mac. rewrite length_take, !length_app, length_replicate.
    lia.
  - intros b. simpl. by rewrite strict_from_to_base64.
  - intros b. simpl. by rewrite strict_from_to_base64.
  - intros a b. simpl. unfold Toy.mul. rewrite !N.mul_1_r.
    rewrite !N.Div0.mul_mod_idemp_r. f_equal. lia.
  - intros P. reflexivity.
  - intros a. apply toy_parse_uncompressed.
Qed.

(** *** [decrypt]: replay check, counter, verification *)

(** C1, as stated, fails: a frame with a fresh sequence number and a wrong
    tag is rejected with [AuthFailed], and the inbound counter has moved to
    the frame's sequence number all the same. *)
Lemma counter_moves_before_verification : ~ inbound_counter_moves_on_success_only.
Proof.
  intros Hclaim.
  specialize (Hclaim Toy.primitives Toy.desktop_session Toy.forged_payload 0).
  vm_compute in Hclaim. discriminate Hclaim.
Qed.

Section Decrypt.
Context `{Primitives}.

Lemma desktop_split (iv body tag : bytes) :
  length iv = 12%nat -> length tag = 16%nat ->
  let combined := iv ++ body ++ tag in
  let len := Z.of_nat (length combined) in
  subarray combined 0 Desktop.IV_LENGTH = iv /\
  subarray_from combined (len - Desktop.TAG_LENGTH) = tag /\
  subarray combined Desktop.IV_LENGTH (len - Desktop.TAG_LENGTH) = body.
Proof.
  intros Hiv Htag combined len. subst combined len.
  unfold Desktop.IV_LENGTH, Desktop.TAG_LENGTH.
  rewrite !length_app, Hiv, Htag.
  replace 12 with (Z.of_nat (length iv)) by lia.
  replace (Z.of_nat (12 + (length body + 16)) - 16)
    with (Z.of_nat (length iv + length body)) by lia.
  split; [apply subarray_prefix|]. split; [|apply subarray_middle].
  rewrite app_assoc. rewrite <- length_app. apply subarray_suffix.
Qed.

Lemma mobile_split (iv body tag : bytes) :
  length iv = 12%nat -> length tag = 16%nat ->
  let combined := iv ++ body ++ tag in
  subarray combined 0 12 = iv /\
  subarray (subarray_from combined 12) 0 (-16) = body /\
  subarray_from (subarray_from combined 12) (-16) = tag.
Proof.
  intros Hiv Htag combined. subst combined.
  replace 12 with (Z.of_nat (length iv)) by lia.
  replace (-16) with (- Z.of_nat (length tag)) by lia.
  rewrite subarray_suffix.
  split; [apply subarray_prefix|].
  split; [apply subarray_drop_tail | apply subarray_tail]; lia.
Qed.

Lemma desktop_decrypt_replay (s : Desktop.E2EESession) payload seq :
  seq <= Desktop.peerSeq s -> Desktop.decrypt s payload seq = (Err ReplayRejected, s).
Proof.
  intros Hle. unfold Desktop.decrypt. apply Z.leb_le in Hle. by rewrite Hle.
Qed.

Lemma desktop_decrypt_fresh (s : Desktop.E2EESession) payload seq :
  Desktop.peerSeq s < seq ->
  exists r, Desktop.decrypt s payload seq = (r, Desktop.set_peerSeq seq s) /\
            r <> Err ReplayRejected.
Proof.
  intros Hlt. unfold Desktop.decrypt. apply Z.leb_gt in Hlt. rewrite Hlt. cbv zeta.
  destruct (Desktop.decipher _ _ _ _); eexists; (split; [reflexivity | discriminate]).
Qed.

Lemma desktop_decrypt_split (s : Desktop.E2EESession) payload seq iv body tag :
  Desktop.peerSeq s < seq ->
  buffer_from_base64 payload = iv ++ body ++ tag ->
  length iv = 12%nat -> length tag = 16%nat ->
  length (Desktop.derivedKey s) = 32%nat ->
  Desktop.decrypt s payload seq
  = (match aes_gcm_open (Desktop.derivedKey s) iv body tag with
     | Some pt => Ok (utf8_decode pt)
     | None => Err AuthFailed
     end, Desktop.set_peerSeq seq s).
Proof.
  intros Hlt Hdec Hiv Htag Hkey. unfold Desktop.decrypt.
  apply Z.leb_gt in Hlt. rewrite Hlt, Hdec. cbv zeta.
  destruct (desktop_split iv body tag Hiv Htag) as (-> & -> & ->).
  unfold Desktop.decipher.
  change (Desktop.derivedKey (Desktop.set_peerSeq seq s)) with (Desktop.derivedKey s).
  rewrite !bool_decide_true by done. simpl.
  by destruct (aes_gcm_open _ _ _ _).
Qed.

Lemma mobile_decrypt_replay (s : Mobile.E2EESession) payload seq :
  seq <= Mobile.peerSeq s -> Mobile.decrypt s payload seq = (Err ReplayRejected, s).
Proof.
  intros Hle. unfold Mobile.decrypt. apply Z.leb_le in Hle. by rewrite Hle.
Qed.

Lemma mobile_decrypt_fresh (s : Mobile.E2EESession) payload seq :
  Mobile.peerSeq s < seq ->
  exists r, Mobile.decrypt s payload seq = (r, Mobile.set_peerSeq seq s) /\
            r <> Err ReplayRejected.
Proof.
  intros Hlt. unfold Mobile.decrypt. apply Z.leb_gt in Hlt. rewrite Hlt. cbv zeta.
  destruct (Mobile.base64ToUint8 payload);
    [destruct (Mobile.gcm_decrypt _ _ _)|]; eexists; (split; [reflexivity | discriminate]).
Qed.

Lemma mobile_decrypt_split (s : Mobile.E2EESession) payload seq iv body tag :
  Mobile.peerSeq s < seq ->
  Mobile.base64ToUint8 payload = Some (iv ++ body ++ tag) ->
  length iv = 12%nat -> length tag = 16%nat ->
  length (Mobile.derivedKey s) = 32%nat ->
  Mobile.decrypt s payload seq
  = (match aes_gcm_open (Mobile.derivedKey s) iv body tag with
     | Some pt => Ok (utf8_decode pt)
     | None => Err AuthFailed
     end, Mobile.set_peerSeq seq s).
Proof.
  intros Hlt Hdec Hiv Htag Hkey. unfold Mobile.decrypt.
  apply Z.leb_gt in Hlt. rewrite Hlt, Hdec. cbv zeta.
  destruct (mobile_split iv body tag Hiv Htag) as (Hi & Hb & Ht).
  assert (Hlen : (16 <=? length (subarray_from (iv ++ body ++ tag) 12))%nat = true).
  { apply Nat.leb_le. replace 12 with (Z.of_nat (length iv)) by lia.
    rewrite subarray_suffix, length_app. lia. }
  unfold Mobile.gcm_decrypt.
  change (Mobile.derivedKey (Mobile.set_peerSeq seq s)) with (Mobile.derivedKey s).
  rewrite Hi, Hb, Ht, Hkey, Hlen.
  rewrite bool_decide_true by (repeat constructor).
  simpl. by destruct (aes_gcm_open _ _ _ _).
Qed.

(** C1, amended: [decrypt] fails with [ReplayRejected], leaving the session
    as it is, exactly when [seq <= lastInboundSeq].  Otherwise it first sets
    [lastInboundSeq] to [seq], and then decodes, splits and verifies: for a
    32-byte key and a payload that decodes to IV(12), body and tag(16), the
    result is the plaintext when GCM verifies and [AuthFailed] when it does
    not; in both cases the session returned has [lastInboundSeq = seq].
    Desktop and mobile agree. *)
Theorem decrypt_checks_replay_then_moves_counter :
  (forall (s : Desktop.E2EESession) (payload : string) (seq : Z),
     let r := Desktop.decrypt s payload seq in
     (r.1 = Err ReplayRejected <-> seq <= Desktop.peerSeq s) /\
     (seq <= Desktop.peerSeq s -> r.2 = s) /\
     (Desktop.peerSeq s < seq ->
      r.2 = Desktop.set_peerSeq seq s /\
      forall iv body tag,
        buffer_from_base64 payload = iv ++ body ++ tag ->
        length iv = 12%nat -> length tag = 16%nat ->
        length (Desktop.derivedKey s) = 32%nat ->
        r.1 = match aes_gcm_open (Desktop.derivedKey s) iv body tag with
              | Some pt => Ok (utf8_decode pt)
              | None => Err AuthFailed
              end)) /\
  (forall (s : Mobile.E2EESession) (payload : string) (seq : Z),
     let r := Mobile.decrypt s payload seq in
     (r.1 = Err ReplayRejected <-> seq <= Mobile.peerSeq s) /\
     (seq <= Mobile.peerSeq s -> r.2 = s) /\
     (Mobile.peerSeq s < seq ->
      r.2 = Mobile.set_peerSeq seq s /\
      forall iv body tag,
        Mobile.base64ToUint8 payload = Some (iv ++ body ++ tag) ->
        length iv = 12%nat -> length tag = 16%nat ->
        length (Mobile.derivedKey s) = 32%nat ->
        r.1 = match aes_gcm_open (Mobile.derivedKey s) iv body tag with
              | Some pt => Ok (utf8_decode pt)
              | None => Err AuthFailed
              end)).
Proof.
  split.
  - intros s payload seq r. subst r.
    destruct (Z_le_gt_dec seq (Desktop.peerSeq s)) as [Hle | Hgt].
    + rewrite desktop_decrypt_replay by done. simpl.
      split; [done|]. split; [done|]. lia.
    + destruct (desktop_decrypt_fresh s payload seq) as (r & Hr & Hne); [lia|].
      split; [|split; [lia|]].
      * rewrite Hr. simpl. split; [done | lia].
      * intros _. split; [by rewrite Hr|].
        intros iv body tag Hdec Hiv Htag Hkey.
        by rewrite (desktop_decrypt_split s payload seq iv body tag) by (done || lia).
  - intros s payload seq r. subst r.
    destruct (Z_le_gt_dec seq (Mobile.peerSeq s)) as [Hle | Hgt].
    + rewrite mobile_decrypt_replay by done. simpl.
      split; [done|]. split; [done|]. lia.
    + destruct (mobile_decrypt_fresh s payload seq) as (r & Hr & Hne); [lia|].
      split; [|split; [lia|]].
      * rewrite Hr. simpl. split; [done | lia].
      * intros _. split; [by rewrite Hr|].
        intros iv body tag Hdec Hiv Htag Hkey.
        by rewrite (mobile_decrypt_split s payload seq iv body tag) by (done || lia).
Qed.

End Decrypt.

(** *** Round trip *)

Section RoundTrip.
Context `{PrimitivesOk}.

Lemma uint8ToBase64_to_base64 (b : bytes) : Mobile.uint8ToBase64 b = to_base64 b.
Proof.
  unfold Mobile.uint8ToBase64, Mobile.btoa.
  by rewrite String.list_byte_of_string_of_list_byte.
Qed.

Lemma base64ToUint8_to_base64 (b : bytes) : Mobile.base64ToUint8 (to_base64 b) = Some b.
Proof.
  unfold Mobile.base64ToUint8. rewrite atob_to_base64. simpl.
  by rewrite String.list_byte_of_string_of_list_byte.
Qed.

Lemma desktop_encrypt_sealed (s : Desktop.E2EESession) (m : text) (iv : bytes) :
  length (Desktop.derivedKey s) = 32%nat ->
  Desktop.encrypt s m iv
  = Some (to_base64 (sealed (Desktop.derivedKey s) iv (utf8_encode m)),
          Desktop.seq s, Desktop.set_seq (Js.increment (Desktop.seq s)) s).
Proof.
  intros Hkey. unfold Desktop.encrypt, Desktop.cipher, sealed.
  rewrite bool_decide_true by done. simpl.
  by destruct (aes_gcm_seal _ _ _).
Qed.

Lemma mobile_encrypt_sealed (s : Mobile.E2EESession) (m : text) (iv : bytes) :
  length (Mobile.derivedKey s) = 32%nat ->
  Mobile.encrypt s m iv
  = Some (to_base64 (sealed (Mobile.derivedKey s) iv (utf8_encode m)),
          Mobile.seq s, Mobile.set_seq (Js.increment (Mobile.seq s)) s).
Proof.
  intros Hkey. unfold Mobile.encrypt, Mobile.gcm_encrypt, sealed.
  rewrite Hkey. rewrite bool_decide_true by (repeat constructor).
  destruct (aes_gcm_seal _ _ _) as [ct tag]. simpl.
  by rewrite uint8ToBase64_to_base64.
Qed.

Lemma desktop_decrypt_sealed (s : Desktop.E2EESession) (iv pt : bytes) (seq : Z) :
  length (Desktop.derivedKey s) = 32%nat -> length iv = 12%nat ->
  Desktop.peerSeq s < seq ->
  Desktop.decrypt s (to_base64 (sealed (Desktop.derivedKey s) iv pt)) seq
  = (Ok (utf8_decode pt), Desktop.set_peerSeq seq s).
Proof.
  intros Hkey Hiv Hlt.
  rewrite (desktop_decrypt_split s _ seq iv
             (aes_gcm_seal (Desktop.derivedKey s) iv pt).1
             (aes_gcm_seal (Desktop.derivedKey s) iv pt).2); try done.
  - by rewrite gcm_open_seal.
  - apply buffer_from_to_base64.
  - apply gcm_tag_length.
Qed.

Lemma mobile_decrypt_sealed (s : Mobile.E2EESession) (iv pt : bytes) (seq : Z) :
  length (Mobile.derivedKey s) = 32%nat -> length iv = 12%nat ->
  Mobile.peerSeq s < seq ->
  Mobile.decrypt s (to_base64 (sealed (Mobile.derivedKey s) iv pt)) seq
  = (Ok (utf8_decode pt), Mobile.set_peerSeq seq s).
Proof.
  intros Hkey Hiv Hlt.
  rewrite (mobile_decrypt_split s _ seq iv
             (aes_gcm_seal (Mobile.derivedKey s) iv pt).1
             (aes_gcm_seal (Mobile.derivedKey s) iv pt).2); try done.
  - by rewrite gcm_open_seal.
  - apply base64ToUint8_to_base64.
  - apply gcm_tag_length.
Qed.

(** C4, amended: for a 32-byte key and a 12-byte IV, desktop and mobile
    [encrypt] build the same payload for a plaintext [m] and emit the
    sender's current outbound counter; the session keeps its key and its
    inbound counter, and its outbound counter becomes the successor as a
    double: one more below [2^53], and unchanged at [2^53].  Desktop and
    mobile [decrypt], holding the same key and an inbound counter below the
    frame's sequence number, take that sequence number, keep the rest of the
    session and return the string that UTF-8 decoding makes of the UTF-8
    encoding of [m]: that is [m] exactly when [m] survives the conversion.
    A freshly derived session starts at [seq = 0], [peerSeq = -1]. *)
Theorem envelope_round_trip (key iv : bytes) (m : text) :
  length key = 32%nat ->
  length iv = 12%nat ->
  (exists payload : string,
     (forall s : Desktop.E2EESession,
        Desktop.derivedKey s = key ->
        exists s' : Desktop.E2EESession,
          Desktop.encrypt s m iv = Some (payload, Desktop.seq s, s') /\
          Desktop.seq s' = Js.increment (Desktop.seq s) /\
          (0 <= Desktop.seq s < 2 ^ 53 -> Desktop.seq s' = Desktop.seq s + 1) /\
          (Desktop.seq s = 2 ^ 53 -> Desktop.seq s' = 2 ^ 53) /\
          Desktop.peerSeq s' = Desktop.peerSeq s /\
          Desktop.derivedKey s' = key /\
          Desktop.sharedSecret s' = Desktop.sharedSecret s) /\
     (forall s : Mobile.E2EESession,
        Mobile.derivedKey s = key ->
        exists s' : Mobile.E2EESession,
          Mobile.encrypt s m iv = Some (payload, Mobile.seq s, s') /\
          Mobile.seq s' = Js.increment (Mobile.seq s) /\
          (0 <= Mobile.seq s < 2 ^ 53 -> Mobile.seq s' = Mobile.seq s + 1) /\
          (Mobile.seq s = 2 ^ 53 -> Mobile.seq s' = 2 ^ 53) /\
          Mobile.peerSeq s' = Mobile.peerSeq s /\
          Mobile.derivedKey s' = key) /\
     (forall (peer : Desktop.E2EESession) (seq : Z),
        Desktop.derivedKey peer = key -> Desktop.peerSeq peer < seq ->
        exists peer' : Desktop.E2EESession,
          Desktop.decrypt peer payload seq
          = (Ok (utf8_decode (utf8_encode m)), peer') /\
          ((Desktop.decrypt peer payload seq).1 = Ok m
           <-> utf8_decode (utf8_encode m) = m) /\
          Desktop.peerSeq peer' = seq /\
          Desktop.seq peer' = Desktop.seq peer /\
          Desktop.derivedKey peer' = key /\
          Desktop.sharedSecret peer' = Desktop.sharedSecret peer) /\
     (forall (peer : Mobile.E2EESession) (seq : Z),
        Mobile.derivedKey peer = key -> Mobile.peerSeq peer < seq ->
        exists peer' : Mobile.E2EESession,
          Mobile.decrypt peer payload seq
          = (Ok (utf8_decode (utf8_encode m)), peer') /\
          ((Mobile.decrypt peer payload seq).1 = Ok m
           <-> utf8_decode (utf8_encode m) = m) /\
          Mobile.peerSeq peer' = seq /\
          Mobile.seq peer' = Mobile.seq peer /\
          Mobile.derivedKey peer' = key)) /\
  (forall d hex code s,
     Desktop.deriveSession d hex code = Some s ->
     Desktop.seq s = 0 /\ Desktop.peerSeq s = -1) /\
  (forall d hex code s,
     Mobile.deriveSession d hex code = Some s ->
     Mobile.seq s = 0 /\ Mobile.peerSeq s = -1).
Proof.
  intros Hkey Hiv. split; [|split].
  - exists (to_base64 (sealed key iv (utf8_encode m))). repeat apply conj.
    + intros s <-. eexists. split; [by apply desktop_encrypt_sealed|].
      cbn [Desktop.set_seq Desktop.seq Desktop.peerSeq Desktop.derivedKey
           Desktop.sharedSecret].
      split; [done|]. split; [intros Hs; apply JsFacts.increment_exact; lia|].
      split; [by intros ->|]. done.
    + intros s <-. eexists. split; [by apply mobile_encrypt_sealed|].
      cbn [Mobile.set_seq Mobile.seq Mobile.peerSeq Mobile.derivedKey].
      split; [done|]. split; [intros Hs; apply JsFacts.increment_exact; lia|].
      split; [by intros ->|]. done.
    + intros peer seq <- Hlt. eexists.
      rewrite desktop_decrypt_sealed by done. split; [done|].
      split; [simpl; split; [by intros [= ->] | by intros ->]|]. done.
    + intros peer seq <- Hlt. eexists.
      rewrite mobile_decrypt_sealed by done. split; [done|].
      split; [simpl; split; [by intros [= ->] | by intros ->]|]. done.
  - intros d hex code s Hs. unfold Desktop.deriveSession in Hs.
    by simplify_option_eq.
  - intros d hex code s Hs. unfold Mobile.deriveSession in Hs.
    by simplify_option_eq.
Qed.

(** C4, as stated, fails: a session whose outbound counter has reached
    [2^53] emits that number and keeps it, since its successor is no
    double; the next frame carries the same number again. *)
Lemma outbound_counter_stops_at_2_53 : ~ every_plaintext_round_trips_and_counter_steps.
Proof.
  intros Hclaim.
  destruct (Hclaim Toy.primitives toy_ok Toy.worn_session Toy.mobile_session
              Toy.hello Toy.zero_iv eq_refl eq_refl eq_refl)
    as [(payload & sd' & Henc & Hseq & _) _]; [done | done |].
  vm_compute in Henc. injection Henc as _ <-.
  vm_compute in Hseq. discriminate Hseq.
Qed.

End RoundTrip.

(** *** Key agreement *)

Lemma bytesToHex_to_hex (b : bytes) : Mobile.bytesToHex b = to_hex b.
Proof.
  induction b as [|x b IH]; [done|].
  unfold Mobile.bytesToHex in *. simpl. rewrite IH. by destruct x.
Qed.

Lemma hexToBytes_to_hex (b : bytes) : Mobile.hexToBytes (to_hex b) = b.
Proof.
  induction b as [|x b IH]; [done|].
  cbn [to_hex Mobile.hexToBytes]. rewrite IH. f_equal. by destruct x.
Qed.

Section KeyAgreement.
Context `{PrimitivesOk}.

Lemma hkdfSha256_32 (ikm salt info : bytes) :
  Desktop.hkdfSha256 ikm salt info 32 = first_block ikm salt info.
Proof.
  unfold Desktop.hkdfSha256, first_block.
  change (blocks 32) with 1%nat. cbn [Desktop.hkdf_loop Nat.add Nat.mul app].
  change (byte_of_N (N.of_nat 1)) with x01.
  set (t := hmac_sha256 _ _).
  assert (Ht : length t = 32%nat) by apply hmac_length.
  unfold copy_into. rewrite Ht. simpl.
  rewrite (take_ge t) by lia. rewrite app_nil_r.
  rewrite subarray_range by (rewrite ?Ht; lia).
  simpl. apply take_ge. lia.
Qed.

Lemma hkdf_32 (ikm salt info : bytes) :
  Mobile.hkdf ikm salt info 32 = Some (first_block ikm salt info).
Proof.
  unfold Mobile.hkdf, first_block. simpl.
  change (blocks 32) with 1%nat. cbn [Mobile.hkdf_blocks app].
  change (byte_of_N (N.of_nat 1)) with x01.
  rewrite app_nil_r. f_equal. apply take_ge. rewrite hmac_length. lia.
Qed.

(** The desktop's buffer-filling loop computes the blocks of RFC 5869. *)
Lemma hkdf_loop_blocks (steps i : nat) (prk info prev filled : bytes) :
  length filled = (i * 32)%nat ->
  Desktop.hkdf_loop steps i prk info prev (filled ++ alloc (steps * 32))
  = filled ++ Mobile.hkdf_blocks steps (S i) prk info prev.
Proof.
  revert i prev filled. induction steps as [|k IH]; intros i prev filled Hlen.
  - done.
  - cbn [Desktop.hkdf_loop Mobile.hkdf_blocks]. rewrite Nat.add_1_r.
    set (t := hmac_sha256 prk (prev ++ info ++ [byte_of_N (N.of_nat (S i))])).
    assert (Ht : length t = 32%nat) by apply hmac_length.
    assert (Hcopy : copy_into t (filled ++ alloc (S k * 32)) (i * 32)
                    = (filled ++ t) ++ alloc (k * 32)).
    { unfold copy_into, alloc. rewrite <- Hlen at 1. rewrite take_app_length.
      rewrite length_app, length_replicate, Hlen, Ht.
      rewrite take_ge by lia.
      replace (i * 32 + 32)%nat with (length filled + 32)%nat by lia.
      rewrite drop_app_add', drop_replicate by done.
      rewrite <- app_assoc. do 3 f_equal. lia. }
    rewrite Hcopy, IH by (rewrite length_app; lia).
    by rewrite <- app_assoc.
Qed.

Lemma length_hkdf_blocks (n counter : nat) (prk info prev : bytes) :
  length (Mobile.hkdf_blocks n counter prk info prev) = (n * 32)%nat.
Proof.
  revert counter prev. induction n as [|n IH]; intros counter prev; [done|].
  cbn [Mobile.hkdf_blocks]. rewrite length_app, hmac_length, IH. lia.
Qed.

(** Within the output bound of RFC 5869, the desktop's [hkdfSha256] and the
    mobile's [hkdf] are the same function. *)
Lemma hkdfSha256_hkdf (ikm salt info : bytes) (len : nat) :
  (len <= 255 * 32)%nat ->
  Mobile.hkdf ikm salt info len = Some (Desktop.hkdfSha256 ikm salt info len).
Proof.
  intros Hlen. unfold Mobile.hkdf, Desktop.hkdfSha256.
  destruct (255 * 32 <? len)%nat eqn:Hgt; [apply Nat.ltb_lt in Hgt; lia|].
  f_equal.
  rewrite (hkdf_loop_blocks (blocks len) 0 _ info [] []) by done.
  simpl app.
  assert (Hblocks : (len <= blocks len * 32)%nat).
  { unfold blocks. pose proof (Nat.div_mod_eq (len + 31) 32).
    pose proof (Nat.mod_upper_bound (len + 31) 32). lia. }
  rewrite subarray_range by (rewrite ?length_hkdf_blocks; lia).
  rewrite Z.sub_0_r, Nat2Z.id. done.
Qed.

Lemma shared_x (P : point) : subarray (compressed P) 1 33 = x_coordinate P.
Proof.
  unfold compressed.
  rewrite subarray_range by (simpl; rewrite ?x_coordinate_length; lia).
  simpl. apply take_ge. rewrite x_coordinate_length. lia.
Qed.

(** C5: for a desktop key pair and a mobile key pair, each side deriving the
    session from its own private key, the other side's public key in the hex
    form that side publishes, and the same pairing code, both derivations
    succeed and yield the same 32-byte key: Node's X coordinate and the X
    coordinate sliced out of the point that [getSharedSecret] returns, fed to
    the same HKDF-SHA256 with the pairing code as salt. *)
Theorem derived_keys_agree (d m : scalar) (pairingCode : text) :
  exists (sd : Desktop.E2EESession) (sm : Mobile.E2EESession),
    Desktop.deriveSession (Desktop.ecdh (Desktop.generateKeyPair d))
      (Mobile.publicKey (Mobile.generateKeyPair m)) pairingCode = Some sd /\
    Mobile.deriveSession (Mobile.privateKey (Mobile.generateKeyPair m))
      (Desktop.publicKey (Desktop.generateKeyPair d)) pairingCode = Some sm /\
    Desktop.derivedKey sd = Mobile.derivedKey sm /\
    length (Desktop.derivedKey sd) = 32%nat /\
    Desktop.derivedKey sd
    = first_block (x_coordinate (point_mul d (point_mul m base_point)))
        (utf8_encode pairingCode) (ascii_bytes "claude-studio-e2ee").
Proof.
  unfold Desktop.deriveSession, Mobile.deriveSession, Desktop.computeSecret,
    Mobile.getSharedSecret.
  cbn [Desktop.generateKeyPair Mobile.generateKeyPair Desktop.ecdh Mobile.privateKey
       Desktop.publicKey Mobile.publicKey].
  rewrite bytesToHex_to_hex, from_to_hex, hexToBytes_to_hex, !parse_uncompressed.
  cbn [mbind option_bind]. rewrite shared_x, hkdf_32, hkdfSha256_32.
  cbn [mbind option_bind].
  eexists _, _. split; [reflexivity|]. split; [reflexivity|].
  cbn [Desktop.derivedKey Mobile.derivedKey].
  rewrite (ecdh_agree m d). split; [done|]. split; [apply hmac_length | done].
Qed.

End KeyAgreement.

Lemma derived_keys_agree_witness :
  exists (sd : Desktop.E2EESession) (sm : Mobile.E2EESession),
    Desktop.deriveSession (H := Toy.primitives) 7%N
      (Mobile.publicKey (Mobile.generateKeyPair (H := Toy.primitives) 11%N)) Toy.hello
    = Some sd /\
    Mobile.deriveSession (H := Toy.primitives) 11%N
      (Desktop.publicKey (Desktop.generateKeyPair (H := Toy.primitives) 7%N)) Toy.hello
    = Some sm /\
    Desktop.derivedKey sd = Mobile.derivedKey sm.
Proof.
  destruct (derived_keys_agree (H := Toy.primitives) 7%N 11%N Toy.hello)
    as (sd & sm & Hd & Hm & Heq & _).
  exists sd, sm. split; [exact Hd|]. split; [exact Hm | exact Heq].
Defined.

Lemma envelope_round_trip_witness :
  exists (payload : string) (s' : Desktop.E2EESession) (peer' : Mobile.E2EESession),
    Desktop.encrypt (H := Toy.primitives) Toy.desktop_session Toy.hello Toy.zero_iv
    = Some (payload, 0, s') /\
    Desktop.seq s' = 1 /\
    Mobile.decrypt (H := Toy.primitives) Toy.mobile_session payload 0
    = (Ok Toy.hello, peer') /\
    Mobile.peerSeq peer' = 0.
Proof.
  destruct (envelope_round_trip (H := Toy.primitives) Toy.zero_key Toy.zero_iv Toy.hello
              eq_refl eq_refl) as ((payload & Hd & _ & _ & Hm) & _).
  destruct (Hd Toy.desktop_session eq_refl) as (s' & Henc & _ & Hstep & _).
  destruct (Hm Toy.mobile_session 0 eq_refl eq_refl) as (peer' & Hdec & _ & Hpeer & _).
  exists payload, s', peer'.
  split; [exact Henc|]. split; [apply Hstep; by vm_compute|].
  split; [exact Hdec | exact Hpeer].
Defined.

End E2EEFacts.

(** * Properties of the relay server *)

Module RelayFacts.
Import Js JsFacts Relay.

Lemma sent_by_emit a st : sent_by st (emit a st) = [a].
Proof.
  unfold sent_by, emit. simpl. by rewrite drop_app_length.
Qed.

Lemma sent_by_refl st : sent_by st st = [].
Proof. unfold sent_by. apply drop_all. Qed.

Lemma sendTo_open w f st :
  sockets st !! w = Some OPEN -> sendTo w f st = emit (Send w f) st.
Proof. intros H. unfold sendTo. by rewrite H. Qed.

Lemma sendTo_cases w f st :
  sendTo w f st = st \/
  (sockets st !! w = Some OPEN /\ sendTo w f st = emit (Send w f) st).
Proof.
  unfold sendTo. destruct (sockets st !! w) as [[]|]; auto.
Qed.

Lemma sendTo_same_stores w f st : same_stores st (sendTo w f st).
Proof.
  destruct (sendTo_cases w f st) as [-> | [_ ->]]; by repeat split.
Qed.

Lemma covers_joins a b r : covers a (JStr b) r = true <-> joins r a b.
Proof.
  unfold covers, joins.
  rewrite orb_true_iff, !andb_true_iff, !strict_eq_str, !bool_decide_eq_true.
  reflexivity.
Qed.



(** *** Forwarding of [relay] frames *)




(** *** Replacement of a connection *)

Lemma on_close_unregisters device st :
  devices (on_close device st) !! deviceId device = None.
Proof.
  unfold on_close, notifyPairedDevices.
  set (f := fun acc rel => _).
  assert (Hdev : forall rels acc, devices (fold_left f rels acc) = devices acc).
  { induction rels as [|rel rels IH]; intros acc; [done|].
    simpl. rewrite IH. unfold f.
    destruct (negb _); [done|]. destruct (notify_target _ _); [|done].
    destruct (devices acc !! _); [|done]. apply sendTo_same_stores. }
  rewrite Hdev. simpl. apply lookup_delete_eq.
Qed.

(** C3: the desktop D1, paired with the attached mobile M, opens a second
    connection.  The server closes the first socket with the replacement
    reason and routes D1 to the second one; but when the close event of the
    first socket then fires, the listener deletes the registry entry of D1
    (which by now is the second connection) and M is sent [device-offline],
    although the second socket is still open. *)
Theorem close_of_replaced_socket_unregisters_successor :
  let st1 := Scenario.run Scenario.desktop_reconnects initial in
  let st2 := Scenario.run (Scenario.desktop_reconnects ++ [EvClose 0%nat]) initial in
  Close 0%nat 1000 "Replaced by new connection" ∈ wire st1 /\
  ws <$> devices st1 !! "D1" = Some 2%nat /\
  sockets st2 !! 2%nat = Some OPEN /\
  devices st2 !! "D1" = None /\
  sent_by st1 st2 = [Send 1%nat (FDeviceOffline "D1")].
Proof.
  vm_compute. split; [|done].
  do 3 apply list_elem_of_further. apply list_elem_of_here.
Qed.

(** *** Pairing offers *)

Lemma pending_get_delete k p : pending_get k (pending_delete k p) = None.
Proof.
  unfold pending_delete. induction p as [|[k' e] p IH]; [done|].
  simpl. destruct (strict_eq k' k) eqn:Hk; simpl; [done|]. by rewrite Hk.
Qed.

Lemma link_adds entry device now rels :
  mkRelation (e_desktopId entry) (deviceId device) (userId device) now
    ∈ link entry device now rels.
Proof. unfold link. apply elem_of_app. right. apply list_elem_of_here. Qed.

(** Every error path of a claim that does not find a live offer of the
    claimer's account answers the claimer alone and touches no store. *)
Lemma claim_rejected_without_trace st device m now :
  sockets st !! ws device = Some OPEN ->
  match pending_get (m_pairingCode m) (pendingPairings st) with
  | Some entry => e_userId entry <> userId device
  | None => True
  end ->
  exists e, handleClaimPairing device m now st = emit (Send (ws device) (FError e)) st.
Proof.
  intros Hopen Hlookup. unfold handleClaimPairing.
  destruct (negb (bool_decide (deviceType device = mobile)));
    [rewrite (sendTo_open _ _ _ Hopen); eauto|].
  destruct (negb (truthy (m_pairingCode m)) || negb (truthy (m_publicKey m)));
    [rewrite (sendTo_open _ _ _ Hopen); eauto|].
  destruct (pending_get (m_pairingCode m) (pendingPairings st)) as [entry|];
    [|rewrite (sendTo_open _ _ _ Hopen); eauto].
  rewrite bool_decide_false by done. simpl.
  rewrite (sendTo_open _ _ _ Hopen); eauto.
Qed.

Lemma claim_accepted st device m now entry :
  deviceType device = mobile ->
  truthy (m_pairingCode m) = true ->
  truthy (m_publicKey m) = true ->
  pending_get (m_pairingCode m) (pendingPairings st) = Some entry ->
  e_userId entry = userId device ->
  now - createdAt entry <= PAIRING_TTL ->
  handleClaimPairing device m now st
  = notify_claim device entry (m_publicKey m) (claimed device m entry now st).
Proof.
  intros Hmobile Hcode Hkey Hget Huser Httl. unfold handleClaimPairing.
  rewrite bool_decide_true by done. rewrite Hcode, Hkey, Hget. simpl.
  rewrite bool_decide_true by done. simpl.
  destruct (now - createdAt entry >? PAIRING_TTL) eqn:Hgt; [|done].
  apply Z.gtb_lt in Hgt. lia.
Qed.

Lemma notify_claim_same_stores device entry key st :
  same_stores st (notify_claim device entry key st).
Proof.
  unfold notify_claim.
  set (st1 := match devices st !! e_desktopId entry with Some _ => _ | None => st end).
  assert (H1 : same_stores st st1).
  { subst st1. destruct (devices st !! e_desktopId entry); [|by repeat split].
    apply sendTo_same_stores. }
  destruct (sendTo_same_stores (ws device)
    (FPairingAcceptedMobile (e_desktopId entry) (e_deviceName entry) (desktopPublicKey entry))
    st1) as (? & ? & ? & ? & ?).
  destruct H1 as (? & ? & ? & ? & ?). repeat split; congruence.
Qed.

Lemma sent_by_notify_claim device entry key st :
  sockets st !! ws device = Some OPEN ->
  exists to_desktop : list action,
    sent_by st (notify_claim device entry key st)
    = to_desktop ++
      [Send (ws device)
         (FPairingAcceptedMobile (e_desktopId entry) (e_deviceName entry)
            (desktopPublicKey entry))] /\
    forall desktop_dev,
      devices st !! e_desktopId entry = Some desktop_dev ->
      sockets st !! ws desktop_dev = Some OPEN ->
      to_desktop
      = [Send (ws desktop_dev) (FPairingAcceptedDesktop key (deviceId device) (deviceName device))].
Proof.
  intros Hopen. unfold notify_claim.
  destruct (devices st !! e_desktopId entry) as [d|] eqn:Hd.
  - destruct (decide (sockets st !! ws d = Some OPEN)) as [Hopen_d | Hclosed].
    + eexists. rewrite (sendTo_open _ _ st) by done. rewrite sendTo_open by done. split.
      * unfold sent_by, emit. simpl. rewrite <- app_assoc. by rewrite drop_app_length.
      * by intros d' [= <-] _.
    + exists []. replace (sendTo (ws d) _ st) with st.
      * rewrite (sendTo_open _ _ _ Hopen), sent_by_emit. split; [done|].
        by intros d' [= <-] Hopen_d.
      * unfold sendTo. by destruct (sockets st !! ws d) as [[]|].
  - exists []. rewrite (sendTo_open _ _ _ Hopen), sent_by_emit. split; [done|].
    by intros d' [=].
Qed.

(** C6: a claim for a code whose offer belongs to another account answers the
    claimer with one [error] frame and nothing else: no store changes (the
    offer stays, no relation appears), no frame goes to the desktop; and a
    later claim of the same code by a mobile of the offer's account, within
    the offer's lifetime, succeeds. *)
Theorem claim_of_other_account_keeps_offer st device m now entry :
  sockets st !! ws device = Some OPEN ->
  pending_get (m_pairingCode m) (pendingPairings st) = Some entry ->
  e_userId entry <> userId device ->
  let st' := handleClaimPairing device m now st in
  same_stores st st' /\
  (exists e, sent_by st st' = [Send (ws device) (FError e)]) /\
  forall owner m1 now1,
    deviceType owner = mobile ->
    userId owner = e_userId entry ->
    sockets st !! ws owner = Some OPEN ->
    m_pairingCode m1 = m_pairingCode m ->
    truthy (m_pairingCode m1) = true ->
    truthy (m_publicKey m1) = true ->
    now1 - createdAt entry <= PAIRING_TTL ->
    let st'' := handleClaimPairing owner m1 now1 st' in
    pending_get (m_pairingCode m) (pendingPairings st'') = None /\
    mkRelation (e_desktopId entry) (deviceId owner) (userId owner) now1
      ∈ pairedRelations st'' /\
    exists to_desktop : list action,
      sent_by st' st''
      = to_desktop ++
        [Send (ws owner)
           (FPairingAcceptedMobile (e_desktopId entry) (e_deviceName entry)
              (desktopPublicKey entry))] /\
      forall desktop_dev,
        devices st !! e_desktopId entry = Some desktop_dev ->
        sockets st !! ws desktop_dev = Some OPEN ->
        to_desktop
        = [Send (ws desktop_dev)
             (FPairingAcceptedDesktop (m_publicKey m1) (deviceId owner) (deviceName owner))].
Proof.
  intros Hopen Hget Huser st'.
  destruct (claim_rejected_without_trace st device m now Hopen) as [e He];
    [by rewrite Hget|].
  subst st'. rewrite He. split; [by repeat split|]. split.
  { exists e. apply sent_by_emit. }
  intros owner m1 now1 Hmobile Howner Hopen1 Hcode Htruthy Hkey Httl st''.
  subst st''. rewrite (claim_accepted _ owner m1 now1 entry); try done.
  2:{ simpl. by rewrite Hcode. }
  set (a := Send (ws device) (FError e)).
  destruct (notify_claim_same_stores owner entry (m_publicKey m1)
              (claimed owner m1 entry now1 (emit a st))) as (Hd & Hp & Hr & Hs & Hl).
  rewrite Hp, Hr. simpl. rewrite Hcode. split; [apply pending_get_delete|].
  split; [apply link_adds|].
  destruct (sent_by_notify_claim owner entry (m_publicKey m1)
              (claimed owner m1 entry now1 (emit a st))) as (out & Hout & Hdesk); [done|].
  exists out. split; [exact Hout|]. exact Hdesk.
Qed.

Lemma claim_of_other_account_keeps_offer_witness :
  let st := Scenario.run Scenario.offer_pending initial in
  let m := claim_pairing_frame (JStr "C3") (JStr "K2") in
  let st' := handleClaimPairing Scenario.M2 m 4000 st in
  let st'' := handleClaimPairing Scenario.M1 (claim_pairing_frame (JStr "C3") (JStr "K1"))
                5000 st' in
  sockets st !! ws Scenario.M2 = Some OPEN /\
  pending_get (m_pairingCode m) (pendingPairings st) = Some Scenario.offer_C3 /\
  e_userId Scenario.offer_C3 <> userId Scenario.M2 /\
  same_stores st st' /\
  (exists e, sent_by st st' = [Send (ws Scenario.M2) (FError e)]) /\
  mkRelation "D1" "M1" "U1" 5000 ∈ pairedRelations st'' /\
  sent_by st' st''
  = [Send 0%nat (FPairingAcceptedDesktop (JStr "K1") "M1" "Phone1");
     Send 2%nat (FPairingAcceptedMobile "D1" (JStr "Desk") (JStr "KD"))].
Proof.
  intros st m st' st''.
  assert (Hopen : sockets st !! ws Scenario.M2 = Some OPEN) by (vm_compute; reflexivity).
  assert (Hget : pending_get (m_pairingCode m) (pendingPairings st) = Some Scenario.offer_C3)
    by (vm_compute; reflexivity).
  assert (Huser : e_userId Scenario.offer_C3 <> userId Scenario.M2)
    by (vm_compute; discriminate).
  repeat (split; [assumption|]).
  pose proof (claim_of_other_account_keeps_offer st Scenario.M2 m 4000 Scenario.offer_C3
                Hopen Hget Huser) as (Hsame & Hsent & Hlater).
  split; [assumption|]. split; [assumption|].
  destruct (Hlater Scenario.M1 (claim_pairing_frame (JStr "C3") (JStr "K1")) 5000)
    as (_ & Hrel & out & Hout & Hdesk); try reflexivity.
  { vm_compute. discriminate. }
  split; [exact Hrel|].
  fold st' st'' in Hout. rewrite Hout.
  by rewrite (Hdesk Scenario.D1) by reflexivity.
Defined.

(** C7: a successful claim removes the offer before any [pairing-accepted]
    frame is sent (the two notifications run in a state that no longer holds
    the code and whose wire is still the one the handler started with), and
    any further claim of that code, by any device at any time, is answered
    with an [error] frame only: nothing is stored, nothing else is sent. *)
Theorem pairing_code_consumed_once st device m now entry :
  deviceType device = mobile ->
  truthy (m_pairingCode m) = true ->
  truthy (m_publicKey m) = true ->
  pending_get (m_pairingCode m) (pendingPairings st) = Some entry ->
  e_userId entry = userId device ->
  now - createdAt entry <= PAIRING_TTL ->
  let st' := handleClaimPairing device m now st in
  (exists mid,
     pending_get (m_pairingCode m) (pendingPairings mid) = None /\
     wire mid = wire st /\
     st' = notify_claim device entry (m_publicKey m) mid) /\
  pending_get (m_pairingCode m) (pendingPairings st') = None /\
  forall device2 m2 now2,
    m_pairingCode m2 = m_pairingCode m ->
    let st'' := handleClaimPairing device2 m2 now2 st' in
    same_stores st' st'' /\
    (forall w f, Send w f ∈ sent_by st' st'' -> w = ws device2 /\ is_error f = true) /\
    (sockets st' !! ws device2 = Some OPEN ->
     exists e, sent_by st' st'' = [Send (ws device2) (FError e)]).
Proof.
  intros Hmobile Hcode Hkey Hget Huser Httl st'.
  assert (Hst' : st' = notify_claim device entry (m_publicKey m) (claimed device m entry now st))
    by (by apply claim_accepted).
  assert (Hgone : pending_get (m_pairingCode m) (pendingPairings st') = None).
  { rewrite Hst'.
    destruct (notify_claim_same_stores device entry (m_publicKey m)
                (claimed device m entry now st)) as (_ & -> & _).
    simpl. apply pending_get_delete. }
  split.
  { exists (claimed device m entry now st). split; [apply pending_get_delete|]. by split. }
  split; [exact Hgone|].
  intros device2 m2 now2 Hsame st''. subst st''.
  unfold handleClaimPairing. rewrite Hsame, Hgone.
  set (body := if negb (bool_decide (deviceType device2 = mobile)) then _ else _).
  assert (Hbody : exists e,
             body = sendTo (ws device2) (FError e) st').
  { subst body. destruct (negb (bool_decide (deviceType device2 = mobile))); [eauto|].
    destruct (negb (truthy (m_pairingCode m)) || negb (truthy (m_publicKey m2))); eauto. }
  destruct Hbody as [e ->].
  split; [apply sendTo_same_stores|]. split.
  - intros w f Hin. destruct (sendTo_cases (ws device2) (FError e) st') as [Heq | [_ Heq]];
      rewrite Heq in Hin.
    + rewrite sent_by_refl in Hin. by apply elem_of_nil in Hin.
    + rewrite sent_by_emit in Hin. apply list_elem_of_singleton in Hin.
      by injection Hin as -> ->.
  - intros Hopen. exists e. rewrite sendTo_open by done. apply sent_by_emit.
Qed.

Lemma pairing_code_consumed_once_witness :
  let st := Scenario.run Scenario.offer_pending initial in
  let m := claim_pairing_frame (JStr "C3") (JStr "K1") in
  let st' := handleClaimPairing Scenario.M1 m 4000 st in
  pending_get (JStr "C3") (pendingPairings st) = Some Scenario.offer_C3 /\
  pending_get (JStr "C3") (pendingPairings st') = None /\
  sent_by st st'
  = [Send 0%nat (FPairingAcceptedDesktop (JStr "K1") "M1" "Phone1");
     Send 2%nat (FPairingAcceptedMobile "D1" (JStr "Desk") (JStr "KD"))] /\
  exists e, sent_by st' (handleClaimPairing Scenario.M1 m 4500 st')
            = [Send 2%nat (FError e)].
Proof.
  intros st m st'.
  assert (Hget : pending_get (m_pairingCode m) (pendingPairings st) = Some Scenario.offer_C3)
    by (vm_compute; reflexivity).
  assert (Httl : 4000 - createdAt Scenario.offer_C3 <= PAIRING_TTL)
    by (vm_compute; discriminate).
  pose proof (pairing_code_consumed_once st Scenario.M1 m 4000 Scenario.offer_C3
                eq_refl eq_refl eq_refl Hget eq_refl Httl) as (_ & Hgone & Hagain).
  split; [exact Hget|]. split; [exact Hgone|]. split; [vm_compute; reflexivity|].
  destruct (Hagain Scenario.M1 m 4500 eq_refl) as (_ & _ & Herr).
  apply Herr. vm_compute. reflexivity.
Defined.

(** *** What a frame handler can do to the connections *)

Lemma kc_refl st : keeps_connections st st.
Proof.
  repeat split. exists []. by rewrite app_nil_r.
Qed.

Lemma kc_sendTo st st1 w f :
  keeps_connections st st1 -> keeps_connections st (sendTo w f st1).
Proof.
  intros (Hd & Hs & Hl & out & Hw & Hout).
  destruct (sendTo_cases w f st1) as [-> | [_ ->]].
  - repeat split; try done. by exists out.
  - repeat split; try done. exists (out ++ [Send w f]). simpl. rewrite Hw, app_assoc.
    split; [done|]. apply Forall_app. split; [done|].
    apply Forall_singleton. by exists w, f.
Qed.

Lemma kc_set_pendingPairings st st1 p :
  keeps_connections st st1 -> keeps_connections st (set_pendingPairings p st1).
Proof. intros (Hd & Hs & Hl & out & Hw & Hout). repeat split; try done. by exists out. Qed.

Lemma kc_set_pairedRelations st st1 r :
  keeps_connections st st1 -> keeps_connections st (set_pairedRelations r st1).
Proof. intros (Hd & Hs & Hl & out & Hw & Hout). repeat split; try done. by exists out. Qed.

Ltac kc_cases :=
  repeat first
    [ assumption
    | apply kc_refl
    | apply kc_sendTo
    | apply kc_set_pendingPairings
    | apply kc_set_pairedRelations
    | match goal with
      | |- keeps_connections _ (if ?b then _ else _) => destruct b
      | |- keeps_connections _ (match ?o with Some _ => _ | None => _ end) => destruct o
      end ].

Lemma kc_notifyPairedDevices device_id user_id ev st st1 :
  keeps_connections st st1 ->
  keeps_connections st (notifyPairedDevices device_id user_id ev st1).
Proof.
  unfold notifyPairedDevices.
  generalize (pairedRelations st1) as rels. intros rels. revert st1.
  induction rels as [|rel rels IH]; intros st1 H; [done|].
  simpl. apply IH. kc_cases.
Qed.

Lemma kc_handleMessage device m now st :
  keeps_connections st (handleMessage device m now st).
Proof.
  unfold handleMessage, handleRegisterPairing, handleClaimPairing, notify_claim,
    handleRelay, handleRevokePairing, handleControlRequest, handleControlAck,
    handleControlRevoked.
  cbv zeta. kc_cases.
Qed.

Lemma kc_on_message device data now st :
  keeps_connections st (on_message device data now st).
Proof.
  destruct data; simpl; [kc_cases | apply kc_handleMessage].
Qed.

(** *** Device ids in the registry *)




Section Admission.

Variable verifyToken : string -> option string.
Variable getUserById : string -> bool.




End Admission.

(** *** Dispatch *)

Lemma dispatch_register device m now st :
  m_type m = JStr "register-pairing" ->
  handleMessage device m now st = handleRegisterPairing device m now st.
Proof. intros H. unfold handleMessage. by rewrite H. Qed.

Lemma dispatch_claim device m now st :
  m_type m = JStr "claim-pairing" ->
  handleMessage device m now st = handleClaimPairing device m now st.
Proof. intros H. unfold handleMessage. by rewrite H. Qed.

Lemma dispatch_relay device m now st :
  m_type m = JStr "relay" -> handleMessage device m now st = handleRelay device m st.
Proof. intros H. unfold handleMessage. by rewrite H. Qed.

Lemma dispatch_revoke device m now st :
  m_type m = JStr "revoke-pairing" ->
  handleMessage device m now st = handleRevokePairing device m st.
Proof. intros H. unfold handleMessage. by rewrite H. Qed.

Lemma dispatch_control_request device m now st :
  m_type m = JStr "control-request" ->
  handleMessage device m now st = handleControlRequest device m st.
Proof. intros H. unfold handleMessage. by rewrite H. Qed.

Lemma dispatch_control_ack device m now st :
  m_type m = JStr "control-ack" ->
  handleMessage device m now st = handleControlAck device m st.
Proof. intros H. unfold handleMessage. by rewrite H. Qed.

Lemma dispatch_control_revoked device m now st :
  m_type m = JStr "control-revoked" ->
  handleMessage device m now st = handleControlRevoked device m st.
Proof. intros H. unfold handleMessage. by rewrite H. Qed.

(** *** Frames with a missing field *)

(** C9, as stated, fails: a [control-ack] without [to] from the attached
    desktop D1 is dropped without any frame. *)
Lemma control_ack_without_target_is_dropped : ~ missing_field_answered_with_error.
Proof.
  intros H.
  destruct (H (Scenario.run Scenario.paired initial) Scenario.D1
              (control_ack_frame JUndefined (JBool true)) 5000) as ([e He] & _).
  - by vm_compute.
  - right. right. left. by split.
  - vm_compute in He. discriminate He.
Qed.

(** C9, amended.  A [register-pairing] or [claim-pairing] frame without
    [pairingCode] or [publicKey] and a [relay] frame without [to] or [payload]
    are answered with exactly one [error] frame to the sender and change no
    store.  A [revoke-pairing] without [targetDeviceId], a [control-ack] or
    [control-revoked] without [to], and a mobile's [control-request] without
    [targetDesktopId] are dropped: the state, wire included, is unchanged (a
    desktop's [control-request] is answered with the role error).  No frame
    handler closes a socket. *)
Theorem missing_field_answered_or_dropped st device m now :
  sockets st !! ws device = Some OPEN ->
  let st' := handleMessage device m now st in
  let answered :=
    same_stores st st' /\ exists e, sent_by st st' = [Send (ws device) (FError e)] in
  ((m_type m = JStr "register-pairing" \/ m_type m = JStr "claim-pairing") ->
   truthy (m_pairingCode m) = false \/ truthy (m_publicKey m) = false -> answered) /\
  (m_type m = JStr "relay" ->
   truthy (m_to m) = false \/ truthy (m_payload m) = false -> answered) /\
  (m_type m = JStr "revoke-pairing" -> truthy (m_targetDeviceId m) = false -> st' = st) /\
  (m_type m = JStr "control-request" -> truthy (m_targetDesktopId m) = false ->
   if decide (deviceType device = mobile) then st' = st else answered) /\
  (m_type m = JStr "control-ack" \/ m_type m = JStr "control-revoked" ->
   truthy (m_to m) = false -> st' = st) /\
  keeps_connections st st'.
Proof.
  intros Hopen st' answered.
  assert (Hans : forall e, st' = sendTo (ws device) (FError e) st -> answered).
  { intros e He. subst answered. rewrite He, sendTo_open by done.
    split; [by repeat split|]. exists e. apply sent_by_emit. }
  assert (Hmiss : forall a b, truthy a = false \/ truthy b = false ->
                              negb (truthy a) || negb (truthy b) = true).
  { intros a b [-> | ->]; [done | apply orb_true_r]. }
  refine (conj _ (conj _ (conj _ (conj _ (conj _ _))))).
  - intros [Ht | Ht] Hm; apply Hmiss in Hm.
    + destruct (negb (bool_decide (deviceType device = desktop))) eqn:Hrole;
        eapply Hans; subst st'; rewrite dispatch_register by done;
        unfold handleRegisterPairing; rewrite Hrole, ?Hm; reflexivity.
    + destruct (negb (bool_decide (deviceType device = mobile))) eqn:Hrole;
        eapply Hans; subst st'; rewrite dispatch_claim by done;
        unfold handleClaimPairing; rewrite Hrole, ?Hm; reflexivity.
  - intros Ht Hm. apply Hmiss in Hm. eapply Hans. subst st'.
    rewrite dispatch_relay by done. unfold handleRelay. by rewrite Hm.
  - intros Ht Hm. subst st'. rewrite dispatch_revoke by done.
    unfold handleRevokePairing. by rewrite Hm.
  - intros Ht Hm. destruct (decide (deviceType device = mobile)).
    + subst st'. rewrite dispatch_control_request by done.
      unfold handleControlRequest. rewrite bool_decide_true by done. by rewrite Hm.
    + eapply Hans. subst st'. rewrite dispatch_control_request by done.
      unfold handleControlRequest. by rewrite bool_decide_false by done.
  - intros [Ht | Ht] Hm; subst st'.
    + rewrite dispatch_control_ack by done. unfold handleControlAck. by rewrite Hm.
    + rewrite dispatch_control_revoked by done. unfold handleControlRevoked. by rewrite Hm.
  - apply kc_handleMessage.
Qed.

Lemma missing_field_answered_or_dropped_witness :
  let st := Scenario.run Scenario.paired initial in
  sockets st !! ws Scenario.D1 = Some OPEN /\
  handleMessage Scenario.D1 (control_revoked_frame JUndefined) 5000 st = st /\
  handleMessage Scenario.D1 (revoke_pairing_frame JUndefined) 5000 st = st /\
  exists e, sent_by st (handleMessage Scenario.D1 (relay_frame (JStr "M") JUndefined (JNum 0))
                          5000 st)
            = [Send 0%nat (FError e)].
Proof.
  intros st.
  assert (Hopen : sockets st !! ws Scenario.D1 = Some OPEN) by (vm_compute; reflexivity).
  split; [exact Hopen|]. split; [|split].
  - pose proof (missing_field_answered_or_dropped st Scenario.D1
                  (control_revoked_frame JUndefined) 5000 Hopen)
      as (_ & _ & _ & _ & Hdrop & _).
    apply Hdrop; [by right | reflexivity].
  - pose proof (missing_field_answered_or_dropped st Scenario.D1
                  (revoke_pairing_frame JUndefined) 5000 Hopen)
      as (_ & _ & Hdrop & _).
    apply Hdrop; reflexivity.
  - pose proof (missing_field_answered_or_dropped st Scenario.D1
                  (relay_frame (JStr "M") JUndefined (JNum 0)) 5000 Hopen)
      as (_ & Hans & _).
    apply Hans; [reflexivity | by right].
Defined.

(** *** Control frames *)



End RelayFacts.

(** * Properties of the remote-control state machine *)

Module RemoteControlFacts.
Import Js RemoteControl.

Lemma fsm_step_controller_known rc i :
  controller_known rc -> controller_known (fsm_step rc i).
Proof.
  unfold controller_known. destruct rc as [[m id name] pw allow timeout timer pending next].
  destruct i as [hasSession [d n | d | d |] | password | h | settings]; simpl.
  - unfold handleControlRequest; simpl.
    destruct allow; simpl; [|done].
    destruct m; simpl; try done.
    destruct (hasSession d); simpl; [|done].
    destruct (0 <? timeout); simpl; [done|]. intros _. by split.
  - destruct (bool_decide (id = Some d)); simpl; [|done].
    unfold forceRelease. simpl. by destruct m.
  - destruct (bool_decide (id = Some d)); simpl; [|done].
    unfold forceRelease. simpl. by destruct m.
  - unfold forceRelease. simpl. by destruct m.
  - unfold tryUnlock. simpl.
    destruct m; simpl; try done; by destruct (bool_decide (password = pw)).
  - unfold timer_fires. simpl.
    destruct (List.find _ pending) as [[h' [d n]]|]; simpl; [|done].
    intros _. by split.
  - done.
Qed.

(** Whenever the desktop is locked, it knows its controller. *)
Lemma locked_has_controller rc :
  reachable rc -> isLocked rc = true -> is_Some (controllingDeviceId (state rc)).
Proof.
  intros [inputs ->] Hlocked.
  assert (Hinv : forall rc0, controller_known rc0 ->
                             controller_known (fold_left fsm_step inputs rc0)).
  { clear Hlocked. induction inputs as [|i inputs IH]; intros rc0 H0; [done|].
    cbn [fold_left]. apply IH. by apply fsm_step_controller_known. }
  specialize (Hinv create (conj eq_refl eq_refl)).
  unfold controller_known, isLocked in *.
  destruct (mode (state (fold_left fsm_step inputs create))); [done | apply Hinv..].
Qed.



End RemoteControlFacts.

(** * Further properties of the relay server *)

Module RelayInvariants.
Import Js JsFacts Relay RelayNotions RelayFacts.

Lemma ws_close_stores w code reason st :
  devices (ws_close w code reason st) = devices st /\
  listeners (ws_close w code reason st) = listeners st /\
  pendingPairings (ws_close w code reason st) = pendingPairings st /\
  pairedRelations (ws_close w code reason st) = pairedRelations st /\
  sockets (ws_close w code reason st)
  = match sockets st !! w with
    | Some OPEN => <[w := CLOSING]> (sockets st)
    | _ => sockets st
    end.
Proof. unfold ws_close. by destruct (sockets st !! w) as [[]|]. Qed.

Lemma notify_same_stores device_id user_id ev st :
  same_stores st (notifyPairedDevices device_id user_id ev st).
Proof.
  unfold notifyPairedDevices.
  assert (H : forall rels acc,
             same_stores st acc ->
             same_stores st
               (fold_left
                  (fun acc rel =>
                     if negb (bool_decide (r_userId rel = user_id)) then acc
                     else match notify_target rel device_id with
                          | Some targetId =>
                              match devices acc !! targetId with
                              | Some target => sendTo (ws target) (ev device_id) acc
                              | None => acc
                              end
                          | None => acc
                          end) rels acc)).
  { induction rels as [|rel rels IH]; intros acc Hacc; [done|].
    simpl. apply IH.
    destruct (negb _); [done|]. destruct (notify_target _ _); [|done].
    destruct (devices acc !! _) as [target|]; [|done].
    destruct (sendTo_same_stores (ws target) (ev device_id) acc) as (? & ? & ? & ? & ?).
    destruct Hacc as (? & ? & ? & ? & ?). repeat split; congruence. }
  apply H. by repeat split.
Qed.

(** The stores after the connection handler ran for the new socket [w]. *)
Lemma on_connection_stores w user_id device_id device_type device_name now st :
  let device := mkDevice w user_id device_id device_type device_name now in
  let st' := on_connection w user_id device_id device_type device_name now st in
  devices st' = <[device_id := device]> (devices st) /\
  listeners st' = <[w := device]> (listeners st) /\
  pendingPairings st' = pendingPairings st /\
  pairedRelations st' = pairedRelations st /\
  sockets st'
  = match devices st !! device_id with
    | Some existing =>
        match <[w := OPEN]> (sockets st) !! ws existing with
        | Some OPEN => <[ws existing := CLOSING]> (<[w := OPEN]> (sockets st))
        | _ => <[w := OPEN]> (sockets st)
        end
    | None => <[w := OPEN]> (sockets st)
    end.
Proof.
  intros device st'. subst st'. unfold on_connection. cbv zeta. fold device.
  set (st0 := set_listeners _ _).
  set (st1 := match devices st0 !! device_id with Some _ => _ | None => _ end).
  assert (H1 : devices st1 = devices st /\ listeners st1 = <[w := device]> (listeners st) /\
               pendingPairings st1 = pendingPairings st /\
               pairedRelations st1 = pairedRelations st /\
               sockets st1
               = match devices st !! device_id with
                 | Some existing =>
                     match <[w := OPEN]> (sockets st) !! ws existing with
                     | Some OPEN => <[ws existing := CLOSING]> (<[w := OPEN]> (sockets st))
                     | _ => <[w := OPEN]> (sockets st)
                     end
                 | None => <[w := OPEN]> (sockets st)
                 end).
  { subst st1. change (devices st0) with (devices st).
    destruct (devices st !! device_id) as [existing|]; [|done].
    destruct (ws_close_stores (ws existing) 1000 "Replaced by new connection" st0)
      as (-> & -> & -> & -> & ->). done. }
  destruct H1 as (Hd & Hl & Hp & Hr & Hs).
  set (st2 := set_devices _ st1).
  destruct (notify_same_stores device_id user_id FDeviceOnline st2) as (Hd3 & Hp3 & Hr3 & Hs3 & Hl3).
  set (st3 := notifyPairedDevices device_id user_id FDeviceOnline st2) in *.
  assert (H3 : devices st3 = <[device_id := device]> (devices st) /\
               listeners st3 = <[w := device]> (listeners st) /\
               pendingPairings st3 = pendingPairings st /\
               pairedRelations st3 = pairedRelations st /\
               sockets st3 = sockets st1).
  { rewrite Hd3, Hl3, Hp3, Hr3, Hs3. subst st2. simpl. by rewrite Hd. }
  rewrite <- Hs. destruct device_type; [exact H3|].
  unfold sendDesktopList.
  destruct (sendTo_same_stores w
              (FDeviceList (desktop_list user_id (pairedRelations st3) [] (devices st3))) st3)
    as (-> & -> & -> & -> & ->).
  exact H3.
Qed.

Lemma on_close_stores device st :
  let st' := on_close device st in
  devices st' = delete (deviceId device) (devices st) /\
  listeners st' = listeners st /\
  pendingPairings st' = pendingPairings st /\
  pairedRelations st' = pairedRelations st /\
  sockets st' = sockets st.
Proof.
  unfold on_close.
  destruct (notify_same_stores (deviceId device) (userId device) FDeviceOffline
              (set_devices (delete (deviceId device) (devices st)) st))
    as (-> & -> & -> & -> & ->).
  done.
Qed.

Section Admission.
Variable verifyToken : string -> option string.
Variable getUserById : string -> bool.

Lemma upgraded_authenticated req w user_id device_id device_type device_name now :
  upgrade verifyToken getUserById req = Upgraded user_id device_id device_type device_name ->
  authenticated verifyToken getUserById
    (mkDevice w user_id device_id device_type device_name now).
Proof.
  unfold upgrade, authenticated. destruct (negb _); [done|].
  destruct (q_token req) as [token|]; [|done].
  destruct (q_deviceType req) as [dt|]; [|done].
  destruct (q_deviceId req) as [d|]; [|done].
  destruct (bool_decide (token = "")) eqn:Ht; [done|].
  destruct (bool_decide (dt = "")); [done|].
  destruct (bool_decide (d = "")) eqn:Hd; [done|]. simpl.
  destruct (parse_deviceType dt); [|done].
  destruct (verifyToken token) as [u|] eqn:Hv; [|done].
  destruct (bool_decide (u = "")) eqn:Hu; [done|].
  destruct (getUserById u) eqn:Hg; [|done]. simpl.
  intros [= <- <- _ _].
  apply bool_decide_eq_false in Ht, Hd, Hu. eauto 10.
Qed.

Lemma step_keeps_registry st ev :
  registry_consistent verifyToken getUserById st ->
  registry_consistent verifyToken getUserById (step verifyToken getUserById st ev).
Proof.
  intros [Hl Hd]. destruct ev as [req w now | w data now | w | w | now]; simpl.
  - destruct (sockets st !! w) eqn:Hw; [done|].
    destruct (upgrade verifyToken getUserById req) as [| | |u d t n] eqn:Hup; try done.
    pose proof (upgraded_authenticated req w u d t n now Hup) as Hauth.
    destruct (on_connection_stores w u d t n now st) as (Ed & El & _ & _ & Es).
    set (device := mkDevice w u d t n now) in *.
    assert (Hfresh : forall d' dev', devices st !! d' = Some dev' -> ws dev' <> w).
    { intros d' dev' Hin Heq. apply Hd in Hin as (_ & _ & [Ho | Ho]); congruence. }
    assert (Hsock : forall w', w' <> w ->
              (forall existing, devices st !! d = Some existing -> ws existing <> w') ->
              sockets (on_connection w u d t n now st) !! w' = sockets st !! w').
    { intros w' Hne Hother. rewrite Es.
      destruct (devices st !! d) as [existing|] eqn:Hex.
      - specialize (Hother existing eq_refl).
        destruct (<[w:=OPEN]> (sockets st) !! ws existing) as [[]|];
          by rewrite ?lookup_insert_ne by done.
      - by rewrite lookup_insert_ne. }
    split.
    + intros w' dev'. rewrite El. intros Hin.
      destruct (decide (w = w')) as [<- | Hne].
      * rewrite lookup_insert_eq in Hin. injection Hin as <-.
        split; [done|]. split; [done|]. rewrite Es.
        destruct (devices st !! d) as [existing|];
          [destruct (<[w:=OPEN]> (sockets st) !! ws existing) as [[]|]|];
          try (apply lookup_insert_is_Some; by left).
        destruct (decide (ws existing = w)) as [-> | Hne'];
          [rewrite lookup_insert_eq | rewrite lookup_insert_ne by done;
                                     rewrite lookup_insert_eq]; done.
      * rewrite lookup_insert_ne in Hin by done.
        destruct (Hl w' dev' Hin) as (Hws & Ha & Hs). split; [done|]. split; [done|].
        rewrite Es.
        destruct (devices st !! d) as [existing|];
          [destruct (<[w:=OPEN]> (sockets st) !! ws existing) as [[]|]|];
          try (rewrite lookup_insert_ne by done; exact Hs).
        destruct (decide (ws existing = w')) as [-> | Hne'];
          [rewrite lookup_insert_eq; done
          | rewrite !lookup_insert_ne by done; exact Hs].
    + intros d' dev'. rewrite Ed, El. intros Hin.
      destruct (decide (d = d')) as [<- | Hne].
      * rewrite lookup_insert_eq in Hin. injection Hin as <-.
        split; [done|]. simpl. rewrite lookup_insert_eq. split; [done|].
        left. rewrite Es.
        destruct (devices st !! d) as [existing|] eqn:Hex; [|apply lookup_insert_eq].
        pose proof (Hfresh d existing Hex) as Hne.
        destruct (<[w:=OPEN]> (sockets st) !! ws existing) as [[]|];
          rewrite ?(lookup_insert_ne _ (ws existing) w) by done; apply lookup_insert_eq.
      * rewrite lookup_insert_ne in Hin by done.
        destruct (Hd d' dev' Hin) as (Hid & Hlis & Hopen).
        pose proof (Hfresh d' dev' Hin) as Hnew.
        split; [done|]. rewrite lookup_insert_ne by done. split; [done|].
        rewrite Hsock; [done | done |].
        intros existing Hex Heq.
        destruct (Hd d existing Hex) as (Hid2 & Hlis2 & _).
        rewrite Heq, Hlis in Hlis2. injection Hlis2 as <-. congruence.
  - assert (Hkc : forall device, keeps_connections st (on_message device data now st))
      by (intros; apply kc_on_message).
    destruct (sockets st !! w) as [[]|], (listeners st !! w) as [device|]; try done;
      destruct (Hkc device) as (Ed & Es & El & _);
      (split; [intros w' dev'; rewrite El, Es; apply Hl
              | intros d' dev'; rewrite Ed, El, Es; apply Hd]).
  - destruct (sockets st !! w) as [[]|] eqn:Hw; try done. split; simpl.
    + intros w' dev' Hin. destruct (Hl w' dev' Hin) as (Hws & Ha & Hs).
      split; [done|]. split; [done|].
      destruct (decide (w = w')) as [<- | Hne];
        [rewrite lookup_insert_eq | rewrite lookup_insert_ne by done]; done.
    + intros d' dev' Hin. destruct (Hd d' dev' Hin) as (Hid & Hlis & Hopen).
      split; [done|]. split; [done|].
      destruct (decide (w = ws dev')) as [<- | Hne];
        [right; apply lookup_insert_eq | by rewrite lookup_insert_ne by done].
  - assert (Hclose : forall device,
              listeners st !! w = Some device ->
              registry_consistent verifyToken getUserById
                (on_close device (set_sockets (<[w:=CLOSED]> (sockets st)) st))).
    { intros device Hlw.
      destruct (on_close_stores device (set_sockets (<[w:=CLOSED]> (sockets st)) st))
        as (Ed & El & _ & _ & Es).
      simpl in Ed, El, Es. split.
      - intros w' dev'. rewrite El, Es. intros Hin.
        destruct (Hl w' dev' Hin) as (Hws & Ha & Hs). split; [done|]. split; [done|].
        destruct (decide (w = w')) as [<- | Hne];
          [rewrite lookup_insert_eq | rewrite lookup_insert_ne by done]; done.
      - intros d' dev'. rewrite Ed, El, Es. intros Hin.
        apply lookup_delete_Some in Hin as [Hne Hin].
        destruct (Hd d' dev' Hin) as (Hid & Hlis & Hopen).
        split; [done|]. split; [done|].
        rewrite lookup_insert_ne; [done|].
        intros Heq. rewrite <- Heq, Hlw in Hlis. injection Hlis as <-. congruence. }
    destruct (sockets st !! w) as [[]|], (listeners st !! w) as [device|] eqn:Hlw;
      try done; by apply Hclose.
  - done.
Qed.

Lemma run_keeps_registry evs st :
  registry_consistent verifyToken getUserById st ->
  registry_consistent verifyToken getUserById (run verifyToken getUserById evs st).
Proof.
  revert st. induction evs as [|ev evs IH]; intros st Hst; [done|].
  apply IH. by apply step_keeps_registry.
Qed.

(** In every reachable state the registry is consistent: each entry is
    filed under its own device id, routes to a socket whose listeners
    captured that record and whose close event has not fired (the socket is
    open, or closing since its peer started to close it), and belongs to a
    device that passed the token check of the upgrade handler. *)
Theorem reachable_registry_consistent st :
  reachable verifyToken getUserById st ->
  registry_consistent verifyToken getUserById st.
Proof.
  intros [evs ->]. apply run_keeps_registry.
  split; intros ? ?; simpl; by rewrite lookup_empty.
Qed.

End Admission.

Lemma reachable_registry_consistent_witness :
  let st := Scenario.run (Scenario.desktop_reconnects ++ [EvClosing 1%nat]) initial in
  devices st !! "D1" = Some (mkDevice 2 "U1" "D1" desktop "Desk" 5000) /\
  sockets st !! 0%nat = Some CLOSING /\
  sockets st !! 2%nat = Some OPEN /\
  devices st !! "M" = Some (mkDevice 1 "U1" "M" mobile "Phone" 2000) /\
  sockets st !! 1%nat = Some CLOSING /\
  registry_consistent Scenario.verifyToken Scenario.getUserById st.
Proof.
  intros st. do 5 (split; [vm_compute; reflexivity|]).
  apply (reachable_registry_consistent Scenario.verifyToken Scenario.getUserById st).
  by exists (Scenario.desktop_reconnects ++ [EvClosing 1%nat]).
Defined.

End RelayInvariants.

(** *** What the server puts on the wire *)

Module RelayWire.
Import Js JsFacts Relay RelayNotions RelayFacts RelayInvariants.

Lemma wire_grows_same P st st' : wire st' = wire st -> wire_grows P st st'.
Proof. intros H. exists []. by rewrite app_nil_r. Qed.

Lemma wire_grows_refl P st : wire_grows P st st.
Proof. by apply wire_grows_same. Qed.

Lemma wire_grows_trans P st1 st2 st3 :
  wire_grows P st1 st2 -> wire_grows P st2 st3 -> wire_grows P st1 st3.
Proof.
  intros (o1 & H1 & F1) (o2 & H2 & F2). exists (o1 ++ o2).
  rewrite H2, H1, app_assoc. split; [done|]. by apply Forall_app.
Qed.

Lemma kc_wire_grows st st' :
  keeps_connections st st' -> wire_grows is_replacement_close st st'.
Proof.
  intros (_ & _ & _ & out & Hw & Hout). exists out. split; [done|].
  eapply Forall_impl; [exact Hout|]. by intros a (w & f & ->).
Qed.

Lemma ws_close_replacement w st :
  wire_grows is_replacement_close st (ws_close w 1000 "Replaced by new connection" st).
Proof.
  unfold ws_close. destruct (sockets st !! w) as [[]|]; try apply wire_grows_refl.
  eexists [_]. split; [reflexivity|]. by apply Forall_singleton.
Qed.

Lemma on_connection_wire w user_id device_id device_type device_name now st :
  wire_grows is_replacement_close st
    (on_connection w user_id device_id device_type device_name now st).
Proof.
  unfold on_connection. cbv zeta.
  set (st0 := set_listeners _ _).
  set (st1 := match devices st0 !! device_id with Some _ => _ | None => _ end).
  assert (H1 : wire_grows is_replacement_close st st1).
  { subst st1. destruct (devices st0 !! device_id) as [existing|].
    - apply (wire_grows_trans _ st st0); [by apply wire_grows_same|].
      apply ws_close_replacement.
    - by apply wire_grows_same. }
  set (st2 := set_devices _ st1).
  assert (H2 : wire_grows is_replacement_close st st2) by exact H1.
  assert (H3 : wire_grows is_replacement_close st
                 (notifyPairedDevices device_id user_id FDeviceOnline st2)).
  { eapply wire_grows_trans; [exact H2|].
    apply kc_wire_grows, kc_notifyPairedDevices, kc_refl. }
  destruct device_type; [exact H3|].
  eapply wire_grows_trans; [exact H3|].
  apply kc_wire_grows. unfold sendDesktopList. apply kc_sendTo, kc_refl.
Qed.

Section Loop.
Variable verifyToken : string -> option string.
Variable getUserById : string -> bool.

Lemma step_wire st ev :
  wire_grows is_replacement_close st (step verifyToken getUserById st ev).
Proof.
  destruct ev as [req w now | w data now | w | w | now]; simpl.
  - destruct (sockets st !! w); [apply wire_grows_refl|].
    destruct (upgrade verifyToken getUserById req); try apply wire_grows_refl.
    apply on_connection_wire.
  - destruct (sockets st !! w) as [[]|], (listeners st !! w) as [device|];
      try apply wire_grows_refl; apply kc_wire_grows, kc_on_message.
  - destruct (sockets st !! w) as [[]|]; try apply wire_grows_refl.
    by apply wire_grows_same.
  - destruct (sockets st !! w) as [[]|], (listeners st !! w) as [device|];
      try apply wire_grows_refl;
      (unfold on_close; eapply wire_grows_trans;
       [| apply kc_wire_grows, kc_notifyPairedDevices, kc_refl];
       by apply wire_grows_same).
  - by apply wire_grows_same.
Qed.

(** The server never retracts what it sent, and the only sockets it ever
    closes are those of replaced connections: whatever the events, the wire
    only grows, and every close on it carries code 1000 and the reason
    [Replaced by new connection]. *)
Theorem server_closes_replaced_sockets_only evs st :
  exists out : list action,
    wire (run verifyToken getUserById evs st) = wire st ++ out /\
    Forall is_replacement_close out.
Proof.
  revert st. induction evs as [|ev evs IH]; intros st; [apply wire_grows_refl|].
  simpl. eapply wire_grows_trans; [apply step_wire | apply IH].
Qed.

End Loop.

End RelayWire.

(** *** Pairing offers: registration, expiry, sweep *)

Module RelayPairing.
Import Js JsFacts Relay RelayNotions RelayFacts.

Lemma strict_eq_true a b : strict_eq a b = true -> a = b.
Proof.
  destruct a, b; simpl; try done; by rewrite bool_decide_eq_true.
Qed.

Lemma pending_get_set_eq k e p :
  strict_eq k k = true -> pending_get k (pending_set k e p) = Some e.
Proof.
  intros Hk. induction p as [|[k0 e0] p IH]; simpl.
  - by rewrite Hk.
  - destruct (strict_eq k0 k) eqn:H0; simpl; by rewrite H0.
Qed.

Lemma pending_get_set_ne k k' e p :
  strict_eq k k' = false -> pending_get k' (pending_set k e p) = pending_get k' p.
Proof.
  intros Hk. induction p as [|[k0 e0] p IH]; simpl.
  - by rewrite Hk.
  - destruct (strict_eq k0 k) eqn:H0; simpl.
    + apply strict_eq_true in H0 as ->. by rewrite Hk.
    + destruct (strict_eq k0 k'); [done | exact IH].
Qed.

(** The offer a desktop's [register-pairing] frame stores. *)
Lemma register_stores device m now st :
  deviceType device = desktop ->
  truthy (m_pairingCode m) = true ->
  truthy (m_publicKey m) = true ->
  handleRegisterPairing device m now st
  = set_pendingPairings
      (pending_set (m_pairingCode m)
         (mkEntry (m_pairingCode m) (deviceId device) (m_publicKey m)
            (js_or (m_deviceName m) (JStr (deviceName device))) (userId device) now)
         (pendingPairings st)) st.
Proof.
  intros Hd Hc Hk. unfold handleRegisterPairing.
  rewrite bool_decide_true by done. by rewrite Hc, Hk.
Qed.

(** Registration and claim exchange the two public keys unchanged: after a
    desktop registered a code with its key, silently, a mobile of the same
    account that claims the code within five minutes is sent the desktop's
    id, name and key exactly as registered, the attached desktop is sent the
    mobile's key, id and name exactly as claimed, the relation of the two is
    recorded and the code is gone. *)
Theorem register_then_claim_exchanges_keys st D m t0 M m2 t1 code :
  deviceType D = desktop ->
  m_pairingCode m = JStr code -> code <> "" ->
  truthy (m_publicKey m) = true ->
  deviceType M = mobile ->
  userId M = userId D ->
  m_pairingCode m2 = JStr code ->
  truthy (m_publicKey m2) = true ->
  t1 - t0 <= PAIRING_TTL ->
  sockets st !! ws M = Some OPEN ->
  let st1 := handleRegisterPairing D m t0 st in
  let st2 := handleClaimPairing M m2 t1 st1 in
  wire st1 = wire st /\
  pending_get (JStr code) (pendingPairings st2) = None /\
  mkRelation (deviceId D) (deviceId M) (userId M) t1 ∈ pairedRelations st2 /\
  exists to_desktop : list action,
    sent_by st st2
    = to_desktop ++
      [Send (ws M)
         (FPairingAcceptedMobile (deviceId D)
            (js_or (m_deviceName m) (JStr (deviceName D))) (m_publicKey m))] /\
    forall attached,
      devices st !! deviceId D = Some attached ->
      sockets st !! ws attached = Some OPEN ->
      to_desktop
      = [Send (ws attached)
           (FPairingAcceptedDesktop (m_publicKey m2) (deviceId M) (deviceName M))].
Proof.
  intros HD Hcode Hne Hkey HM Huser Hcode2 Hkey2 Httl Hopen st1 st2.
  assert (Hc : truthy (m_pairingCode m) = true) by (rewrite Hcode; by apply truthy_str).
  assert (Hc2 : truthy (m_pairingCode m2) = true) by (rewrite Hcode2; by apply truthy_str).
  set (offer := mkEntry (m_pairingCode m) (deviceId D) (m_publicKey m)
                  (js_or (m_deviceName m) (JStr (deviceName D))) (userId D) t0).
  assert (E1 : st1 = set_pendingPairings
                       (pending_set (m_pairingCode m) offer (pendingPairings st)) st)
    by (by apply register_stores).
  assert (Hget : pending_get (m_pairingCode m2) (pendingPairings st1) = Some offer).
  { rewrite E1, Hcode2, Hcode. simpl. apply pending_get_set_eq.
    rewrite strict_eq_str. by apply bool_decide_eq_true. }
  assert (E2 : st2 = notify_claim M offer (m_publicKey m2) (claimed M m2 offer t1 st1)).
  { subst st2. by apply claim_accepted. }
  split; [by rewrite E1|].
  destruct (notify_claim_same_stores M offer (m_publicKey m2) (claimed M m2 offer t1 st1))
    as (_ & Hp & Hr & _).
  rewrite E2, Hp, Hr. split.
  { simpl. rewrite <- Hcode2. apply pending_get_delete. }
  split.
  { simpl. apply (link_adds offer M t1). }
  destruct (sent_by_notify_claim M offer (m_publicKey m2) (claimed M m2 offer t1 st1))
    as (out & Hout & Hdesk).
  { by rewrite E1. }
  exists out. split.
  - transitivity (sent_by (claimed M m2 offer t1 st1) st2);
      [|rewrite E2; exact Hout].
    assert (Hw : wire (claimed M m2 offer t1 st1) = wire st)
      by (unfold claimed; simpl; by rewrite E1).
    unfold sent_by. by rewrite Hw, <- E2.
  - intros attached Ha Ho. apply Hdesk; by rewrite E1.
Qed.

Lemma register_then_claim_exchanges_keys_witness :
  let st := Scenario.run (take 3 Scenario.offer_pending) initial in
  let st1 := handleRegisterPairing Scenario.D1
               (register_pairing_frame (JStr "C3") (JStr "KD") JUndefined) 3000 st in
  let st2 := handleClaimPairing Scenario.M1
               (claim_pairing_frame (JStr "C3") (JStr "K1")) 4000 st1 in
  sent_by st st2
  = [Send 0%nat (FPairingAcceptedDesktop (JStr "K1") "M1" "Phone1");
     Send 2%nat (FPairingAcceptedMobile "D1" (JStr "Desk") (JStr "KD"))].
Proof.
  intros st st1 st2.
  destruct (register_then_claim_exchanges_keys st Scenario.D1
              (register_pairing_frame (JStr "C3") (JStr "KD") JUndefined) 3000
              Scenario.M1 (claim_pairing_frame (JStr "C3") (JStr "K1")) 4000 "C3")
    as (_ & _ & _ & out & Hout & Hdesk);
    [try (vm_compute; reflexivity); try discriminate .. |].
  fold st1 st2 in Hout. rewrite Hout.
  by rewrite (Hdesk Scenario.D1) by reflexivity.
Defined.

(** The last registration of a code wins: a desktop's [register-pairing]
    replaces whatever offer was pending under that code, also one of a
    desktop of another account, and touches no offer under another code;
    the mobile of the earlier account is then turned away. *)
Theorem register_replaces_pending_offer st D m now code :
  deviceType D = desktop ->
  m_pairingCode m = JStr code -> code <> "" ->
  truthy (m_publicKey m) = true ->
  let st' := handleRegisterPairing D m now st in
  pending_get (JStr code) (pendingPairings st')
  = Some (mkEntry (JStr code) (deviceId D) (m_publicKey m)
            (js_or (m_deviceName m) (JStr (deviceName D))) (userId D) now) /\
  (forall other, strict_eq (JStr code) other = false ->
     pending_get other (pendingPairings st') = pending_get other (pendingPairings st)) /\
  (forall claimer m2 t,
     m_pairingCode m2 = JStr code ->
     userId claimer <> userId D ->
     sockets st !! ws claimer = Some OPEN ->
     exists e, handleClaimPairing claimer m2 t st' = emit (Send (ws claimer) (FError e)) st').
Proof.
  intros HD Hcode Hne Hkey st'.
  assert (Hc : truthy (m_pairingCode m) = true) by (rewrite Hcode; by apply truthy_str).
  assert (E : st' = set_pendingPairings
                      (pending_set (m_pairingCode m)
                         (mkEntry (m_pairingCode m) (deviceId D) (m_publicKey m)
                            (js_or (m_deviceName m) (JStr (deviceName D))) (userId D) now)
                         (pendingPairings st)) st)
    by (by apply register_stores).
  assert (Hget : pending_get (JStr code) (pendingPairings st')
                 = Some (mkEntry (JStr code) (deviceId D) (m_publicKey m)
                           (js_or (m_deviceName m) (JStr (deviceName D))) (userId D) now)).
  { rewrite E, Hcode. simpl. apply pending_get_set_eq.
    rewrite strict_eq_str. by apply bool_decide_eq_true. }
  split; [exact Hget|]. split.
  - intros other Hother. rewrite E, Hcode. simpl. by apply pending_get_set_ne.
  - intros claimer m2 t Hcode2 Huser Hopen.
    apply claim_rejected_without_trace; [by rewrite E|].
    rewrite Hcode2, Hget. simpl. congruence.
Qed.

Lemma register_replaces_pending_offer_witness :
  let st := Scenario.run Scenario.offer_pending initial in
  let st' := handleRegisterPairing Scenario.X
               (register_pairing_frame (JStr "C3") (JStr "KX") JUndefined) 3500 st in
  pending_get (JStr "C3") (pendingPairings st) = Some Scenario.offer_C3 /\
  pending_get (JStr "C3") (pendingPairings st')
  = Some (mkEntry (JStr "C3") "X" (JStr "KX") (JStr "Other") "U2" 3500) /\
  exists e, handleClaimPairing Scenario.M1 (claim_pairing_frame (JStr "C3") (JStr "K1")) 4000 st'
            = emit (Send 2%nat (FError e)) st'.
Proof.
  intros st st'. split; [vm_compute; reflexivity|].
  destruct (register_replaces_pending_offer st Scenario.X
              (register_pairing_frame (JStr "C3") (JStr "KX") JUndefined) 3500 "C3")
    as (Hget & _ & Hclaim); [try (vm_compute; reflexivity); try discriminate .. |].
  split; [exact Hget|].
  apply (Hclaim Scenario.M1); [reflexivity | discriminate | vm_compute; reflexivity].
Defined.

(** A claim that comes more than five minutes after the registration is
    answered with [Pairing code expired] and consumes the offer: no relation
    is recorded and nothing is sent to the desktop.  At exactly five minutes
    the claim still succeeds. *)
Theorem claim_after_ttl_removes_offer st M m now entry :
  deviceType M = mobile ->
  truthy (m_pairingCode m) = true ->
  truthy (m_publicKey m) = true ->
  pending_get (m_pairingCode m) (pendingPairings st) = Some entry ->
  e_userId entry = userId M ->
  sockets st !! ws M = Some OPEN ->
  let st' := handleClaimPairing M m now st in
  (PAIRING_TTL < now - createdAt entry ->
   st' = emit (Send (ws M) (FError (Lit "Pairing code expired")))
           (set_pendingPairings (pending_delete (m_pairingCode m) (pendingPairings st)) st) /\
   pending_get (m_pairingCode m) (pendingPairings st') = None /\
   pairedRelations st' = pairedRelations st) /\
  (now - createdAt entry = PAIRING_TTL ->
   mkRelation (e_desktopId entry) (deviceId M) (userId M) now ∈ pairedRelations st').
Proof.
  intros HM Hc Hk Hget Hu Hopen st'. split.
  - intros Hlate. subst st'. unfold handleClaimPairing.
    rewrite bool_decide_true by done. rewrite Hc, Hk, Hget. simpl.
    rewrite bool_decide_true by done. simpl.
    destruct (now - createdAt entry >? PAIRING_TTL) eqn:Hgt;
      [|rewrite Z.gtb_ltb, Z.ltb_ge in Hgt; lia].
    rewrite sendTo_open by done. simpl.
    split; [done|]. split; [apply pending_get_delete | done].
  - intros Hedge. subst st'. rewrite (claim_accepted st M m now entry) by (done || lia).
    destruct (notify_claim_same_stores M entry (m_publicKey m) (claimed M m entry now st))
      as (_ & _ & -> & _).
    simpl. apply link_adds.
Qed.

Lemma claim_after_ttl_removes_offer_witness :
  let st := Scenario.run Scenario.offer_pending initial in
  let late := handleClaimPairing Scenario.M1 (claim_pairing_frame (JStr "C3") (JStr "K1"))
                303001 st in
  sent_by st late = [Send 2%nat (FError (Lit "Pairing code expired"))] /\
  pendingPairings late = [] /\ pairedRelations late = [].
Proof.
  intros st late.
  destruct (claim_after_ttl_removes_offer st Scenario.M1
              (claim_pairing_frame (JStr "C3") (JStr "K1")) 303001 Scenario.offer_C3)
    as [Hlate _]; [vm_compute; reflexivity .. |].
  destruct Hlate as (E & _ & _); [reflexivity|].
  fold st late in E. rewrite E. vm_compute. exact (conj eq_refl (conj eq_refl eq_refl)).
Defined.

(** The sweep keeps exactly the offers that are at most five minutes old, in
    their order; it touches nothing else, and a second sweep at the same
    time changes nothing. *)
Theorem sweep_drops_expired_offers now st :
  let st' := sweep now st in
  (forall ke, ke ∈ pendingPairings st' <->
              ke ∈ pendingPairings st /\ now - createdAt ke.2 <= PAIRING_TTL) /\
  pendingPairings st' `sublist_of` pendingPairings st /\
  devices st' = devices st /\ pairedRelations st' = pairedRelations st /\
  sockets st' = sockets st /\ wire st' = wire st /\
  sweep now st' = st'.
Proof.
  intros st'. subst st'. unfold sweep. simpl.
  assert (Hmem : forall ke, ke ∈ List.filter
                    (fun ke => negb (now - createdAt ke.2 >? PAIRING_TTL))
                    (pendingPairings st)
                 <-> ke ∈ pendingPairings st /\ now - createdAt ke.2 <= PAIRING_TTL).
  { intros ke. rewrite !list_elem_of_In, filter_In, negb_true_iff, Z.gtb_ltb, Z.ltb_ge.
    reflexivity. }
  split; [exact Hmem|]. clear Hmem. split.
  { induction (pendingPairings st) as [|ke p IH]; simpl; [constructor|].
    destruct (negb (now - createdAt ke.2 >? PAIRING_TTL));
      [by apply sublist_skip | by apply sublist_cons]. }
  repeat (split; [done|]).
  unfold set_pendingPairings. simpl. f_equal.
  induction (pendingPairings st) as [|ke p IH]; simpl; [done|].
  destruct (negb (now - createdAt ke.2 >? PAIRING_TTL)) eqn:Hk; simpl; [|exact IH].
  by rewrite Hk, IH.
Qed.

End RelayPairing.


(** *** Pair records: uniqueness and revocation *)

Module RelayRelations.
Import Js JsFacts Relay RelayNotions RelayFacts RelayInvariants.

Lemma rel_sendTo w f st : pairedRelations (sendTo w f st) = pairedRelations st.
Proof. by destruct (sendTo_same_stores w f st) as (_ & _ & -> & _). Qed.

(** A frame leaves the pair records alone, links the sender to the desktop
    of an offer, or removes the first record joining the sender and the
    named target. *)
Lemma handleMessage_relations device m now st :
  pairedRelations (handleMessage device m now st) = pairedRelations st \/
  (exists entry,
     pairedRelations (handleMessage device m now st)
     = link entry device now (pairedRelations st)) \/
  pairedRelations (handleMessage device m now st)
  = remove_first (covers (deviceId device) (m_targetDeviceId m)) (pairedRelations st).
Proof.
  unfold handleMessage, handleRegisterPairing, handleClaimPairing, notify_claim,
    handleRelay, handleRevokePairing, handleControlRequest, handleControlAck,
    handleControlRevoked.
  cbv zeta. repeat case_match; rewrite ?rel_sendTo; simpl; eauto.
Qed.

Lemma remove_first_sublist {A} (p : A -> bool) l : remove_first p l `sublist_of` l.
Proof.
  induction l as [|x l IH]; simpl; [constructor|].
  destruct (p x); [by apply sublist_cons | by apply sublist_skip].
Qed.

Lemma remove_first_key_gone {A K} (key : A -> K) (p : A -> bool) (k : K) l :
  (forall x, p x = true <-> key x = k) ->
  NoDup (key <$> l) -> k ∉ key <$> remove_first p l.
Proof.
  intros Hp. induction l as [|x l IH]; simpl; [intros _; apply not_elem_of_nil|].
  rewrite NoDup_cons. intros [Hx Hl]. destruct (p x) eqn:Hpx.
  - apply Hp in Hpx. by rewrite <- Hpx.
  - simpl. rewrite not_elem_of_cons. split; [|by apply IH].
    intros Hk. symmetry in Hk. apply Hp in Hk. congruence.
Qed.

Lemma link_keeps_unique entry device now rels :
  NoDup (pair_key <$> rels) -> NoDup (pair_key <$> link entry device now rels).
Proof.
  intros Hnd. unfold link. rewrite fmap_app. apply NoDup_app. split; [|split].
  - eapply sublist_NoDup; [exact Hnd | apply fmap_sublist, remove_first_sublist].
  - intros k Hk Hnew. simpl in Hnew. apply list_elem_of_singleton in Hnew. subst k.
    revert Hk. apply (remove_first_key_gone pair_key); [|exact Hnd].
    intros r. unfold pair_key. simpl.
    rewrite andb_true_iff, !bool_decide_eq_true. split; [intros [-> ->]; done|].
    intros [= -> ->]. done.
  - simpl. apply NoDup_singleton.
Qed.

Section Loop.
Variable verifyToken : string -> option string.
Variable getUserById : string -> bool.

Lemma step_keeps_unique st ev :
  NoDup (pair_key <$> pairedRelations st) ->
  NoDup (pair_key <$> pairedRelations (step verifyToken getUserById st ev)).
Proof.
  intros Hnd. destruct ev as [req w now | w data now | w | w | now]; simpl.
  - destruct (sockets st !! w); [done|].
    destruct (upgrade verifyToken getUserById req); try done.
    by destruct (on_connection_stores w user_id device_id device_type device_name now st)
      as (_ & _ & _ & -> & _).
  - assert (H : forall device,
               NoDup (pair_key <$> pairedRelations (on_message device data now st))).
    { intros device. destruct data as [|m]; simpl; [by rewrite rel_sendTo|].
      destruct (handleMessage_relations device m now st) as [-> | [[entry ->] | ->]].
      - done.
      - by apply link_keeps_unique.
      - eapply sublist_NoDup; [exact Hnd | apply fmap_sublist, remove_first_sublist]. }
    destruct (sockets st !! w) as [[]|], (listeners st !! w) as [device|]; by try apply H.
  - by destruct (sockets st !! w) as [[]|].
  - assert (H : forall device st0,
               pairedRelations st0 = pairedRelations st ->
               NoDup (pair_key <$> pairedRelations (on_close device st0))).
    { intros device st0 H0.
      destruct (on_close_stores device st0) as (_ & _ & _ & -> & _). by rewrite H0. }
    destruct (sockets st !! w) as [[]|], (listeners st !! w) as [device|]; by try apply H.
  - done.
Qed.

(** The server keeps at most one record per pair of a desktop id and a
    mobile id: pairing the same two devices again replaces their record
    whatever events come in between. *)
Theorem pair_records_unique evs :
  NoDup (pair_key <$> pairedRelations (run verifyToken getUserById evs initial)).
Proof.
  assert (H : forall st, NoDup (pair_key <$> pairedRelations st) ->
                         NoDup (pair_key <$> pairedRelations
                                  (run verifyToken getUserById evs st))).
  { induction evs as [|ev evs IH]; intros st Hst; [done|].
    unfold run. simpl. by apply IH, step_keeps_unique. }
  apply H. simpl. apply NoDup_nil_2.
Qed.

End Loop.

Lemma remove_first_last_one {A} (p : A -> bool) l :
  length (List.filter p l) = 1%nat ->
  existsb p (remove_first p l) = false /\
  forall x, x ∈ remove_first p l <-> x ∈ l /\ p x = false.
Proof.
  induction l as [|x l IH]; simpl; [done|].
  destruct (p x) eqn:Hpx; simpl.
  - intros [= Hlen]. apply length_zero_iff_nil in Hlen.
    assert (Hall : forall y, y ∈ l -> p y = false).
    { intros y Hy. destruct (p y) eqn:Hpy; [|done].
      assert (Hin : In y (List.filter p l)) by (by apply filter_In, conj; [apply list_elem_of_In|]).
      by rewrite Hlen in Hin. }
    split.
    + apply not_true_is_false. rewrite existsb_exists. intros (y & Hy & Hpy).
      apply list_elem_of_In, Hall in Hy. congruence.
    + intros y. rewrite elem_of_cons. split; [by auto|].
      intros [[-> | Hy] Hpy]; [congruence | done].
  - intros Hlen. destruct (IH Hlen) as [Hex Hmem]. rewrite Hpx. split; [done|].
    intros y. rewrite !elem_of_cons, Hmem. split.
    + intros [-> | [Hy Hpy]]; auto.
    + intros [[-> | Hy] Hpy]; auto.
Qed.

Lemma existsb_pointwise {A} (p q : A -> bool) l :
  (forall x, p x = q x) -> existsb p l = existsb q l.
Proof. intros H. induction l as [|x l IH]; simpl; [done|]. by rewrite H, IH. Qed.

Lemma covers_sym a b r : covers a (JStr b) r = covers b (JStr a) r.
Proof.
  unfold covers. rewrite !strict_eq_str.
  rewrite (orb_comm (_ && _)). f_equal; rewrite andb_comm; done.
Qed.

(** When one record joins a device and the target it names, a
    [revoke-pairing] frame removes that record and no other, tells the
    attached target and nobody else, and ends the forwarding between the
    two: a later [relay] frame in either direction is answered with an
    error.  The account of the revoking connection plays no part. *)
Theorem revoke_ends_forwarding st A m B :
  m_targetDeviceId m = JStr B -> B <> "" ->
  length (List.filter (covers (deviceId A) (JStr B)) (pairedRelations st)) = 1%nat ->
  let st' := handleRevokePairing A m st in
  (forall r, r ∈ pairedRelations st' <->
             r ∈ pairedRelations st /\ covers (deviceId A) (JStr B) r = false) /\
  devices st' = devices st /\ pendingPairings st' = pendingPairings st /\
  sent_by st st'
  = match devices st !! B with
    | Some target =>
        if bool_decide (sockets st !! ws target = Some OPEN)
        then [Send (ws target) (FPairingRevoked (deviceId A))] else []
    | None => []
    end /\
  (forall m2, m_to m2 = JStr B -> truthy (m_payload m2) = true ->
     sockets st !! ws A = Some OPEN ->
     handleRelay A m2 st'
     = emit (Send (ws A) (FError (Lit "Not paired with target device"))) st') /\
  (forall peer m2, deviceId peer = B -> m_to m2 = JStr (deviceId A) ->
     sockets st !! ws peer = Some OPEN ->
     exists e, handleRelay peer m2 st' = emit (Send (ws peer) (FError e)) st').
Proof.
  intros Htarget HB Hone st'.
  destruct (remove_first_last_one _ _ Hone) as [Hgone Hmem].
  assert (Hex : existsb (covers (deviceId A) (JStr B)) (pairedRelations st) = true).
  { destruct (List.filter _ _) as [|r l] eqn:Hf; [done|].
    apply existsb_exists. exists r.
    assert (Hin : In r (List.filter (covers (deviceId A) (JStr B)) (pairedRelations st)))
      by (rewrite Hf; by left).
    by apply filter_In in Hin. }
  set (st1 := set_pairedRelations
                (remove_first (covers (deviceId A) (JStr B)) (pairedRelations st)) st).
  assert (E : st' = match devices st !! B with
                    | Some target => sendTo (ws target) (FPairingRevoked (deviceId A)) st1
                    | None => st1
                    end).
  { subst st'. unfold handleRevokePairing. rewrite Htarget.
    rewrite (proj2 (truthy_str B) HB). simpl. by rewrite Hex. }
  assert (Hsame : same_stores st1 st').
  { rewrite E. destruct (devices st !! B); [apply sendTo_same_stores | by repeat split]. }
  destruct Hsame as (Hd & Hp & Hr & Hs & Hl).
  split; [rewrite Hr; exact Hmem|]. split; [by rewrite Hd|]. split; [by rewrite Hp|].
  split; [|split].
  - rewrite E.
    assert (Hst1 : forall x, sent_by st x = sent_by st1 x) by done.
    rewrite Hst1.
    destruct (devices st !! B) as [target|]; [|apply sent_by_refl].
    unfold sendTo. change (sockets st1) with (sockets st).
    destruct (sockets st !! ws target) as [[]|] eqn:Hsock; simpl;
      try apply sent_by_refl. apply sent_by_emit.
  - intros m2 Hto Hpay Hopen. unfold handleRelay.
    rewrite Hto, Hpay, (proj2 (truthy_str B) HB), Hr. simpl. rewrite Hgone. simpl.
    apply sendTo_open. by rewrite Hs.
  - intros peer m2 <- Hto Hopen. unfold handleRelay. rewrite Hto, Hr. simpl.
    assert (Hgone' : existsb (covers (deviceId peer) (JStr (deviceId A)))
                       (remove_first (covers (deviceId A) (JStr (deviceId peer)))
                          (pairedRelations st)) = false).
    { rewrite <- Hgone. apply existsb_pointwise. intros r. apply covers_sym. }
    rewrite Hgone'. simpl.
    destruct (_ || _); (rewrite sendTo_open by (by rewrite Hs)); eauto.
Qed.

Lemma revoke_ends_forwarding_witness :
  let st := Scenario.run Scenario.paired initial in
  let st' := handleRevokePairing Scenario.M (revoke_pairing_frame (JStr "D1")) st in
  pairedRelations st = [mkRelation "D1" "M" "U1" 4000] /\
  sent_by st st' = [Send 0%nat (FPairingRevoked "M")] /\
  handleRelay Scenario.D1 (relay_frame (JStr "M") (JStr "payload") (JNum 0)) st
  = emit (Send 1%nat (FRelay "D1" (JStr "payload") (JNum 0))) st /\
  exists e,
    handleRelay Scenario.D1 (relay_frame (JStr "M") (JStr "payload") (JNum 0)) st'
    = emit (Send 0%nat (FError e)) st'.
Proof.
  intros st st'. split; [vm_compute; reflexivity|].
  destruct (revoke_ends_forwarding st Scenario.M (revoke_pairing_frame (JStr "D1")) "D1")
    as (_ & _ & _ & Hsent & _ & Hback);
    [reflexivity | discriminate | vm_compute; reflexivity |].
  split; [exact Hsent|]. split; [vm_compute; reflexivity|].
  apply (Hback Scenario.D1); [reflexivity | reflexivity | vm_compute; reflexivity].
Defined.

End RelayRelations.


(** *** Presence: notifications and the desktop list *)

Module RelayPresence.
Import Js JsFacts Relay RelayNotions RelayPresenceNotions RelayFacts RelayInvariants.

Lemma omap_cons_eq {A B} (f : A -> option B) x l :
  omap f (x :: l) = match f x with Some y => y :: omap f l | None => omap f l end.
Proof. done. Qed.

Lemma notify_wire device_id user_id ev st :
  wire (notifyPairedDevices device_id user_id ev st)
  = wire st ++ omap (notification device_id user_id ev st) (pairedRelations st).
Proof.
  unfold notifyPairedDevices.
  assert (H : forall rels acc,
             devices acc = devices st -> sockets acc = sockets st ->
             wire (fold_left
                     (fun acc rel =>
                        if negb (bool_decide (r_userId rel = user_id)) then acc
                        else match notify_target rel device_id with
                             | Some targetId =>
                                 match devices acc !! targetId with
                                 | Some target => sendTo (ws target) (ev device_id) acc
                                 | None => acc
                                 end
                             | None => acc
                             end) rels acc)
             = wire acc ++ omap (notification device_id user_id ev st) rels).
  { induction rels as [|rel rels IH]; intros acc Hd Hs; [simpl; by rewrite app_nil_r|].
    cbn [fold_left]. rewrite omap_cons_eq. unfold notification at 1.
    destruct (bool_decide (r_userId rel = user_id)); cbn [negb]; [|by apply IH].
    destruct (notify_target rel device_id) as [targetId|]; [|by apply IH].
    rewrite Hd. destruct (devices st !! targetId) as [target|]; [|by apply IH].
    unfold sendTo. rewrite Hs.
    destruct (sockets st !! ws target) as [[]|] eqn:Hsock;
      rewrite ?bool_decide_true by done; rewrite ?bool_decide_false by done;
      rewrite IH by done; try done.
    simpl. by rewrite <- app_assoc. }
  by apply H.
Qed.

Lemma notification_spec device_id user_id ev st rel a :
  notification device_id user_id ev st rel = Some a <->
  exists peer_id peer,
    r_userId rel = user_id /\
    notify_target rel device_id = Some peer_id /\
    devices st !! peer_id = Some peer /\
    sockets st !! ws peer = Some OPEN /\
    a = Send (ws peer) (ev device_id).
Proof.
  unfold notification. split.
  - intros Hn. repeat case_match; try done. simplify_eq.
    do 2 eexists. repeat split; try done; by eapply bool_decide_eq_true_1.
  - intros (peer_id & peer & Hu & Ht & Hd & Hs & ->).
    rewrite (bool_decide_true _ Hu), Ht, Hd. by rewrite bool_decide_true.
Qed.

(** A presence notification about a device changes no store and sends
    exactly this list of frames: the pair records are gone through in their
    order, and each record of the notifying account that joins the device to
    a peer which is attached with an open socket gives one frame, on that
    socket; every other record gives none.  So a peer joined by several such
    records is sent the frame once per record, and the frames sent are those
    to the peers so joined. *)
Theorem notification_reaches_paired_peers device_id user_id ev st :
  let st' := notifyPairedDevices device_id user_id ev st in
  same_stores st st' /\
  sent_by st st' = omap (notification device_id user_id ev st) (pairedRelations st) /\
  (forall rel a,
     notification device_id user_id ev st rel = Some a <->
     exists peer_id peer,
       r_userId rel = user_id /\
       notify_target rel device_id = Some peer_id /\
       devices st !! peer_id = Some peer /\
       sockets st !! ws peer = Some OPEN /\
       a = Send (ws peer) (ev device_id)) /\
  length (sent_by st st')
  = length (filter (fun rel => is_Some (notification device_id user_id ev st rel))
              (pairedRelations st)) /\
  forall a, a ∈ sent_by st st' <->
    exists rel peer_id peer,
      rel ∈ pairedRelations st /\ r_userId rel = user_id /\
      notify_target rel device_id = Some peer_id /\
      devices st !! peer_id = Some peer /\
      sockets st !! ws peer = Some OPEN /\
      a = Send (ws peer) (ev device_id).
Proof.
  intros st'. split; [apply notify_same_stores|].
  assert (E : sent_by st st'
              = omap (notification device_id user_id ev st) (pairedRelations st)).
  { subst st'. unfold sent_by. by rewrite notify_wire, drop_app_length. }
  split; [exact E|]. split; [intros rel a; apply notification_spec|].
  split.
  { rewrite E. clear E. induction (pairedRelations st) as [|rel rels IH]; [done|].
    rewrite omap_cons_eq, filter_cons.
    destruct (notification device_id user_id ev st rel) as [a|].
    - rewrite decide_True by (by eexists). simpl. by rewrite IH.
    - rewrite decide_False by apply is_Some_None. exact IH. }
  intros a. rewrite E, list_elem_of_omap. split.
  - intros (rel & Hrel & Hn). apply notification_spec in Hn.
    destruct Hn as (peer_id & peer & Hn). exists rel, peer_id, peer. tauto.
  - intros (rel & peer_id & peer & Hrel & Hn).
    exists rel. split; [done|]. apply notification_spec. by exists peer_id, peer.
Qed.

(** When a device of another account than the one of the record attaches
    under a paired id, the peer is not notified. *)
Lemma notify_other_account_silent device_id user_id ev st :
  (forall rel, rel ∈ pairedRelations st -> r_userId rel <> user_id) ->
  wire (notifyPairedDevices device_id user_id ev st) = wire st.
Proof.
  intros H. rewrite notify_wire.
  assert (E : omap (notification device_id user_id ev st) (pairedRelations st) = []).
  { induction (pairedRelations st) as [|rel rels IH]; [done|]. simpl.
    unfold notification at 1. rewrite bool_decide_false by (apply H; left).
    apply IH. intros r Hr. apply H. by right. }
  by rewrite E, app_nil_r.
Qed.

Lemma desktop_list_items user_id rels seen devs :
  let items := desktop_list user_id rels seen devs in
  NoDup (item_id <$> items) /\
  (forall id, id ∈ item_id <$> items <->
     (id ∉ seen) /\ exists rel, rel ∈ rels /\ r_userId rel = user_id /\ desktopId rel = id) /\
  (forall id name online, (id, name, online) ∈ items ->
     match devs !! id with
     | Some d => online = true /\
                 name = (if bool_decide (deviceName d = "") then "Unknown" else deviceName d)
     | None => online = false /\ name = "Unknown"
     end).
Proof.
  revert seen. induction rels as [|rel rels IH]; intros seen; simpl.
  { split; [constructor|]. split.
    - intros id. split; [by intros ?%elem_of_nil|].
      by intros (_ & rel & ?%elem_of_nil & _).
    - by intros id name online ?%elem_of_nil. }
  destruct (bool_decide (r_userId rel = user_id)) eqn:Hu; simpl.
  2: { apply bool_decide_eq_false in Hu.
       destruct (IH seen) as (Hnd & Hids & Hitems). split; [done|]. split; [|done].
       intros id. rewrite Hids. split.
       - intros (Hs & r & Hr & Hru & Hrd). split; [done|]. exists r. by rewrite elem_of_cons; auto.
       - intros (Hs & r & Hr & Hru & Hrd). split; [done|]. exists r.
         apply elem_of_cons in Hr as [-> | Hr]; [done | auto]. }
  apply bool_decide_eq_true in Hu.
  destruct (bool_decide (desktopId rel ∈ seen)) eqn:Hseen.
  { apply bool_decide_eq_true in Hseen.
    destruct (IH seen) as (Hnd & Hids & Hitems). split; [done|]. split; [|done].
    intros id. rewrite Hids. split.
    - intros (Hs & r & Hr & Hru & Hrd). split; [done|]. exists r. by rewrite elem_of_cons; auto.
    - intros (Hs & r & Hr & Hru & Hrd). split; [done|]. exists r.
      apply elem_of_cons in Hr as [-> | Hr]; [congruence | auto]. }
  apply bool_decide_eq_false in Hseen.
  destruct (IH (desktopId rel :: seen)) as (Hnd & Hids & Hitems).
  set (item := match devs !! desktopId rel with Some _ => _ | None => _ end).
  assert (Hid : item_id item = desktopId rel)
    by (subst item; by destruct (devs !! desktopId rel)).
  split; [|split].
  - rewrite fmap_cons, Hid. apply NoDup_cons. split; [|done].
    rewrite Hids. intros [Hs _]. apply Hs. by left.
  - intros id. rewrite fmap_cons, Hid, elem_of_cons, Hids. split.
    + intros [-> | (Hs & r & Hr & Hru & Hrd)].
      * split; [done|]. exists rel. split; [by left | done].
      * split; [by intros ?; apply Hs; right|]. exists r. split; [by right | done].
    + intros (Hs & r & Hr & Hru & Hrd).
      destruct (decide (id = desktopId rel)) as [-> | Hne]; [by left | right].
      split; [by intros [?|?]%elem_of_cons|]. exists r.
      apply elem_of_cons in Hr as [-> | Hr]; [congruence | done].
  - intros id name online [Heq | Hin]%elem_of_cons; [|by eapply Hitems].
    subst item. destruct (devs !! desktopId rel) as [d|] eqn:Hd; simplify_eq; by rewrite Hd.
Qed.

Section Admission.
Variable verifyToken : string -> option string.
Variable getUserById : string -> bool.

(** A mobile that is admitted on a new socket is sent, last of all the
    frames of its admission, the list of the desktops of its account: every
    desktop id that a record of the account names, each once, marked online
    iff the registry holds it, offline desktops under the name [Unknown]. *)
Theorem admitted_mobile_receives_desktop_list st req w now user_id device_id device_name :
  reachable verifyToken getUserById st ->
  sockets st !! w = None ->
  upgrade verifyToken getUserById req = Upgraded user_id device_id mobile device_name ->
  exists before items,
    sent_by st (step verifyToken getUserById st (EvUpgrade req w now))
    = before ++ [Send w (FDeviceList items)] /\
    NoDup (item_id <$> items) /\
    (forall id, id ∈ item_id <$> items <->
       exists rel, rel ∈ pairedRelations st /\ r_userId rel = user_id /\ desktopId rel = id) /\
    (forall id name online, (id, name, online) ∈ items ->
       online = bool_decide (is_Some (devices st !! id) \/ id = device_id)).
Proof.
  intros [evs ->] Hfresh Hup.
  set (st := run verifyToken getUserById evs initial) in *.
  assert (Hreg : registry_consistent verifyToken getUserById st).
  { apply run_keeps_registry. split; intros ? ?; simpl; by rewrite lookup_empty. }
  simpl. rewrite Hfresh, Hup. unfold on_connection. cbv zeta.
  set (device := mkDevice w user_id device_id mobile device_name now).
  set (st0 := set_listeners _ _).
  set (st1 := match devices st0 !! device_id with Some _ => _ | None => _ end).
  set (st2 := set_devices _ st1).
  set (st3 := notifyPairedDevices device_id user_id FDeviceOnline st2).
  assert (Hw0 : wire st0 = wire st) by done.
  assert (H1 : exists out1, wire st1 = wire st ++ out1 /\ sockets st1 !! w = Some OPEN /\
                            devices st1 = devices st /\
                            pairedRelations st1 = pairedRelations st).
  { subst st1. change (devices st0) with (devices st).
    destruct (devices st !! device_id) as [existing|] eqn:Hex.
    - destruct Hreg as [_ Hdev]. destruct (Hdev _ _ Hex) as (_ & _ & Hopen).
      assert (Hne : ws existing <> w)
        by (intros Heq; rewrite Heq in Hopen; destruct Hopen; congruence).
      unfold ws_close.
      destruct (sockets st0 !! ws existing) as [[]|];
        [|exists []; rewrite app_nil_r; repeat split; try done;
          simpl; apply lookup_insert_eq ..].
      eexists [_]. repeat split; try done. simpl.
      rewrite lookup_insert_ne by done. apply lookup_insert_eq.
    - exists []. rewrite app_nil_r. repeat split; try done. simpl. apply lookup_insert_eq. }
  destruct H1 as (out1 & Hw1 & Hs1 & Hd1 & Hr1).
  destruct (notify_same_stores device_id user_id FDeviceOnline st2)
    as (Hd3 & _ & Hr3 & Hs3 & _). fold st3 in Hd3, Hr3, Hs3.
  unfold sendDesktopList, sendTo. rewrite Hs3. simpl. rewrite Hs1.
  exists (out1 ++ omap (notification device_id user_id FDeviceOnline st2) (pairedRelations st2)).
  exists (desktop_list user_id (pairedRelations st3) [] (devices st3)).
  destruct (desktop_list_items user_id (pairedRelations st3) [] (devices st3))
    as (Hnd & Hids & Hitems).
  split; [|split; [done|split]].
  - unfold sent_by. simpl. subst st3. rewrite notify_wire. simpl. rewrite Hw1.
    rewrite <- !app_assoc. by rewrite drop_app_length.
  - intros id. rewrite Hids, Hr3. simpl. rewrite Hr1. split; [by intros [_ ?]|].
    intros ?. split; [apply not_elem_of_nil | done].
  - intros id name online Hin. specialize (Hitems _ _ _ Hin).
    rewrite Hd3 in Hitems. simpl in Hitems. rewrite Hd1 in Hitems.
    destruct (decide (id = device_id)) as [-> | Hne].
    + rewrite lookup_insert_eq in Hitems. destruct Hitems as [-> _].
      symmetry. apply bool_decide_eq_true. by right.
    + rewrite lookup_insert_ne in Hitems by done.
      destruct (devices st !! id) as [d|]; destruct Hitems as [-> _]; symmetry.
      * apply bool_decide_eq_true. left. by eexists.
      * apply bool_decide_eq_false. intros [[? ?] | ?]; done.
Qed.

End Admission.

Lemma admitted_mobile_receives_desktop_list_witness :
  let st := Scenario.run Scenario.paired initial in
  let req := connect_request "token-U1" "mobile" "M9" "Tablet" in
  exists before items,
    sent_by st (step Scenario.verifyToken Scenario.getUserById st (EvUpgrade req 5%nat 6000))
    = before ++ [Send 5%nat (FDeviceList items)] /\
    items = [("D1", "Desk", true)].
Proof.
  intros st req.
  destruct (admitted_mobile_receives_desktop_list Scenario.verifyToken Scenario.getUserById
              st req 5%nat 6000 "U1" "M9" "Tablet")
    as (before & items & Hsent & _);
    [by exists Scenario.paired | vm_compute; reflexivity | vm_compute; reflexivity |].
  exists before, items. split; [exact Hsent|].
  assert (Hlast : last (before ++ [Send 5%nat (FDeviceList items)])
                  = Some (Send 5%nat (FDeviceList [("D1", "Desk", true)])))
    by (rewrite <- Hsent; vm_compute; reflexivity).
  rewrite last_snoc in Hlast. congruence.
Defined.

End RelayPresence.


(** * Further properties of the control state machine *)

Module RemoteControlMore.
Import Js RemoteControl RemoteControlNotions RemoteControlFacts.

Lemma run_controller_known inputs rc :
  controller_known rc -> controller_known (fold_left fsm_step inputs rc).
Proof.
  revert rc. induction inputs as [|i inputs IH]; intros rc H; [done|].
  cbn [fold_left]. by apply IH, fsm_step_controller_known.
Qed.

(** The controller reference goes with the mode in every state the object
    can reach: no controller while the desktop is unlocked, and the id and
    the name of one device while it is locked or being unlocked. *)
Theorem controller_goes_with_mode inputs :
  let rc := fold_left fsm_step inputs create in
  if isLocked rc
  then is_Some (controllingDeviceId (state rc)) /\ is_Some (controllingDeviceName (state rc))
  else controllingDeviceId (state rc) = None /\ controllingDeviceName (state rc) = None.
Proof.
  intros rc. pose proof (run_controller_known inputs create (conj eq_refl eq_refl)) as H.
  fold rc in H. unfold controller_known, isLocked in *.
  by destruct (mode (state rc)).
Qed.



Lemma wrong_attempt password rc :
  isLocked rc = true -> password <> lockPassword rc ->
  tryUnlock password rc
  = (false, set_state (set_mode unlocking (state rc)) rc,
     if bool_decide (mode (state rc) = remote)
     then [StateChanged (set_mode unlocking (state rc))] else []).
Proof.
  intros Hlocked Hwrong. unfold tryUnlock, isLocked in *.
  destruct rc as [[m id name] pw allow timeout timer pending next]. simpl in *.
  destruct m; simpl in *; try done; by rewrite bool_decide_false.
Qed.

(** There is no limit on unlock attempts, and wrong ones change nothing but
    the mode: after any number of wrong passwords one more wrong password is
    refused and sends nothing to the relay, the desktop stays locked to the
    same device with the same password, and the right password unlocks. *)
Theorem wrong_passwords_keep_the_lock rc (attempts : list string) (password : string) :
  isLocked rc = true ->
  Forall (fun p => p <> lockPassword rc) attempts ->
  password <> lockPassword rc ->
  let rc' := fold_left fsm_step (Unlock <$> attempts) rc in
  isLocked rc' = true /\
  controllingDeviceId (state rc') = controllingDeviceId (state rc) /\
  lockPassword rc' = lockPassword rc /\
  (tryUnlock password rc').1.1 = false /\
  frames (tryUnlock password rc').2 = [] /\
  (tryUnlock (lockPassword rc) rc').1.1 = true /\
  state (tryUnlock (lockPassword rc) rc').1.2 = unlocked_state.
Proof.
  intros Hlocked Hall Hwrong rc'.
  assert (H : isLocked rc' = true /\
              controllingDeviceId (state rc') = controllingDeviceId (state rc) /\
              lockPassword rc' = lockPassword rc).
  { subst rc'. revert rc Hlocked Hall Hwrong.
    induction attempts as [|p attempts IH]; intros rc Hlocked Hall Hwrong; [done|].
    apply Forall_cons in Hall as [Hp Hall]. cbn [fmap list_fmap fold_left fsm_step].
    rewrite (wrong_attempt p rc) by done. cbn [fst snd].
    set (rc1 := set_state (set_mode unlocking (state rc)) rc).
    by destruct (IH rc1) as (H1 & H2 & H3). }
  destruct H as (Hl & Hc & Hp). repeat (split; [done|]).
  rewrite (wrong_attempt password rc') by (done || congruence). cbn [fst snd].
  split; [done|]. split; [by destruct (bool_decide _)|].
  rewrite <- Hp. unfold tryUnlock, isLocked in *.
  destruct rc' as [[m id name] pw allow timeout timer pending next]. simpl in *.
  destruct m; simpl in *; try done; by rewrite bool_decide_true.
Qed.

Lemma wrong_passwords_keep_the_lock_witness :
  let rc' := fold_left fsm_step (Unlock <$> ["000000"; "123456"; ""]) controlled_by_M in
  state rc' = mkControlState unlocking (Some "M") (Some "Phone") /\
  (tryUnlock "66666" rc').1.1 = false /\
  (tryUnlock "666666" rc').1.1 = true.
Proof.
  intros rc'.
  destruct (wrong_passwords_keep_the_lock controlled_by_M ["000000"; "123456"; ""] "66666")
    as (_ & _ & _ & Hno & _ & Hyes & _);
    [reflexivity | repeat constructor; discriminate | discriminate |].
  split; [vm_compute; reflexivity|]. split; [exact Hno | exact Hyes].
Defined.

(** Losing the controller releases the desktop without a word to the
    mobile: when the controlling device goes offline, its pairing is
    revoked, or the relay connection drops, the desktop returns to [local],
    forgets the controller and its lock timer handle, and sends nothing;
    the same events about another device are ignored. *)
Theorem controller_loss_releases hasSession rc device_id :
  isLocked rc = true ->
  controllingDeviceId (state rc) = Some device_id ->
  (forall ev, ev = DeviceOffline device_id \/ ev = PairingRevoked device_id \/
              ev = Disconnected ->
     let '(rc', effects) := on_relay_event hasSession ev rc in
     state rc' = unlocked_state /\ lockTimer rc' = None /\
     effects = [StateChanged unlocked_state] /\ frames effects = [] /\
     lockPassword rc' = lockPassword rc) /\
  (forall other, other <> device_id ->
     on_relay_event hasSession (DeviceOffline other) rc = (rc, []) /\
     on_relay_event hasSession (PairingRevoked other) rc = (rc, [])).
Proof.
  intros Hlocked Hctl. unfold isLocked in Hlocked.
  destruct rc as [[m id name] pw allow timeout timer pending next]. simpl in *. subst id.
  split.
  - intros ev [-> | [-> | ->]]; simpl; rewrite ?bool_decide_true by done;
      unfold forceRelease, clearLockTimer; simpl;
      destruct m; simpl in *; try done; by destruct timer.
  - intros other Hother. simpl.
    rewrite bool_decide_false by congruence. done.
Qed.

Lemma controller_loss_releases_witness :
  state (on_relay_event (fun _ => true) (DeviceOffline "M") controlled_by_M).1
  = unlocked_state /\
  on_relay_event (fun _ => true) (DeviceOffline "M2") controlled_by_M
  = (controlled_by_M, []).
Proof.
  destruct (controller_loss_releases (fun _ => true) controlled_by_M "M" eq_refl eq_refl)
    as [Hloss Hother].
  specialize (Hloss (DeviceOffline "M") (or_introl eq_refl)).
  destruct (on_relay_event _ (DeviceOffline "M") controlled_by_M) as [rc' effects].
  split; [by destruct Hloss | by apply Hother].
Defined.

Lemma Forall_list_filter {A} (P : A -> Prop) (p : A -> bool) l :
  Forall P l -> Forall P (List.filter p l).
Proof.
  induction 1 as [|x l Hx Hl IH]; simpl; [done|].
  destruct (p x); [by constructor | done].
Qed.

Lemma fsm_step_handles_issued rc i : handles_issued rc -> handles_issued (fsm_step rc i).
Proof.
  unfold handles_issued.
  destruct rc as [[m id name] pw allow timeout timer pending next].
  destruct i as [hasSession [d n | d | d |] | password | h | settings]; simpl; intros H.
  - unfold handleControlRequest; simpl.
    destruct allow; simpl; [|done].
    destruct m; simpl; try done.
    destruct (hasSession d); simpl; [|done].
    destruct (0 <? timeout); simpl; [|done].
    apply Forall_app. split.
    + eapply Forall_impl; [exact H|]. simpl. lia.
    + apply Forall_singleton. simpl. lia.
  - destruct (bool_decide (id = Some d)); simpl; [|done].
    unfold forceRelease, clearLockTimer. simpl.
    destruct m; simpl; try done; destruct timer; simpl; try done;
      by apply Forall_list_filter.
  - destruct (bool_decide (id = Some d)); simpl; [|done].
    unfold forceRelease, clearLockTimer. simpl.
    destruct m; simpl; try done; destruct timer; simpl; try done;
      by apply Forall_list_filter.
  - unfold forceRelease, clearLockTimer. simpl.
    destruct m; simpl; try done; destruct timer; simpl; try done;
      by apply Forall_list_filter.
  - unfold tryUnlock. simpl.
    destruct m; simpl; try done; by destruct (bool_decide (password = pw)).
  - unfold timer_fires. simpl.
    destruct (List.find _ pending) as [[h' [d n]]|]; simpl; [|done].
    by apply Forall_list_filter.
  - done.
Qed.

Lemma run_handles_issued inputs rc :
  handles_issued rc -> handles_issued (fold_left fsm_step inputs rc).
Proof.
  revert rc. induction inputs as [|i inputs IH]; intros rc H; [done|].
  cbn [fold_left]. by apply IH, fsm_step_handles_issued.
Qed.

Lemma find_appended (h : nat) (x : string * string) (ts : list (nat * (string * string))) :
  Forall (fun t => (t.1 < h)%nat) ts ->
  List.find (fun t : nat * (string * string) => bool_decide (t.1 = h)) (ts ++ [(h, x)])
  = Some (h, x).
Proof.
  induction 1 as [|t ts Hlt Hrest IH]; simpl.
  - by rewrite bool_decide_true.
  - rewrite bool_decide_false by lia. exact IH.
Qed.

Lemma passive_step_local rc i :
  mode (state rc) = local -> passive i ->
  state (fsm_step rc i) = state rc /\ timers (fsm_step rc i) = timers rc.
Proof.
  intros Hmode Hi.
  destruct rc as [[m id name] pw allow timeout timer pending next]. simpl in *. subst m.
  destruct i as [hasSession [d n | d | d |] | password | h | settings]; simpl in *;
    try done; by destruct (bool_decide _).
Qed.

(** A lock delay cannot be called off.  When a request is accepted under a
    positive [autoLockTimeout] the desktop stays unlocked for the time
    being; and whatever happens before the timer runs, short of another
    request or timer (the requester going offline, its pairing being
    revoked, the relay connection dropping, unlock attempts, new settings),
    the timer locks the desktop to the requester. *)
Theorem lock_delay_cannot_be_called_off hasSession device_id device_name
    (before between : list input) :
  let rc := fold_left fsm_step before create in
  allowRemoteControl rc = true ->
  mode (state rc) = local ->
  hasSession device_id = true ->
  0 < autoLockTimeout rc ->
  Forall passive between ->
  let '(rc1, effects) := handleControlRequest hasSession device_id device_name rc in
  let rc2 := fold_left fsm_step between rc1 in
  effects = [SendControlAck device_id true] /\
  isLocked rc1 = false /\ isLocked rc2 = false /\
  state (timer_fires (next_handle rc) rc2).1
  = mkControlState remote (Some device_id) (Some device_name).
Proof.
  intros rc Hallow Hmode Hsession Hdelay Hpassive.
  assert (Hissued : handles_issued rc).
  { subst rc. apply run_handles_issued. by constructor. }
  clearbody rc. unfold handleControlRequest.
  rewrite Hallow, Hmode, Hsession. simpl.
  apply Z.ltb_lt in Hdelay. rewrite Hdelay.
  set (rc1 := mkRemoteControl _ _ _ _ _ _ _).
  assert (H2 : state (fold_left fsm_step between rc1) = state rc /\
               timers (fold_left fsm_step between rc1) = timers rc1).
  { assert (H1 : mode (state rc1) = local) by done.
    assert (E : state rc1 = state rc) by done. rewrite <- E.
    generalize rc1 H1. clear -Hpassive.
    induction between as [|i between IH]; intros rc1 H1; [done|].
    apply Forall_cons in Hpassive as [Hi Hrest]. cbn [fold_left].
    destruct (passive_step_local rc1 i H1 Hi) as [Hs Ht].
    destruct (IH Hrest (fsm_step rc1 i)) as [Hs' Ht']; [congruence|].
    split; congruence. }
  destruct H2 as [Hs Ht].
  split; [done|]. split; [unfold isLocked; simpl; by rewrite Hmode|].
  split; [unfold isLocked; by rewrite Hs, Hmode|].
  unfold timer_fires. rewrite Ht. simpl.
  assert (Hfind : List.find (fun t : nat * (string * string) =>
                               bool_decide (t.1 = next_handle rc))
                    (timers rc ++ [(next_handle rc, (device_id, device_name))])
                  = Some (next_handle rc, (device_id, device_name))).
  { by apply find_appended. }
  by rewrite Hfind.
Qed.

Lemma lock_delay_cannot_be_called_off_witness :
  let rc := fold_left fsm_step [UpdateSettings (mkSettings None None (Some 5000))] create in
  let rc1 := (handleControlRequest (fun _ => true) "M" "Phone" rc).1 in
  let rc2 := fold_left fsm_step
               [FromRelay (fun _ => true) (DeviceOffline "M");
                FromRelay (fun _ => true) Disconnected; Unlock "666666"] rc1 in
  isLocked rc2 = false /\
  state (timer_fires 0 rc2).1 = mkControlState remote (Some "M") (Some "Phone").
Proof.
  intros rc rc1 rc2.
  pose proof (lock_delay_cannot_be_called_off (fun _ => true) "M" "Phone"
                [UpdateSettings (mkSettings None None (Some 5000))]
                [FromRelay (fun _ => true) (DeviceOffline "M");
                 FromRelay (fun _ => true) Disconnected; Unlock "666666"]
                eq_refl eq_refl eq_refl eq_refl ltac:(by repeat constructor)) as H.
  vm_compute in H. destruct H as (_ & _ & H2 & H3).
  vm_compute. exact (conj H2 H3).
Defined.

End RemoteControlMore.


(** * Further properties of the E2EE envelope *)

Module E2EEMore.
Import Buffer BufferFacts E2EE E2EEFacts.

Lemma string_ind2 (P : string -> Prop) :
  P "" -> (forall c, P (String c "")) ->
  (forall c1 c2 s, P s -> P (String c1 (String c2 s))) ->
  forall s, P s.
Proof.
  intros H0 H1 H2. fix IH 1. intros [|c1 [|c2 s]].
  - exact H0.
  - apply H1.
  - apply H2, IH.
Qed.

Lemma length_to_hex (b : bytes) : String.length (to_hex b) = (2 * length b)%nat.
Proof. induction b as [|x b IH]; simpl; [done|]. rewrite IH. lia. Qed.

Lemma half_SS (n : nat) : (S (S n) / 2 = S (n / 2))%nat.
Proof. change (S (S n)) with (1 * 2 + n)%nat. by rewrite Nat.div_add_l. Qed.

Lemma length_hexToBytes (s : string) :
  length (Mobile.hexToBytes s) = (String.length s / 2)%nat.
Proof.
  induction s as [| c | c1 c2 s IH] using string_ind2; [done | done |].
  cbn [Mobile.hexToBytes String.length length]. by rewrite IH, half_SS.
Qed.

Lemma length_from_hex (s : string) : (length (from_hex s) <= String.length s / 2)%nat.
Proof.
  induction s as [| c | c1 c2 s IH] using string_ind2; [done | simpl; lia |].
  cbn [from_hex String.length]. rewrite half_SS.
  destruct (hex_val c1), (hex_val c2); cbn [length]; lia.
Qed.

(** The hexadecimal encodings of the two platforms are the same function,
    two digits per byte, and either platform's decoder inverts it.  On other
    strings the decoders differ: the mobile's never rejects and yields one
    byte per two characters, the desktop's yields at most that many. *)
Theorem hex_encodings_agree :
  (forall b : bytes,
     Mobile.bytesToHex b = to_hex b /\
     String.length (to_hex b) = (2 * length b)%nat /\
     from_hex (to_hex b) = b /\
     Mobile.hexToBytes (to_hex b) = b /\
     from_hex (Mobile.bytesToHex b) = b) /\
  (forall s : string,
     length (Mobile.hexToBytes s) = (String.length s / 2)%nat /\
     (length (from_hex s) <= String.length s / 2)%nat).
Proof.
  split.
  - intros b. rewrite bytesToHex_to_hex.
    split; [done|]. split; [apply length_to_hex|].
    split; [apply from_to_hex|]. split; [apply hexToBytes_to_hex | apply from_to_hex].
  - intros s. split; [apply length_hexToBytes | apply length_from_hex].
Qed.

Section Envelope.
Context `{Primitives}.

Lemma length_subarray (b : bytes) (s e : Z) : (length (subarray b s e) <= length b)%nat.
Proof.
  unfold subarray. rewrite length_take, length_drop. lia.
Qed.

Lemma length_subarray_from_tail (b : bytes) (n : Z) :
  0 <= n ->
  length (subarray_from b n) = (length b - Z.to_nat n)%nat.
Proof.
  intros Hn. unfold subarray_from, subarray, clamp_index.
  destruct (n <? 0) eqn:Hneg; [apply Z.ltb_lt in Hneg; lia|].
  destruct (Z.of_nat (length b) <? 0) eqn:Hl; [apply Z.ltb_lt in Hl; lia|].
  rewrite length_take, length_drop. lia.
Qed.

Lemma desktop_counter_rises (s : Desktop.E2EESession) payload seq :
  Desktop.peerSeq s <= Desktop.peerSeq (Desktop.decrypt s payload seq).2 /\
  seq <= Desktop.peerSeq (Desktop.decrypt s payload seq).2.
Proof.
  destruct (Z_le_gt_dec seq (Desktop.peerSeq s)) as [Hold | Hnew].
  - rewrite (desktop_decrypt_replay s payload seq Hold). simpl. lia.
  - destruct (desktop_decrypt_fresh s payload seq) as (r & -> & _); [lia|]. simpl. lia.
Qed.

Lemma mobile_counter_rises (s : Mobile.E2EESession) payload seq :
  Mobile.peerSeq s <= Mobile.peerSeq (Mobile.decrypt s payload seq).2 /\
  seq <= Mobile.peerSeq (Mobile.decrypt s payload seq).2.
Proof.
  destruct (Z_le_gt_dec seq (Mobile.peerSeq s)) as [Hold | Hnew].
  - rewrite (mobile_decrypt_replay s payload seq Hold). simpl. lia.
  - destruct (mobile_decrypt_fresh s payload seq) as (r & -> & _); [lia|]. simpl. lia.
Qed.

Lemma desktop_counter_rises_along (frames : list (string * Z)) (s : Desktop.E2EESession) :
  Desktop.peerSeq s
  <= Desktop.peerSeq (fold_left (fun acc f => (Desktop.decrypt acc f.1 f.2).2) frames s).
Proof.
  revert s. induction frames as [|f frames IH]; intros s; simpl; [lia|].
  etransitivity; [|apply IH]. apply desktop_counter_rises.
Qed.

Lemma mobile_counter_rises_along (frames : list (string * Z)) (s : Mobile.E2EESession) :
  Mobile.peerSeq s
  <= Mobile.peerSeq (fold_left (fun acc f => (Mobile.decrypt acc f.1 f.2).2) frames s).
Proof.
  revert s. induction frames as [|f frames IH]; intros s; simpl; [lia|].
  etransitivity; [|apply IH]. apply mobile_counter_rises.
Qed.

(** Among frames whose sequence number is an integer, each number is
    accepted at most once.  Whatever became of a frame numbered [seq],
    verified or not, and whatever integer-numbered frames [decrypt] has been
    given on the same session since, in any number and order, a frame
    numbered [seq] or below is rejected as a replay and leaves the session as
    it is; the inbound counter never goes down. *)
Theorem sequence_number_accepted_once :
  (forall (s : Desktop.E2EESession) payload seq (later : list (string * Z)) payload' seq',
     seq' <= seq ->
     let s1 := (Desktop.decrypt s payload seq).2 in
     let s2 := fold_left (fun acc f => (Desktop.decrypt acc f.1 f.2).2) later s1 in
     Desktop.peerSeq s <= Desktop.peerSeq s1 /\
     seq <= Desktop.peerSeq s1 /\
     Desktop.peerSeq s1 <= Desktop.peerSeq s2 /\
     Desktop.decrypt s2 payload' seq' = (Err ReplayRejected, s2)) /\
  (forall (s : Mobile.E2EESession) payload seq (later : list (string * Z)) payload' seq',
     seq' <= seq ->
     let s1 := (Mobile.decrypt s payload seq).2 in
     let s2 := fold_left (fun acc f => (Mobile.decrypt acc f.1 f.2).2) later s1 in
     Mobile.peerSeq s <= Mobile.peerSeq s1 /\
     seq <= Mobile.peerSeq s1 /\
     Mobile.peerSeq s1 <= Mobile.peerSeq s2 /\
     Mobile.decrypt s2 payload' seq' = (Err ReplayRejected, s2)).
Proof.
  split.
  - intros s payload seq later payload' seq' Hle s1 s2.
    destruct (desktop_counter_rises s payload seq) as [H1 H2]. fold s1 in H1, H2.
    pose proof (desktop_counter_rises_along later s1) as H3. fold s2 in H3.
    do 3 (split; [done|]). apply desktop_decrypt_replay. lia.
  - intros s payload seq later payload' seq' Hle s1 s2.
    destruct (mobile_counter_rises s payload seq) as [H1 H2]. fold s1 in H1, H2.
    pose proof (mobile_counter_rises_along later s1) as H3. fold s2 in H3.
    do 3 (split; [done|]). apply mobile_decrypt_replay. lia.
Qed.

(** A frame too short to hold an IV and a tag is rejected without a call to
    the cipher, and still takes the inbound counter along: on the mobile
    when it has fewer than 28 bytes or is not base64, on the desktop when it
    has fewer than 16 bytes. *)
Theorem truncated_frame_rejected :
  (forall (s : Mobile.E2EESession) payload seq,
     Mobile.peerSeq s < seq ->
     match Mobile.base64ToUint8 payload with
     | Some combined => (length combined < 28)%nat
     | None => True
     end ->
     Mobile.decrypt s payload seq = (Err AuthFailed, Mobile.set_peerSeq seq s)) /\
  (forall (s : Desktop.E2EESession) payload seq,
     Desktop.peerSeq s < seq ->
     (length (buffer_from_base64 payload) < 16)%nat ->
     Desktop.decrypt s payload seq = (Err AuthFailed, Desktop.set_peerSeq seq s)).
Proof.
  split.
  - intros s payload seq Hfresh Hshort. unfold Mobile.decrypt.
    apply Z.leb_gt in Hfresh. rewrite Hfresh. cbv zeta.
    destruct (Mobile.base64ToUint8 payload) as [combined|]; [|done].
    unfold Mobile.gcm_decrypt.
    assert (Hlen : (16 <=? length (subarray_from combined 12))%nat = false).
    { apply Nat.leb_gt. rewrite length_subarray_from_tail by lia. lia. }
    by rewrite Hlen, andb_false_r.
  - intros s payload seq Hfresh Hshort. unfold Desktop.decrypt.
    apply Z.leb_gt in Hfresh. rewrite Hfresh. cbv zeta.
    unfold Desktop.decipher.
    set (combined := buffer_from_base64 payload) in *.
    assert (Htag : length (subarray_from combined
                             (Z.of_nat (length combined) - Desktop.TAG_LENGTH)) <> 16%nat).
    { pose proof (length_subarray combined
                    (Z.of_nat (length combined) - Desktop.TAG_LENGTH)
                    (Z.of_nat (length combined))) as Hle.
      unfold subarray_from. lia. }
    rewrite (bool_decide_false _ Htag). by rewrite andb_false_r.
Qed.

End Envelope.

Lemma sequence_number_accepted_once_witness :
  let s1 := (Mobile.decrypt (H := Toy.primitives) Toy.mobile_session Toy.forged_payload 7).2 in
  let s2 := (Mobile.decrypt (H := Toy.primitives)
               (Mobile.decrypt (H := Toy.primitives) s1 Toy.forged_payload 9).2
               Toy.forged_payload 4).2 in
  Mobile.peerSeq s1 = 7 /\ Mobile.peerSeq s2 = 9 /\
  Mobile.decrypt (H := Toy.primitives) s2 Toy.forged_payload 7 = (Err ReplayRejected, s2) /\
  Mobile.decrypt (H := Toy.primitives) s2 Toy.forged_payload 3 = (Err ReplayRejected, s2).
Proof.
  intros s1 s2. split; [reflexivity|]. split; [reflexivity|].
  destruct (sequence_number_accepted_once (H := Toy.primitives)) as [_ Hm].
  split.
  - apply (Hm Toy.mobile_session Toy.forged_payload 7
             [(Toy.forged_payload, 9); (Toy.forged_payload, 4)] Toy.forged_payload 7). lia.
  - apply (Hm Toy.mobile_session Toy.forged_payload 7
             [(Toy.forged_payload, 9); (Toy.forged_payload, 4)] Toy.forged_payload 3). lia.
Defined.

Lemma truncated_frame_rejected_witness :
  Mobile.decrypt (H := Toy.primitives) Toy.mobile_session (to_base64 Toy.zero_iv) 0
  = (Err AuthFailed, Mobile.set_peerSeq 0 Toy.mobile_session) /\
  Desktop.decrypt (H := Toy.primitives) Toy.desktop_session (to_base64 Toy.zero_iv) 0
  = (Err AuthFailed, Desktop.set_peerSeq 0 Toy.desktop_session).
Proof.
  destruct (truncated_frame_rejected (H := Toy.primitives)) as [Hm Hd]. split.
  - apply Hm; [reflexivity | vm_compute; lia].
  - apply Hd; [reflexivity | vm_compute; lia].
Defined.

Section Hkdf.
Context `{PrimitivesOk}.

(** The two HKDF implementations are the same function up to the RFC 5869
    bound of 255 blocks, for every output length and not only the 32 bytes
    of a session key; beyond the bound the mobile's throws. *)
Theorem hkdf_implementations_agree (ikm salt info : bytes) (len : nat) :
  Mobile.hkdf ikm salt info len
  = (if bool_decide (len <= 255 * 32)%nat
     then Some (Desktop.hkdfSha256 ikm salt info len) else None) /\
  ((len <= 255 * 32)%nat -> length (Desktop.hkdfSha256 ikm salt info len) = len).
Proof.
  assert (Hagree : (len <= 255 * 32)%nat ->
                   Mobile.hkdf ikm salt info len
                   = Some (Desktop.hkdfSha256 ikm salt info len))
    by apply hkdfSha256_hkdf.
  split.
  - destruct (decide (len <= 255 * 32)%nat) as [Hle | Hgt].
    + rewrite bool_decide_true by done. by apply Hagree.
    + rewrite bool_decide_false by done. unfold Mobile.hkdf.
      destruct (255 * 32 <? len)%nat eqn:Hlt; [done|]. apply Nat.ltb_ge in Hlt. lia.
  - intros Hle. specialize (Hagree Hle). unfold Mobile.hkdf in Hagree.
    destruct (255 * 32 <? len)%nat; [done|]. injection Hagree as <-.
    rewrite length_take, length_hkdf_blocks. unfold blocks.
    pose proof (Nat.div_mod_eq (len + 31) 32) as Hdiv.
    pose proof (Nat.mod_upper_bound (len + 31) 32) as Hmod. lia.
Qed.

End Hkdf.

Lemma hkdf_implementations_agree_witness :
  Mobile.hkdf (H := Toy.primitives) Toy.zero_key [x01] [x02] 100
  = Some (Desktop.hkdfSha256 (H := Toy.primitives) Toy.zero_key [x01] [x02] 100) /\
  length (Desktop.hkdfSha256 (H := Toy.primitives) Toy.zero_key [x01] [x02] 100) = 100%nat.
Proof.
  destruct (hkdf_implementations_agree (H := Toy.primitives) Toy.zero_key [x01] [x02] 100)
    as [Hagree Hlen].
  split; [exact Hagree | apply Hlen; lia].
Defined.

End E2EEMore.


(** * Properties of the project path encoding *)

Module PlatformFacts.
Import Platform.

Lemma encoded_char_eq (a b : ascii) :
  (if is_separator a then "-"%char else a) = (if is_separator b then "-"%char else b)
  <-> a = b \/ (reads_as_hyphen a /\ reads_as_hyphen b).
Proof.
  unfold reads_as_hyphen.
  destruct (is_separator a) eqn:Ha, (is_separator b) eqn:Hb.
  - split; [intros _; right; split; by left | done].
  - split.
    + intros <-. right. split; [by left | by right].
    + intros [Hab | [_ [Hs | Hd]]]; [subst; congruence | congruence | by subst].
  - split.
    + intros ->. right. split; [by right | by left].
    + intros [Hab | [[Hs | Hd] _]]; [subst; congruence | congruence | by subst].
  - split; [by left|].
    intros [Hab | [[Hs | Hd] [Hs' | Hd']]]; [done | congruence.. | by subst].
Qed.

Lemma is_separator_encoded (c : ascii) :
  is_separator (if is_separator c then "-"%char else c) = false.
Proof. by destruct (is_separator c) eqn:Hc. Qed.

(** [encodePath] keeps the length of the path, leaves none of [/ \ : .]
    behind, is idempotent and distributes over concatenation; and two paths
    get the same encoding exactly when they have the same length and differ
    only where both have one of [/ \ : . -].  So the encoding cannot be
    inverted: [/a/b], [/a.b] and [/a-b] share one. *)
Theorem encodePath_collisions :
  (forall p, String.length (encodePath p) = String.length p) /\
  (forall p, Forall (fun c => is_separator c = false)
               (String.list_ascii_of_string (encodePath p))) /\
  (forall p, encodePath (encodePath p) = encodePath p) /\
  (forall p q, encodePath (p +:+ q) = encodePath p +:+ encodePath q) /\
  (forall p q,
     encodePath p = encodePath q <->
     Forall2 (fun a b => a = b \/ (reads_as_hyphen a /\ reads_as_hyphen b))
       (String.list_ascii_of_string p) (String.list_ascii_of_string q)).
Proof.
  split; [|split; [|split; [|split]]].
  - induction p as [|c p IH]; simpl; [done | by rewrite IH].
  - induction p as [|c p IH]; simpl; constructor; [apply is_separator_encoded | done].
  - induction p as [|c p IH]; simpl; [done|].
    by rewrite IH, is_separator_encoded.
  - induction p as [|c p IH]; intros q; simpl; [done | by rewrite IH].
  - induction p as [|a p IH]; intros [|b q]; simpl.
    + split; [constructor | done].
    + split; [done | by intros ?%Forall2_nil_cons_inv].
    + split; [done | by intros ?%Forall2_cons_nil_inv].
    + rewrite Forall2_cons, <- IH, <- encoded_char_eq. split.
      * by intros [= -> ->].
      * by intros [-> ->].
Qed.

End PlatformFacts.

(** * Properties of the remote command execution *)

Module CommandProxyFacts.
Import Js JsFacts CommandProxy.

Lemma allowed_channel v : allowed v = true -> exists ch, v = JStr ch /\ ch ∈ ALLOWED_CHANNELS.
Proof.
  destruct v; simpl; try done. intros H%bool_decide_eq_true. by eexists.
Qed.

Lemma no_remote_channel_allowed ch :
  ch ∈ ALLOWED_CHANNELS ->
  String.prefix "remote:" ch = false /\ ch <> "settings:write".
Proof.
  intros Hin.
  assert (H : forallb (fun c => negb (String.prefix "remote:" c)
                                && negb (bool_decide (c = "settings:write")))
                ALLOWED_CHANNELS = true) by (vm_compute; reflexivity).
  rewrite forallb_forall in H. apply list_elem_of_In, H in Hin.
  apply andb_true_iff in Hin as [H1 H2].
  apply negb_true_iff in H1. apply negb_true_iff, bool_decide_eq_false in H2. done.
Qed.

Lemma well_formed_dec msg :
  negb (strict_eq (c_type msg) (JStr "command"))
  || negb (truthy (c_id msg)) || negb (truthy (c_channel msg)) = false
  <-> well_formed msg.
Proof.
  unfold well_formed. rewrite !orb_false_iff, !negb_false_iff.
  assert (Ht : strict_eq (c_type msg) (JStr "command") = true <-> c_type msg = JStr "command").
  { destruct (c_type msg); simpl; try (split; done).
    rewrite bool_decide_eq_true. split; congruence. }
  rewrite Ht. tauto.
Qed.

Section WithRegistry.
Variable handlerRegistry : string -> option handler.

(** Only whitelisted channels run.  A handler is invoked only for a
    well-formed command whose channel is on the whitelist (which holds no
    [remote:] channel, so a paired mobile cannot unlock the desktop or change
    its security settings), with the arguments of the command; a well-formed
    command is answered with exactly one response, to its sender and under
    its id; a command off the whitelist gets [Channel not allowed] and runs
    nothing; anything else is ignored. *)
Theorem only_whitelisted_channels_run (fromDeviceId : string) (msg : command)
    (processToDevice : gmap string string) :
  let '(tracked, effects) :=
    handleRemoteCommand handlerRegistry fromDeviceId msg processToDevice in
  (forall ch args, Invoked ch args ∈ effects ->
     well_formed msg /\ c_channel msg = JStr ch /\ ch ∈ ALLOWED_CHANNELS /\
     String.prefix "remote:" ch = false /\
     args = default [] (c_args msg) /\ is_Some (handlerRegistry ch)) /\
  (well_formed msg ->
     exists result error,
       responses effects = [SendResponse fromDeviceId (c_id msg) result error]) /\
  (well_formed msg -> allowed (c_channel msg) = false ->
     tracked = processToDevice /\
     effects = [SendResponse fromDeviceId (c_id msg) JUndefined
                  (Some (ChannelNotAllowed (c_channel msg)))]) /\
  (~ well_formed msg -> tracked = processToDevice /\ effects = []).
Proof.
  unfold handleRemoteCommand.
  destruct (_ || _ || _) eqn:Hwf.
  { assert (Hnot : ~ well_formed msg) by (rewrite <- well_formed_dec; congruence).
    split; [by intros ch args ?%elem_of_nil|]. by repeat split. }
  apply well_formed_dec in Hwf.
  destruct (allowed (c_channel msg)) eqn:Hallowed; simpl.
  2: { split; [|by repeat split; eauto].
       intros ch args [Heq | ?%elem_of_nil]%elem_of_cons; done. }
  destruct (allowed_channel _ Hallowed) as (ch & Hch & Hin). rewrite Hch.
  unfold invokeHandler.
  destruct (handlerRegistry ch) as [h|] eqn:Hreg.
  - assert (Hinv : forall ch' args tail,
               Invoked ch' args ∈ [Invoked ch (default [] (c_args msg))] ++ [tail] ->
               (exists a b c d, tail = SendResponse a b c d) ->
               well_formed msg /\ JStr ch = JStr ch' /\ ch' ∈ ALLOWED_CHANNELS /\
               String.prefix "remote:" ch' = false /\
               args = default [] (c_args msg) /\ is_Some (handlerRegistry ch')).
    { intros ch' args tail Hel (a & b & c & d & ->). simpl in Hel.
      apply elem_of_cons in Hel as [[= -> ->] | Hel].
      - by pose proof (no_remote_channel_allowed ch Hin) as [? _].
      - by apply list_elem_of_singleton in Hel. }
    destruct (h (default [] (c_args msg))) as [result | message].
    + split; [intros ch' args Hel; eapply Hinv; eauto 10|].
      split; [simpl; eauto|]. split; [done|]. by intros [].
    + split; [intros ch' args Hel; eapply Hinv; eauto 10|].
      split; [simpl; eauto|]. split; [done|]. by intros [].
  - simpl. split.
    + intros ch' args [Heq | ?%elem_of_nil]%elem_of_cons; done.
    + split; [eauto|]. split; [done|]. by intros [].
Qed.

(** A process started for a mobile is tracked until it ends: when
    [claude:spawn] returns a process id, the id is mapped to the device that
    sent the command and no other mapping changes; the exit of the process
    tells that device the stream has ended and drops the mapping; and a
    [claude:kill] naming the id, from whichever device, drops it as well. *)
Theorem spawned_process_tracked_until_it_ends (fromDeviceId pid : string) (msg : command)
    (processToDevice : gmap string string) (h : handler) :
  well_formed msg ->
  c_channel msg = JStr "claude:spawn" ->
  handlerRegistry "claude:spawn" = Some h ->
  h (default [] (c_args msg)) = Returned (JStr pid) ->
  fromDeviceId <> "" ->
  let tracked := (handleRemoteCommand handlerRegistry fromDeviceId msg processToDevice).1 in
  tracked !! pid = Some fromDeviceId /\
  (forall other, other <> pid -> tracked !! other = processToDevice !! other) /\
  on_process_exit pid tracked = (delete pid processToDevice, [SendStreamEnd fromDeviceId]) /\
  (forall killer kill rest h' r,
     well_formed kill -> c_channel kill = JStr "claude:kill" ->
     c_args kill = Some (JStr pid :: rest) -> pid <> "" ->
     handlerRegistry "claude:kill" = Some h' ->
     h' (JStr pid :: rest) = Returned r ->
     (handleRemoteCommand handlerRegistry killer kill tracked).1 = delete pid processToDevice).
Proof.
  intros Hwf Hch Hreg Hret Hfrom tracked.
  assert (E : tracked = <[pid := fromDeviceId]> processToDevice).
  { subst tracked. unfold handleRemoteCommand.
    rewrite (proj2 (well_formed_dec msg) Hwf), Hch. simpl.
    unfold invokeHandler. rewrite Hreg, Hret. done. }
  rewrite E. split; [apply lookup_insert_eq|].
  split; [by intros other ?; apply lookup_insert_ne|]. split.
  - unfold on_process_exit. rewrite lookup_insert_eq, bool_decide_false by done.
    by rewrite delete_insert_eq.
  - intros killer kill rest h' r Hwf' Hch' Hargs Hpid Hreg' Hret'.
    unfold handleRemoteCommand.
    rewrite (proj2 (well_formed_dec kill) Hwf'), Hch'. simpl.
    unfold invokeHandler. rewrite Hreg', Hargs. simpl. rewrite Hret'. simpl.
    rewrite bool_decide_false by done. by rewrite delete_insert_eq.
Qed.

End WithRegistry.

Lemma spawned_process_tracked_until_it_ends_witness :
  let registry := fun ch : string =>
    if bool_decide (ch = "claude:spawn") then Some (fun _ : list jsval => Returned (JStr "p1"))
    else None in
  let spawn := mkCommand (JStr "command") (JStr "cmd-1") (JStr "claude:spawn") None in
  handleRemoteCommand registry "M" spawn ∅
  = ({["p1" := "M"]},
     [Invoked "claude:spawn" []; SendResponse "M" (JStr "cmd-1") (JStr "p1") None]) /\
  on_process_exit "p1" (handleRemoteCommand registry "M" spawn ∅).1
  = (delete "p1" ∅, [SendStreamEnd "M"]).
Proof.
  intros registry spawn. split; [reflexivity|].
  pose proof (spawned_process_tracked_until_it_ends registry "M" "p1" spawn ∅
                (fun _ => Returned (JStr "p1"))
                (conj eq_refl (conj eq_refl eq_refl)) eq_refl eq_refl eq_refl
                ltac:(discriminate)) as (_ & _ & Hexit & _).
  exact Hexit.
Defined.

End CommandProxyFacts.


(** * Properties of the relay clients *)

Module ReconnectFacts.
Import Reconnect.

(** The reconnect delay starts at one second, doubles with every failed
    attempt and is capped at thirty seconds from the sixth attempt on: it is
    never below 1000 ms nor above 30000 ms, and never decreases while
    attempts fail. *)
Theorem reconnect_backoff (n : nat) :
  1000 <= delay n <= 30000 /\
  delay n <= delay (S n) /\
  ((n < 5)%nat -> delay n = 1000 * 2 ^ Z.of_nat n) /\
  ((5 <= n)%nat -> delay n = 30000) /\
  delays 7 0 = [1000; 2000; 4000; 8000; 16000; 30000; 30000].
Proof.
  unfold delay, maxReconnectDelay.
  assert (Hpos : 1 <= 2 ^ Z.of_nat n) by (apply Z.pow_le_mono_r with (b := 0); lia).
  assert (Hstep : 2 ^ Z.of_nat (S n) = 2 * 2 ^ Z.of_nat n).
  { rewrite Nat2Z.inj_succ, Z.pow_succ_r by lia. done. }
  rewrite Hstep.
  split; [lia|]. split; [lia|]. split; [|split; [|reflexivity]].
  - intros Hn.
    assert (Hle : 2 ^ Z.of_nat n <= 2 ^ 4) by (apply Z.pow_le_mono_r; lia).
    change (2 ^ 4) with 16 in Hle. lia.
  - intros Hn.
    assert (Hge : 2 ^ 5 <= 2 ^ Z.of_nat n) by (apply Z.pow_le_mono_r; lia).
    change (2 ^ 5) with 32 in Hge. lia.
Qed.

End ReconnectFacts.

Module DesktopFacts.
Import Js JsFacts Buffer BufferFacts E2EE E2EEFacts.
Import DesktopClient DesktopApp.

Section WithPrimitives.
Context `{Primitives}.
Variable json_parse : text -> option CommandProxy.command.
Variable text_of_string : string -> text.
Variable stringify_response : jsval -> jsval -> option CommandProxy.response_error -> text.
Variable handlerRegistry : string -> option CommandProxy.handler.

Abbreviation on_frame := (DesktopApp.on_frame json_parse text_of_string stringify_response
                            handlerRegistry).

Lemma on_frame_silent msg iv (d : Desktop) c :
  DesktopClient.handleMessage _ json_parse text_of_string msg (client d) = c ->
  emitted _ c = emitted _ (client d) ->
  on_frame msg iv d = mkDesktop c (control d) (processToDevice d) (invoked d).
Proof.
  intros Hc He. unfold DesktopApp.on_frame. rewrite Hc, He.
  by rewrite drop_all.
Qed.

Lemma on_frame_emits msg iv (d : Desktop) c e :
  DesktopClient.handleMessage _ json_parse text_of_string msg (client d) = emit _ e c ->
  emitted _ c = emitted _ (client d) ->
  on_frame msg iv d
  = dispatch stringify_response handlerRegistry iv
      (mkDesktop (emit _ e c) (control d) (processToDevice d) (invoked d)) e.
Proof.
  intros Hc He. unfold DesktopApp.on_frame. rewrite Hc. simpl.
  by rewrite He, drop_app_length.
Qed.

(** A frame that fails costs the session.  When a [relay] frame from a
    paired device does not decrypt (a wrong tag, a truncated payload, but
    also a replayed or reordered sequence number) or does not parse, the
    desktop deletes the session of that device and nothing else: no event,
    no frame, no change of the control state.  From then on every [relay]
    frame of that device is ignored and its control requests are refused
    with [accepted: false], until the two are paired again. *)
Theorem failed_frame_costs_the_session (d : Desktop) (from payload : string) (seq : Z)
    (iv : bytes) (session : Desktop.E2EESession) :
  sessions _ (client d) !! from = Some session ->
  match Desktop.decrypt session payload seq with
  | (Ok plaintext, _) => json_parse plaintext = None
  | (Err _, _) => True
  end ->
  let d' := on_frame (RelayFrame from payload seq) iv d in
  hasSession _ (client d') from = false /\
  (forall other, other <> from ->
     sessions _ (client d') !! other = sessions _ (client d) !! other) /\
  sent _ (client d') = sent _ (client d) /\
  emitted _ (client d') = emitted _ (client d) /\
  control d' = control d /\ invoked d' = invoked d /\
  (forall payload' seq' iv', on_frame (RelayFrame from payload' seq') iv' d' = d') /\
  (forall name iv',
     let d'' := on_frame (ControlRequestFrame from name) iv' d' in
     control d'' = control d /\
     sent _ (client d'')
     = sent _ (client d)
       ++ (if ws_open _ (client d)
           then [Relay.control_ack_frame (JStr from) (JBool false)] else [])).
Proof.
  intros Hs Hfail d'.
  set (c' := set_sessions _ (delete from (sessions _ (client d))) (client d)).
  assert (E : d' = mkDesktop c' (control d) (processToDevice d) (invoked d)).
  { subst d'. apply on_frame_silent; [|done]. simpl. rewrite Hs.
    destruct (Desktop.decrypt session payload seq) as [[plaintext | e] session'];
      [by rewrite Hfail | done]. }
  assert (Hnone : sessions _ c' !! from = None) by apply lookup_delete_eq.
  rewrite E. simpl.
  split; [unfold hasSession; rewrite Hnone; apply bool_decide_eq_false; by intros [? ?]|].
  split; [intros other Hne; by apply lookup_delete_ne|].
  do 4 (split; [done|]). split.
  - intros payload' seq' iv'.
    rewrite (on_frame_silent (RelayFrame from payload' seq') iv' _ c');
      [done | cbn [client handleMessage]; by rewrite Hnone | done].
  - intros name iv'.
    rewrite (on_frame_emits (ControlRequestFrame from name) iv' _ c'
               (ControlRequested _ from name)) by done.
    unfold dispatch, to_control. simpl.
    assert (Hno : hasSession _ (emit _ (ControlRequested _ from name) c') from = false).
    { unfold hasSession. simpl. rewrite lookup_delete_eq.
      apply bool_decide_eq_false. by intros [? ?]. }
    unfold RemoteControl.handleControlRequest. rewrite Hno.
    assert (Hperf : forall rc,
               (let '(rc0, effects) :=
                  (rc, [RemoteControl.SendControlAck from false]) in
                mkDesktop
                  (fold_left perform effects (emit _ (ControlRequested _ from name) c'))
                  rc0 (processToDevice d) (invoked d))
               = mkDesktop
                   (DesktopClient.sendControlAck _ from false
                      (emit _ (ControlRequested _ from name) c')).2
                   rc (processToDevice d) (invoked d)) by done.
    destruct (negb (RemoteControl.allowRemoteControl (control d)));
      [|destruct (negb (bool_decide (RemoteControl.mode (RemoteControl.state (control d))
                                      = RemoteControl.local)))];
      simpl; (split; [done|]);
      unfold DesktopClient.sendControlAck, DesktopClient.send; simpl;
      destruct (ws_open _ (client d)); simpl; by rewrite ?app_nil_r.
Qed.

End WithPrimitives.

Section WithLaws.
Context `{PrimitivesOk}.
Variable json_parse : text -> option CommandProxy.command.
Variable text_of_string : string -> text.
Variable stringify_response : jsval -> jsval -> option CommandProxy.response_error -> text.
Variable handlerRegistry : string -> option CommandProxy.handler.

Abbreviation on_frame := (DesktopApp.on_frame json_parse text_of_string stringify_response
                            handlerRegistry).

Lemma on_frame_command (d : Desktop) (from ch : string)
    (seq : Z) (iv0 iv : bytes) (session : Desktop.E2EESession) (plaintext : text)
    (cmd : CommandProxy.command) (h : CommandProxy.handler) (result : jsval) :
  sessions _ (client d) !! from = Some session ->
  length (Desktop.derivedKey session) = 32%nat ->
  length iv0 = 12%nat -> length iv = 12%nat ->
  Desktop.peerSeq session < seq ->
  json_parse (utf8_decode (utf8_encode plaintext)) = Some cmd ->
  CommandProxy.well_formed cmd ->
  CommandProxy.c_channel cmd = JStr ch ->
  ch ∈ CommandProxy.ALLOWED_CHANNELS ->
  handlerRegistry ch = Some h ->
  h (default [] (CommandProxy.c_args cmd)) = CommandProxy.Returned result ->
  let payload := to_base64 (sealed (Desktop.derivedKey session) iv0 (utf8_encode plaintext)) in
  let d' := on_frame (RelayFrame from payload seq) iv d in
  invoked d' = invoked d ++ [(ch, default [] (CommandProxy.c_args cmd))] /\
  control d' = control d /\
  sessions _ (client d') !! from
  = Some (Desktop.set_seq (Js.increment (Desktop.seq session))
            (Desktop.set_peerSeq seq session)) /\
  sent _ (client d')
  = sent _ (client d)
    ++ (if ws_open _ (client d)
        then [Relay.relay_frame (JStr from)
                (JStr (to_base64
                         (sealed (Desktop.derivedKey session) iv
                            (utf8_encode
                               (stringify_response (CommandProxy.c_id cmd) result None)))))
                (JNum (Desktop.seq session))]
        else []).
Proof.
  intros Hs Hkey Hiv0 Hiv Hfresh Hparse Hwf Hch Hallowed Hreg Hret payload d'.
  set (s1 := Desktop.set_peerSeq seq session).
  set (c1 := set_sessions _ (<[from := s1]> (sessions _ (client d))) (client d)).
  assert (E : d' = dispatch stringify_response handlerRegistry iv
                     (mkDesktop (emit _ (Message _ from cmd) c1) (control d)
                        (processToDevice d) (invoked d))
                     (Message _ from cmd)).
  { subst d'. apply on_frame_emits; [|done]. simpl. rewrite Hs. subst payload.
    rewrite desktop_decrypt_sealed by done. by rewrite Hparse. }
  rewrite E. unfold dispatch. cbn [client control processToDevice invoked].
  unfold CommandProxy.handleRemoteCommand.
  rewrite (proj2 (CommandProxyFacts.well_formed_dec cmd) Hwf), Hch.
  cbn [CommandProxy.allowed]. rewrite (bool_decide_true _ Hallowed). cbn [negb].
  unfold CommandProxy.invokeHandler. rewrite Hreg, Hret.
  cbv zeta. cbn [app fold_left carry_out client control processToDevice invoked].
  unfold sendResponse, sendEncrypted. cbn [sessions emit].
  assert (Hl : sessions _ c1 !! from = Some s1) by apply lookup_insert_eq.
  rewrite Hl.
  rewrite (desktop_encrypt_sealed s1) by done. cbn [mbind option_bind].
  unfold send.
  assert (Hopen : ws_open _ (set_sessions _
                               (<[from := Desktop.set_seq (Js.increment (Desktop.seq s1)) s1]>
                                  (sessions _ c1))
                               (emit _ (Message _ from cmd) c1))
                  = ws_open _ (client d)) by done.
  rewrite Hopen.
  destruct (ws_open _ (client d)); cbn [snd fst client control invoked sessions sent
                                         set_sessions emit];
    rewrite lookup_insert_eq; by rewrite ?app_nil_r.
Qed.

(** Commands run whatever the control state.  A command that a paired
    device encrypted under the session key, on a whitelisted channel with a
    registered handler, is decrypted, its handler is invoked with its
    arguments, and the result is sent back encrypted under the session key,
    numbered with the session's outbound counter.  Afterwards the session of
    that device has the frame's sequence number as inbound counter, the
    successor of its outbound counter as a double (one more below [2^53])
    and the same key.  The control state machine is neither consulted nor
    changed: this holds as well when remote control is not allowed, when
    no device was granted control, and when another device holds it. *)
Theorem commands_run_whatever_the_control_state (d : Desktop) (from ch : string)
    (seq : Z) (iv0 iv : bytes) (session : Desktop.E2EESession) (plaintext : text)
    (cmd : CommandProxy.command) (h : CommandProxy.handler) (result : jsval) :
  sessions _ (client d) !! from = Some session ->
  length (Desktop.derivedKey session) = 32%nat ->
  length iv0 = 12%nat -> length iv = 12%nat ->
  Desktop.peerSeq session < seq ->
  json_parse (utf8_decode (utf8_encode plaintext)) = Some cmd ->
  CommandProxy.well_formed cmd ->
  CommandProxy.c_channel cmd = JStr ch ->
  ch ∈ CommandProxy.ALLOWED_CHANNELS ->
  handlerRegistry ch = Some h ->
  h (default [] (CommandProxy.c_args cmd)) = CommandProxy.Returned result ->
  let payload := to_base64 (sealed (Desktop.derivedKey session) iv0 (utf8_encode plaintext)) in
  let d' := on_frame (RelayFrame from payload seq) iv d in
  invoked d' = invoked d ++ [(ch, default [] (CommandProxy.c_args cmd))] /\
  control d' = control d /\
  (exists session' : Desktop.E2EESession,
     sessions _ (client d') !! from = Some session' /\
     Desktop.peerSeq session' = seq /\
     Desktop.seq session' = Js.increment (Desktop.seq session) /\
     (0 <= Desktop.seq session < 2 ^ 53 ->
      Desktop.seq session' = Desktop.seq session + 1) /\
     (Desktop.seq session = 2 ^ 53 -> Desktop.seq session' = 2 ^ 53) /\
     Desktop.derivedKey session' = Desktop.derivedKey session /\
     Desktop.sharedSecret session' = Desktop.sharedSecret session) /\
  sent _ (client d')
  = sent _ (client d)
    ++ (if ws_open _ (client d)
        then [Relay.relay_frame (JStr from)
                (JStr (to_base64
                         (sealed (Desktop.derivedKey session) iv
                            (utf8_encode
                               (stringify_response (CommandProxy.c_id cmd) result None)))))
                (JNum (Desktop.seq session))]
        else []).
Proof.
  intros Hs Hkey Hiv0 Hiv Hfresh Hparse Hwf Hch Hallowed Hreg Hret.
  destruct (on_frame_command d from ch seq iv0 iv session plaintext cmd h result)
    as (Hinv & Hctl & Hsess & Hsent); try done.
  cbv zeta. split; [exact Hinv|]. split; [exact Hctl|]. split; [|exact Hsent].
  eexists. split; [exact Hsess|].
  cbn [Desktop.set_seq Desktop.set_peerSeq Desktop.seq Desktop.peerSeq
       Desktop.derivedKey Desktop.sharedSecret].
  split; [done|]. split; [done|].
  split; [intros Hn; apply JsFacts.increment_exact; lia|].
  split; [by intros ->|]. done.
Qed.

End WithLaws.

End DesktopFacts.


Module DesktopWitnesses.
Import Js E2EE E2EEFacts DesktopClient DesktopApp ClientScenario.

Lemma failed_frame_costs_the_session_witness :
  let d' := DesktopApp.on_frame (H := Toy.primitives) parse_command id stringify_response
              registry (RelayFrame "M" Toy.forged_payload (-1)) Toy.zero_iv desktop in
  hasSession _ (client desktop) "M" = true /\
  hasSession _ (client d') "M" = false /\
  sent _ (client (DesktopApp.on_frame (H := Toy.primitives) parse_command id
                    stringify_response registry (ControlRequestFrame "M" "Phone")
                    Toy.zero_iv d'))
  = [Relay.control_ack_frame (JStr "M") (JBool false)].
Proof.
  intros d'. split; [reflexivity|].
  destruct (DesktopFacts.failed_frame_costs_the_session (H := Toy.primitives)
              parse_command id stringify_response registry desktop "M" Toy.forged_payload
              (-1) Toy.zero_iv Toy.desktop_session eq_refl I)
    as (Hgone & _ & _ & _ & _ & _ & _ & Hctl).
  split; [exact Hgone|]. exact (proj2 (Hctl "Phone" Toy.zero_iv)).
Defined.

Lemma commands_run_whatever_the_control_state_witness :
  let payload := Buffer.to_base64
                   (sealed (H := Toy.primitives) Toy.zero_key Toy.zero_iv
                      (utf8_encode (Primitives := Toy.primitives) "send")) in
  let d' := DesktopApp.on_frame (H := Toy.primitives) parse_command id stringify_response
              registry (RelayFrame "M" payload 0) Toy.zero_iv desktop in
  RemoteControl.allowRemoteControl (control desktop) = false /\
  RemoteControl.mode (RemoteControl.state (control desktop)) = RemoteControl.local /\
  invoked d' = [("claude:send", [JStr "hi"])] /\
  control d' = control desktop /\
  exists session' : Desktop.E2EESession,
    sessions _ (client d') !! "M" = Some session' /\
    Desktop.peerSeq session' = 0 /\ Desktop.seq session' = 1.
Proof.
  intros payload d'. split; [reflexivity|]. split; [reflexivity|].
  destruct (DesktopFacts.commands_run_whatever_the_control_state (H := Toy.primitives)
              parse_command id stringify_response registry desktop "M" "claude:send" 0
              Toy.zero_iv Toy.zero_iv Toy.desktop_session "send"
              (CommandProxy.mkCommand (JStr "command") (JStr "cmd-1") (JStr "claude:send")
                 (Some [JStr "hi"]))
              (fun _ => CommandProxy.Returned (JBool true)) (JBool true)
              eq_refl eq_refl eq_refl eq_refl eq_refl eq_refl
              (conj eq_refl (conj eq_refl eq_refl)) eq_refl
              ltac:(repeat constructor) eq_refl eq_refl)
    as (Hinv & Hctl & (session' & Hsess & Hpeer & _ & Hstep & _) & _).
  split; [exact Hinv|]. split; [exact Hctl|].
  exists session'. split; [exact Hsess|]. split; [exact Hpeer|].
  apply Hstep. vm_compute. split; [discriminate | reflexivity].
Defined.

End DesktopWitnesses.

Module MobileFacts.
Import Js JsFacts Buffer BufferFacts E2EE E2EEFacts MobileClient.

Section WithPrimitives.
Context `{Primitives}.
Variable json_parse : text -> option downlink.

Lemma set_sessions_same (c : RelayClient) (from : string) (s : Mobile.E2EESession) :
  sessions c !! from = Some s -> set_sessions (<[from := s]> (sessions c)) c = c.
Proof.
  intros Hs. destruct c. unfold set_sessions. simpl in *. by rewrite insert_id.
Qed.

(** A frame that fails costs the mobile nothing but sequence numbers.  When
    a [relay] frame numbered [n] from a paired desktop does not verify, the
    mobile keeps the session, settles no command and raises no event, but
    its inbound counter has moved to [n]: every later frame of that desktop
    numbered [n] or below is dropped without a trace, so that a command
    waiting for such a response runs into its timeout. *)
Theorem failed_frame_leaves_session_but_moves_counter (c : RelayClient)
    (from forged : string) (n : Z) (session : Mobile.E2EESession) :
  sessions c !! from = Some session ->
  Mobile.peerSeq session < n ->
  (Mobile.decrypt session forged n).1 = Err AuthFailed ->
  let c1 := handleMessage json_parse (RelayFrame from forged n) c in
  sessions c1 !! from = Some (Mobile.set_peerSeq n session) /\
  hasSession c1 from = true /\
  pendingCommands c1 = pendingCommands c /\ notes c1 = notes c /\ sent c1 = sent c /\
  (forall payload seq, seq <= n ->
     handleMessage json_parse (RelayFrame from payload seq) c1 = c1) /\
  (forall id, id ∈ pendingCommands c ->
     notes (command_timeout id c1) = notes c ++ [TimedOut id]).
Proof.
  intros Hs Hfresh Hfail c1.
  destruct (mobile_decrypt_fresh session forged n Hfresh) as (r & Hr & _).
  rewrite Hr in Hfail. simpl in Hfail. subst r.
  assert (E : c1 = set_sessions (<[from := Mobile.set_peerSeq n session]> (sessions c)) c).
  { subst c1. simpl. unfold handleEncryptedRelay. by rewrite Hs, Hr. }
  assert (Hl : sessions c1 !! from = Some (Mobile.set_peerSeq n session))
    by (rewrite E; apply lookup_insert_eq).
  split; [exact Hl|].
  split; [unfold hasSession; rewrite Hl; apply bool_decide_eq_true; by eexists|].
  split; [by rewrite E|]. split; [by rewrite E|]. split; [by rewrite E|]. split.
  - intros payload seq Hle. simpl. unfold handleEncryptedRelay. rewrite Hl.
    rewrite mobile_decrypt_replay by (simpl; lia).
    by apply set_sessions_same.
  - intros id Hid. unfold command_timeout.
    rewrite bool_decide_true by (by rewrite E). simpl. by rewrite E.
Qed.

End WithPrimitives.

Lemma failed_frame_leaves_session_but_moves_counter_witness :
  let c1 := handleMessage (H := Toy.primitives) ClientScenario.parse_downlink
              (RelayFrame "D1" Toy.forged_payload 7) ClientScenario.mobile_client in
  hasSession c1 "D1" = true /\
  handleMessage (H := Toy.primitives) ClientScenario.parse_downlink
    (RelayFrame "D1"
       (to_base64 (sealed (H := Toy.primitives) Toy.zero_key Toy.zero_iv
                     (utf8_encode (Primitives := Toy.primitives) "response"))) 3) c1
  = c1 /\
  notes (command_timeout "cmd-1" c1) = [TimedOut "cmd-1"].
Proof.
  intros c1.
  destruct (failed_frame_leaves_session_but_moves_counter (H := Toy.primitives)
              ClientScenario.parse_downlink ClientScenario.mobile_client "D1"
              Toy.forged_payload 7 Toy.mobile_session eq_refl eq_refl eq_refl)
    as (_ & Hhas & _ & _ & _ & Hdrop & Htimeout).
  split; [exact Hhas|]. split; [apply Hdrop; lia|].
  apply (Htimeout "cmd-1"). by left.
Defined.

End MobileFacts.


(** * The two ends together *)

Module EndToEndFacts.
Import Js JsFacts Buffer BufferFacts E2EE E2EEFacts Relay RelayFacts RelayPairing EndToEnd.

Lemma to_hex_uncompressed_nonempty `{Primitives} (P : point) : to_hex (uncompressed P) <> "".
Proof. unfold uncompressed. simpl. discriminate. Qed.

Section WithLaws.
Context `{PrimitivesOk}.

Lemma desktop_derives (d m : scalar) (code : text) :
  Desktop.deriveSession d (Mobile.publicKey (Mobile.generateKeyPair m)) code
  = Some (Desktop.mkSession
            (x_coordinate (point_mul d (point_mul m base_point)))
            (first_block (x_coordinate (point_mul d (point_mul m base_point)))
               (utf8_encode code) (ascii_bytes "claude-studio-e2ee"))
            0 (-1)).
Proof.
  unfold Desktop.deriveSession, Desktop.computeSecret.
  cbn [Mobile.generateKeyPair Mobile.publicKey].
  rewrite bytesToHex_to_hex, from_to_hex, parse_uncompressed.
  cbn [mbind option_bind]. by rewrite hkdfSha256_32.
Qed.

Lemma mobile_derives (d m : scalar) (code : text) :
  Mobile.deriveSession m (Desktop.publicKey (Desktop.generateKeyPair d)) code
  = Some (Mobile.mkSession
            (first_block (x_coordinate (point_mul d (point_mul m base_point)))
               (utf8_encode code) (ascii_bytes "claude-studio-e2ee"))
            0 (-1)).
Proof.
  unfold Mobile.deriveSession, Mobile.getSharedSecret.
  cbn [Desktop.generateKeyPair Desktop.publicKey].
  rewrite hexToBytes_to_hex, parse_uncompressed.
  cbn [mbind option_bind]. rewrite shared_x, hkdf_32.
  cbn [mbind option_bind]. by rewrite (ecdh_agree m d).
Qed.

Variable json : Type.
Variable parse_uplink : text -> option json.
Variable parse_downlink : text -> option MobileClient.downlink.
Variable text_of_string : string -> text.

(** Pairing by QR code, end to end.  The desktop shows a code and registers
    it; a mobile of the same account scans it and claims it within five
    minutes; the server answers both; each client handles its answer.  Then
    the server has recorded the pair, the desktop holds a session under the
    mobile's device id and the mobile one under the desktop's, and both
    sessions have the same 32-byte key and fresh counters.  The desktop has
    dropped its pairing key pair and its pairing code; the mobile has dropped
    its pending session but still holds its pairing key pair, which it never
    resets. *)
Theorem qr_pairing_end_to_end (st : ServerState) (D M : ConnectedDevice)
    (cD : DesktopClient.RelayClient json) (cM : MobileClient.RelayClient)
    (cfg : DesktopClient.RelayConfig) (d m : scalar) (code : string) (t0 t1 : Z) :
  deviceType D = desktop -> deviceType M = mobile -> userId M = userId D ->
  deviceId D <> "" ->
  devices st !! deviceId D = Some D ->
  sockets st !! ws D = Some OPEN -> sockets st !! ws M = Some OPEN ->
  DesktopClient.config _ cD = Some cfg ->
  DesktopClient.connected _ cD = true -> DesktopClient.ws_open _ cD = true ->
  DesktopClient.desktopId _ cD = deviceId D ->
  MobileClient.connected cM = true -> MobileClient.ws_open cM = true ->
  MobileClient.pendingSession cM = None ->
  code <> "" -> t1 - t0 <= PAIRING_TTL ->
  exists qr cD1 register cM1 claim to_desktop to_mobile fD fM,
    DesktopClient.generatePairingQR _ d code cD = (Some qr, cD1) /\
    DesktopClient.sent _ cD1 = DesktopClient.sent _ cD ++ [register] /\
    MobileClient.pairFromQR text_of_string (scan qr) m false cM = Some (true, cM1) /\
    MobileClient.sent cM1 = MobileClient.sent cM ++ [claim] /\
    let st' := handleMessage M claim t1 (handleMessage D register t0 st) in
    sent_by st st' = [Send (ws D) to_desktop; Send (ws M) to_mobile] /\
    mkRelation (deviceId D) (deviceId M) (userId M) t1 ∈ pairedRelations st' /\
    pending_get (JStr code) (pendingPairings st') = None /\
    DesktopClient.of_frame to_desktop = Some fD /\
    MobileClient.of_frame to_mobile = Some fM /\
    let cD2 := DesktopClient.handleMessage _ parse_uplink text_of_string fD cD1 in
    let cM2 := MobileClient.handleMessage parse_downlink fM cM1 in
    exists (sd : Desktop.E2EESession) (sm : Mobile.E2EESession),
      DesktopClient.sessions _ cD2 !! deviceId M = Some sd /\
      MobileClient.sessions cM2 !! deviceId D = Some sm /\
      Desktop.derivedKey sd = Mobile.derivedKey sm /\
      length (Desktop.derivedKey sd) = 32%nat /\
      Desktop.seq sd = 0 /\ Desktop.peerSeq sd = -1 /\
      Mobile.seq sm = 0 /\ Mobile.peerSeq sm = -1 /\
      DesktopClient.pairingKeyPair _ cD2 = None /\
      DesktopClient.pairingCode _ cD2 = None /\
      MobileClient.pendingSession cM2 = None /\
      MobileClient.pairingKeyPair cM2 = Some m.
Proof.
  intros HD HM Huser HidD HattD HopenD HopenM Hcfg HconnD HwsD HdidD HconnM HwsM Hpend
    Hcode Httl.
  set (keyD := Desktop.publicKey (Desktop.generateKeyPair d)).
  set (keyM := Mobile.publicKey (Mobile.generateKeyPair m)).
  set (register := register_pairing_frame (JStr code) (JStr keyD)
                     (JStr (DesktopClient.cfg_deviceName cfg))).
  set (claim := claim_pairing_frame (JStr code) (JStr keyM)).
  set (key := first_block (x_coordinate (point_mul d (point_mul m base_point)))
                (utf8_encode (text_of_string code)) (ascii_bytes "claude-studio-e2ee")).
  set (sd := Desktop.mkSession (x_coordinate (point_mul d (point_mul m base_point))) key 0 (-1)).
  set (sm := Mobile.mkSession key 0 (-1)).
  assert (HkeyD : keyD <> "").
  { subst keyD. cbn [Desktop.generateKeyPair Desktop.publicKey].
    apply to_hex_uncompressed_nonempty. }
  assert (HkeyM : keyM <> "").
  { subst keyM. cbn [Mobile.generateKeyPair Mobile.publicKey].
    rewrite bytesToHex_to_hex. apply to_hex_uncompressed_nonempty. }
  (* the desktop shows the code *)
  set (cD0 := DesktopClient.set_pairing _ (Some d) (Some code) cD).
  set (cD1 := (DesktopClient.send _ register cD0).2).
  assert (EQ : DesktopClient.generatePairingQR _ d code cD
               = (Some (DesktopClient.mkQR (DesktopClient.serverUrl cfg)
                          (DesktopClient.token cfg) code keyD (DesktopClient.desktopId _ cD)),
                  cD1)).
  { unfold DesktopClient.generatePairingQR. by rewrite Hcfg, HconnD. }
  assert (EcD1 : cD1 = DesktopClient.mkClient _ (DesktopClient.desktopId _ cD)
                         (DesktopClient.config _ cD) (DesktopClient.connected _ cD)
                         (DesktopClient.ws_open _ cD) (Some d) (Some code)
                         (DesktopClient.sessions _ cD) (DesktopClient.pairedDevices _ cD)
                         (DesktopClient.sent _ cD ++ [register])
                         (DesktopClient.emitted _ cD)).
  { subst cD1 cD0. unfold DesktopClient.send. simpl. by rewrite HwsD. }
  (* the mobile scans and claims *)
  set (cM0 := MobileClient.set_pairing (Some m) (Some (DesktopClient.desktopId _ cD, sm)) cM).
  set (cM1 := (MobileClient.send claim cM0).2).
  assert (EP : MobileClient.pairFromQR text_of_string
                 (scan (DesktopClient.mkQR (DesktopClient.serverUrl cfg)
                          (DesktopClient.token cfg) code keyD (DesktopClient.desktopId _ cD)))
                 m false cM = Some (true, cM1)).
  { unfold MobileClient.pairFromQR, scan. rewrite Hpend, HconnM.
    cbn [negb andb MobileClient.qr_k MobileClient.qr_p MobileClient.qr_d
         DesktopClient.qr_k DesktopClient.qr_p DesktopClient.qr_d].
    subst keyD. rewrite mobile_derives. cbn [mbind option_bind].
    subst cM1 cM0. unfold MobileClient.send. simpl. by rewrite HwsM. }
  assert (EcM1 : cM1 = MobileClient.mkClient (MobileClient.connected cM)
                         (MobileClient.ws_open cM) (Some m)
                         (Some (DesktopClient.desktopId _ cD, sm))
                         (MobileClient.sessions cM) (MobileClient.desktops cM)
                         (MobileClient.controllingDesktopId cM)
                         (MobileClient.pendingCommands cM)
                         (MobileClient.sent cM ++ [claim]) (MobileClient.notes cM)).
  { subst cM1 cM0. unfold MobileClient.send. simpl. by rewrite HwsM. }
  (* the server *)
  set (offer := mkEntry (JStr code) (deviceId D) (JStr keyD)
                  (js_or (JStr (DesktopClient.cfg_deviceName cfg)) (JStr (deviceName D)))
                  (userId D) t0).
  set (st1 := handleMessage D register t0 st).
  assert (E1 : st1 = set_pendingPairings
                       (pending_set (JStr code) offer (pendingPairings st)) st).
  { subst st1. rewrite dispatch_register by done.
    rewrite register_stores; try done; by apply truthy_str. }
  assert (Hget : pending_get (m_pairingCode claim) (pendingPairings st1) = Some offer).
  { rewrite E1. simpl. apply pending_get_set_eq.
    rewrite strict_eq_str. by apply bool_decide_eq_true. }
  set (st2 := handleMessage M claim t1 st1).
  assert (E2 : st2 = notify_claim M offer (JStr keyM) (claimed M claim offer t1 st1)).
  { subst st2. rewrite dispatch_claim by done.
    apply claim_accepted; try done; by apply truthy_str. }
  destruct (notify_claim_same_stores M offer (JStr keyM) (claimed M claim offer t1 st1))
    as (_ & Hp & Hr & _).
  destruct (sent_by_notify_claim M offer (JStr keyM) (claimed M claim offer t1 st1))
    as (out & Hout & Hdesk); [by rewrite E1|].
  specialize (Hdesk D). rewrite Hdesk in Hout by (by rewrite E1).
  assert (Hwire : sent_by st st2
                  = [Send (ws D) (FPairingAcceptedDesktop (JStr keyM) (deviceId M) (deviceName M));
                     Send (ws M) (FPairingAcceptedMobile (deviceId D) (e_deviceName offer)
                                    (JStr keyD))]).
  { transitivity (sent_by (claimed M claim offer t1 st1)
                    (notify_claim M offer (JStr keyM) (claimed M claim offer t1 st1)));
      [|exact Hout].
    rewrite E2. unfold sent_by.
    assert (Hw : wire (claimed M claim offer t1 st1) = wire st)
      by (unfold claimed; simpl; by rewrite E1).
    by rewrite Hw. }
  eexists _, cD1, register, cM1, claim, _, _, _, _.
  split; [exact EQ|]. split; [by rewrite EcD1|]. split; [exact EP|].
  split; [by rewrite EcM1|].
  fold st1 st2. cbv zeta.
  split; [exact Hwire|].
  split; [rewrite E2, Hr; simpl; apply (link_adds offer M t1)|].
  split; [rewrite E2, Hp; simpl; apply (pending_get_delete (JStr code))|].
  split; [reflexivity|]. split; [reflexivity|].
  exists sd, sm.
  assert (HsD : DesktopClient.sessions _
                  (DesktopClient.handleMessage _ parse_uplink text_of_string
                     (DesktopClient.PairingAccepted keyM (deviceId M) (deviceName M)) cD1)
                !! deviceId M = Some sd /\
                DesktopClient.pairingKeyPair _
                  (DesktopClient.handleMessage _ parse_uplink text_of_string
                     (DesktopClient.PairingAccepted keyM (deviceId M) (deviceName M)) cD1)
                = None /\
                DesktopClient.pairingCode _
                  (DesktopClient.handleMessage _ parse_uplink text_of_string
                     (DesktopClient.PairingAccepted keyM (deviceId M) (deviceName M)) cD1)
                = None).
  { rewrite EcD1. cbn [DesktopClient.handleMessage DesktopClient.pairingKeyPair
                         DesktopClient.pairingCode].
    rewrite bool_decide_false by done. subst keyM. rewrite desktop_derives.
    simpl. split; [apply lookup_insert_eq | done]. }
  assert (HsM : MobileClient.sessions
                  (MobileClient.handleMessage parse_downlink
                     (MobileClient.PairingAccepted (deviceId D) (e_deviceName offer)) cM1)
                !! deviceId D = Some sm /\
                MobileClient.pendingSession
                  (MobileClient.handleMessage parse_downlink
                     (MobileClient.PairingAccepted (deviceId D) (e_deviceName offer)) cM1)
                = None /\
                MobileClient.pairingKeyPair
                  (MobileClient.handleMessage parse_downlink
                     (MobileClient.PairingAccepted (deviceId D) (e_deviceName offer)) cM1)
                = Some m).
  { rewrite EcM1. cbn [MobileClient.handleMessage MobileClient.pendingSession].
    cbv zeta. rewrite (bool_decide_false (deviceId D = "")) by done.
    rewrite (bool_decide_false (deviceId D = "")) by done.
    simpl. split; [apply lookup_insert_eq | done]. }
  destruct HsD as (HsD & HkD & HcD), HsM as (HsM & HcM & HkM).
  split; [exact HsD|]. split; [exact HsM|]. split; [done|].
  split; [apply hmac_length|]. by repeat split.
Qed.

End WithLaws.

Lemma qr_pairing_end_to_end_witness :
  let st := Scenario.run (take 3 Scenario.offer_pending) initial in
  exists qr cD1 cM1 fD fM,
    DesktopClient.generatePairingQR (H := Toy.primitives) _ 7%N "C9"
      ClientScenario.unpaired_desktop = (Some qr, cD1) /\
    MobileClient.pairFromQR (H := Toy.primitives) id (scan qr) 11%N false
      ClientScenario.unpaired_mobile = Some (true, cM1) /\
    exists (sd : Desktop.E2EESession) (sm : Mobile.E2EESession),
      DesktopClient.sessions _
        (DesktopClient.handleMessage (H := Toy.primitives) _ ClientScenario.parse_command id
           fD cD1) !! "M1" = Some sd /\
      MobileClient.sessions
        (MobileClient.handleMessage (H := Toy.primitives) ClientScenario.parse_downlink
           fM cM1) !! "D1" = Some sm /\
      Desktop.derivedKey sd = Mobile.derivedKey sm.
Proof.
  intros st.
  destruct (qr_pairing_end_to_end (H := Toy.primitives) CommandProxy.command
              ClientScenario.parse_command ClientScenario.parse_downlink id
              st Scenario.D1 Scenario.M1 ClientScenario.unpaired_desktop
              ClientScenario.unpaired_mobile
              (DesktopClient.mkConfig "https://relay" "token-U1" "Desk") 7%N 11%N "C9"
              3000 4000)
    as (qr & cD1 & register & cM1 & claim & to_desktop & to_mobile & fD & fM
        & Hqr & _ & Hpair & _ & Hrest);
    [reflexivity | reflexivity | reflexivity | discriminate | reflexivity | reflexivity
    | reflexivity | reflexivity | reflexivity | reflexivity | reflexivity | reflexivity
    | reflexivity | reflexivity | discriminate | discriminate |].
  cbv zeta in Hrest.
  destruct Hrest as (_ & _ & _ & _ & _ & sd & sm & Hsd & Hsm & Hkey & _).
  exists qr, cD1, cM1, fD, fM. split; [exact Hqr|]. split; [exact Hpair|].
  exists sd, sm. split; [exact Hsd|]. split; [exact Hsm | exact Hkey].
Defined.

End EndToEndFacts.


Module RoundTripFacts.
Import Js JsFacts Buffer BufferFacts E2EE E2EEFacts Relay RelayFacts EndToEnd.

Lemma to_base64_nonempty (b : bytes) : b <> [] -> to_base64 b <> "".
Proof. destruct b as [|x [|y [|z rest]]]; simpl; done. Qed.

Lemma sealed_payload_nonempty `{Primitives} (key iv pt : bytes) :
  length iv = 12%nat -> to_base64 (sealed key iv pt) <> "".
Proof.
  intros Hiv. apply to_base64_nonempty. unfold sealed. by destruct iv.
Qed.

(** The server passes a [relay] frame on to an attached, paired target. *)
Lemma relay_passed_on (st : ServerState) (A B : ConnectedDevice) (payload : string)
    (seq : Z) (now : Z) :
  deviceId B <> "" -> payload <> "" ->
  existsb (covers (deviceId A) (JStr (deviceId B))) (pairedRelations st) = true ->
  devices st !! deviceId B = Some B ->
  sockets st !! ws B = Some OPEN ->
  handleMessage A (relay_frame (JStr (deviceId B)) (JStr payload) (JNum seq)) now st
  = emit (Send (ws B) (FRelay (deviceId A) (JStr payload) (JNum seq))) st.
Proof.
  intros HB Hp Hcov Hdev Hopen. rewrite dispatch_relay by done.
  unfold handleRelay, relay_frame. cbn [m_to m_payload m_seq].
  rewrite (proj2 (truthy_str (deviceId B)) HB), (proj2 (truthy_str payload) Hp).
  cbn [negb orb]. rewrite Hcov. cbn [negb devices_get]. rewrite Hdev. by apply sendTo_open.
Qed.

Lemma filter_out_last (id : string) (l : list string) :
  id ∉ l -> List.filter (fun i => negb (bool_decide (i = id))) (l ++ [id]) = l.
Proof.
  induction l as [|x l IH]; simpl; intros Hid.
  - by rewrite bool_decide_true.
  - apply not_elem_of_cons in Hid as [Hne Hid].
    rewrite bool_decide_false by done. simpl. by rewrite IH.
Qed.

Lemma allowed_channel_nonempty ch : ch ∈ CommandProxy.ALLOWED_CHANNELS -> ch <> "".
Proof.
  intros Hin ->. revert Hin. unfold CommandProxy.ALLOWED_CHANNELS.
  rewrite !elem_of_cons, elem_of_nil. intuition discriminate.
Qed.

Section WithLaws.
Context `{PrimitivesOk}.
Variable parse_command : text -> option CommandProxy.command.
Variable parse_downlink : text -> option MobileClient.downlink.
Variable stringify_command : string -> string -> list jsval -> text.
Variable stringify_response : jsval -> jsval -> option CommandProxy.response_error -> text.
Variable text_of_string : string -> text.
Variable handlerRegistry : string -> option CommandProxy.handler.

Abbreviation on_frame := (DesktopApp.on_frame parse_command text_of_string stringify_response
                            handlerRegistry).

(** A remote command, end to end.  A paired mobile issues a command on a
    whitelisted channel; the server passes the encrypted frame to the
    desktop; the desktop decrypts it, invokes the handler and sends the
    result back encrypted; the server passes that frame to the mobile, which
    decrypts it and resolves the promise of the command with the handler's
    result.  The server sees the two payloads only in sealed form. *)
Theorem remote_command_round_trip (st : ServerState) (Dd Md : ConnectedDevice)
    (d : DesktopApp.Desktop) (cM : MobileClient.RelayClient)
    (sd : Desktop.E2EESession) (sm : Mobile.E2EESession) (key iv1 iv2 : bytes)
    (id ch : string) (args : list jsval) (h : CommandProxy.handler) (result : jsval)
    (now1 now2 : Z) (r : PairedRelation) :
  let command := stringify_command id ch args in
  let response := stringify_response (JStr id) result None in
  deviceId Dd <> "" -> deviceId Md <> "" ->
  devices st !! deviceId Dd = Some Dd -> devices st !! deviceId Md = Some Md ->
  sockets st !! ws Dd = Some OPEN -> sockets st !! ws Md = Some OPEN ->
  r ∈ pairedRelations st -> desktopId r = deviceId Dd -> mobileId r = deviceId Md ->
  MobileClient.sessions cM !! deviceId Dd = Some sm ->
  MobileClient.ws_open cM = true ->
  id ∉ MobileClient.pendingCommands cM ->
  DesktopClient.sessions _ (DesktopApp.client d) !! deviceId Md = Some sd ->
  DesktopClient.ws_open _ (DesktopApp.client d) = true ->
  Desktop.derivedKey sd = key -> Mobile.derivedKey sm = key -> length key = 32%nat ->
  Desktop.peerSeq sd < Mobile.seq sm -> Mobile.peerSeq sm < Desktop.seq sd ->
  length iv1 = 12%nat -> length iv2 = 12%nat ->
  utf8_decode (utf8_encode command) = command ->
  parse_command command
  = Some (CommandProxy.mkCommand (JStr "command") (JStr id) (JStr ch) (Some args)) ->
  id <> "" -> ch ∈ CommandProxy.ALLOWED_CHANNELS ->
  handlerRegistry ch = Some h -> h args = CommandProxy.Returned result ->
  utf8_decode (utf8_encode response) = response ->
  parse_downlink response = Some (MobileClient.Response (JStr id) result JUndefined) ->
  exists cM1 up f1 in1 down f2 in2,
    MobileClient.executeCommand stringify_command (deviceId Dd) ch args id iv1 cM
    = Some (true, cM1) /\
    MobileClient.sent cM1 = MobileClient.sent cM ++ [up] /\
    m_payload up = JStr (to_base64 (sealed key iv1 (utf8_encode command))) /\
    let st1 := handleMessage Md up now1 st in
    sent_by st st1 = [Send (ws Dd) f1] /\
    DesktopClient.of_frame f1 = Some in1 /\
    let d1 := on_frame in1 iv2 d in
    DesktopApp.invoked d1 = DesktopApp.invoked d ++ [(ch, args)] /\
    DesktopClient.sent _ (DesktopApp.client d1)
    = DesktopClient.sent _ (DesktopApp.client d) ++ [down] /\
    m_payload down = JStr (to_base64 (sealed key iv2 (utf8_encode response))) /\
    let st2 := handleMessage Dd down now2 st1 in
    sent_by st1 st2 = [Send (ws Md) f2] /\
    MobileClient.of_frame f2 = Some in2 /\
    let cM2 := MobileClient.handleMessage parse_downlink in2 cM1 in
    MobileClient.notes cM2 = MobileClient.notes cM ++ [MobileClient.Resolved id result] /\
    MobileClient.pendingCommands cM2 = MobileClient.pendingCommands cM.
Proof.
  intros command response HDd HMd HattD HattM HopenD HopenM Hr HrD HrM HsM HwsM Hnew
    HsD HwsD HkD HkM Hkey HseqUp HseqDown Hiv1 Hiv2 Hutf1 Hparse1 Hid Hch Hreg Hret
    Hutf2 Hparse2.
  assert (HcovM : existsb (covers (deviceId Md) (JStr (deviceId Dd))) (pairedRelations st)
                  = true).
  { apply existsb_exists. exists r. split; [by apply list_elem_of_In|].
    apply covers_joins. right. by split. }
  assert (HcovD : existsb (covers (deviceId Dd) (JStr (deviceId Md))) (pairedRelations st)
                  = true).
  { apply existsb_exists. exists r. split; [by apply list_elem_of_In|].
    apply covers_joins. left. by split. }
  (* the mobile sends *)
  set (p1 := to_base64 (sealed key iv1 (utf8_encode command))).
  set (sm1 := Mobile.set_seq (Js.increment (Mobile.seq sm)) sm).
  set (up := relay_frame (JStr (deviceId Dd)) (JStr p1) (JNum (Mobile.seq sm))).
  set (cM1 := MobileClient.mkClient (MobileClient.connected cM) (MobileClient.ws_open cM)
                (MobileClient.pairingKeyPair cM) (MobileClient.pendingSession cM)
                (<[deviceId Dd := sm1]> (MobileClient.sessions cM)) (MobileClient.desktops cM)
                (MobileClient.controllingDesktopId cM)
                (MobileClient.pendingCommands cM ++ [id])
                (MobileClient.sent cM ++ [up]) (MobileClient.notes cM)).
  assert (Eexec : MobileClient.executeCommand stringify_command (deviceId Dd) ch args id iv1 cM
                  = Some (true, cM1)).
  { unfold MobileClient.executeCommand, MobileClient.sendEncrypted. rewrite HsM.
    rewrite (mobile_encrypt_sealed sm) by (by rewrite HkM).
    cbn [mbind option_bind]. unfold MobileClient.send. simpl. rewrite HwsM. simpl.
    subst cM1 up p1 sm1. unfold MobileClient.set_pendingCommands. simpl.
    by rewrite HkM, HwsM. }
  (* the server passes it on *)
  assert (Hp1 : p1 <> "") by (by apply sealed_payload_nonempty).
  set (st1 := handleMessage Md up now1 st).
  assert (E1 : st1 = emit (Send (ws Dd) (FRelay (deviceId Md) (JStr p1)
                                           (JNum (Mobile.seq sm)))) st)
    by (by apply relay_passed_on).
  (* the desktop runs the command *)
  set (cmd := CommandProxy.mkCommand (JStr "command") (JStr id) (JStr ch) (Some args)).
  set (sd1 := Desktop.set_peerSeq (Mobile.seq sm) sd).
  set (p2 := to_base64 (sealed key iv2 (utf8_encode response))).
  set (down := relay_frame (JStr (deviceId Md)) (JStr p2) (JNum (Desktop.seq sd))).
  set (d1 := on_frame (DesktopClient.RelayFrame (deviceId Md) p1 (Mobile.seq sm)) iv2 d).
  assert (Hd1 : DesktopApp.invoked d1 = DesktopApp.invoked d ++ [(ch, args)] /\
                DesktopClient.sent _ (DesktopApp.client d1)
                = DesktopClient.sent _ (DesktopApp.client d) ++ [down]).
  { assert (Hwf : CommandProxy.well_formed cmd).
    { split; [done|]. split; apply truthy_str; [done|].
      by apply allowed_channel_nonempty. }
    destruct (DesktopFacts.on_frame_command parse_command text_of_string stringify_response
                handlerRegistry d (deviceId Md) ch (Mobile.seq sm) iv1 iv2 sd command cmd
                h result) as (Hinv & _ & _ & Hsent);
      try done; try (by rewrite HkD); try (by rewrite Hutf1).
    rewrite HkD in Hinv, Hsent. rewrite HwsD in Hsent. by split. }
  destruct Hd1 as [Hinv1 Hsent1].
  (* the server passes the response on *)
  assert (Hp2 : p2 <> "") by (by apply sealed_payload_nonempty).
  set (st2 := handleMessage Dd down now2 st1).
  assert (E2 : st2 = emit (Send (ws Md) (FRelay (deviceId Dd) (JStr p2)
                                           (JNum (Desktop.seq sd)))) st1).
  { subst st2 down. apply relay_passed_on; try done; by rewrite E1. }
  (* the mobile settles the command *)
  set (cM2 := MobileClient.handleMessage parse_downlink
                (MobileClient.RelayFrame (deviceId Dd) p2 (Desktop.seq sd)) cM1).
  assert (HcM2 : MobileClient.notes cM2
                 = MobileClient.notes cM ++ [MobileClient.Resolved id result] /\
                 MobileClient.pendingCommands cM2 = MobileClient.pendingCommands cM).
  { subst cM2. cbn [MobileClient.handleMessage]. unfold MobileClient.handleEncryptedRelay.
    assert (Hl : MobileClient.sessions cM1 !! deviceId Dd = Some sm1)
      by apply lookup_insert_eq.
    rewrite Hl. subst p2. rewrite <- HkM.
    change (Mobile.derivedKey sm) with (Mobile.derivedKey sm1).
    rewrite (mobile_decrypt_sealed sm1) by (done || by rewrite <- HkM in Hkey).
    rewrite Hutf2, Hparse2.
    rewrite bool_decide_true by (simpl; apply elem_of_app; right; by left).
    simpl. by rewrite filter_out_last. }
  exists cM1, up, (FRelay (deviceId Md) (JStr p1) (JNum (Mobile.seq sm))),
    (DesktopClient.RelayFrame (deviceId Md) p1 (Mobile.seq sm)), down,
    (FRelay (deviceId Dd) (JStr p2) (JNum (Desktop.seq sd))),
    (MobileClient.RelayFrame (deviceId Dd) p2 (Desktop.seq sd)).
  split; [exact Eexec|]. split; [done|]. split; [done|].
  fold st1. cbv zeta.
  split; [rewrite E1; apply sent_by_emit|]. split; [done|].
  fold d1. split; [exact Hinv1|]. split; [exact Hsent1|]. split; [done|].
  fold st2. split; [rewrite E2; apply sent_by_emit|]. split; [done|].
  exact HcM2.
Qed.

End WithLaws.

Lemma remote_command_round_trip_witness :
  let st := Scenario.run Scenario.paired initial in
  exists cM1 up f1 in1 down f2 in2,
    MobileClient.executeCommand (H := Toy.primitives) ClientScenario.stringify_command
      "D1" "claude:send" [JStr "hi"] "cmd-1" Toy.zero_iv ClientScenario.idle_mobile
    = Some (true, cM1) /\
    MobileClient.sent cM1 = [up] /\
    sent_by st (handleMessage Scenario.M up 5000 st) = [Send 0%nat f1] /\
    DesktopClient.of_frame f1 = Some in1 /\
    let d1 := DesktopApp.on_frame (H := Toy.primitives) ClientScenario.parse_command id
                ClientScenario.stringify_response ClientScenario.registry in1 Toy.zero_iv
                ClientScenario.desktop in
    DesktopApp.invoked d1 = [("claude:send", [JStr "hi"])] /\
    DesktopClient.sent _ (DesktopApp.client d1) = [down] /\
    sent_by (handleMessage Scenario.M up 5000 st)
      (handleMessage Scenario.D1 down 5001 (handleMessage Scenario.M up 5000 st))
    = [Send 1%nat f2] /\
    MobileClient.of_frame f2 = Some in2 /\
    MobileClient.notes
      (MobileClient.handleMessage (H := Toy.primitives) ClientScenario.parse_downlink in2 cM1)
    = [MobileClient.Resolved "cmd-1" (JBool true)].
Proof.
  intros st.
  destruct (remote_command_round_trip (H := Toy.primitives) ClientScenario.parse_command
              ClientScenario.parse_downlink ClientScenario.stringify_command
              ClientScenario.stringify_response id ClientScenario.registry
              st Scenario.D1 Scenario.M ClientScenario.desktop ClientScenario.idle_mobile
              Toy.desktop_session Toy.mobile_session Toy.zero_key Toy.zero_iv Toy.zero_iv
              "cmd-1" "claude:send" [JStr "hi"]
              (fun _ => CommandProxy.Returned (JBool true)) (JBool true) 5000 5001
              (mkRelation "D1" "M" "U1" 4000))
    as (cM1 & up & f1 & in1 & down & f2 & in2 & Hexec & Hup & _ & Hrest);
    [discriminate | discriminate | vm_compute; reflexivity | vm_compute; reflexivity
    | vm_compute; reflexivity | vm_compute; reflexivity
    | vm_compute; repeat constructor | reflexivity | reflexivity
    | reflexivity | reflexivity | apply not_elem_of_nil | reflexivity | reflexivity
    | reflexivity | reflexivity | reflexivity | reflexivity | reflexivity
    | reflexivity | reflexivity | reflexivity | reflexivity | discriminate
    | repeat constructor | reflexivity | reflexivity | reflexivity | reflexivity |].
  cbv zeta in Hrest.
  destruct Hrest as (Hs1 & Hin1 & Hinv & Hdown & _ & Hs2 & Hin2 & Hnotes & _).
  exists cM1, up, f1, in1, down, f2, in2.
  split; [exact Hexec|]. split; [exact Hup|]. split; [exact Hs1|]. split; [exact Hin1|].
  cbv zeta. split; [exact Hinv|]. split; [exact Hdown|]. split; [exact Hs2|].
  split; [exact Hin2 | exact Hnotes].
Defined.

End RoundTripFacts.


Module ControlHandshake.
Import Js JsFacts Buffer E2EE Relay RelayFacts.

Lemma control_request_passed_on (st : ServerState) (A B : ConnectedDevice) (now : Z)
    (r : PairedRelation) :
  deviceType A = mobile -> deviceId B <> "" ->
  r ∈ pairedRelations st -> desktopId r = deviceId B -> mobileId r = deviceId A ->
  devices st !! deviceId B = Some B ->
  sockets st !! ws B = Some OPEN ->
  handleMessage A (control_request_frame (JStr (deviceId B))) now st
  = emit (Send (ws B) (FControlRequest (deviceId A) (deviceName A))) st.
Proof.
  intros HA HB Hr HrD HrM Hdev Hopen. rewrite dispatch_control_request by done.
  unfold handleControlRequest, control_request_frame. cbn [m_targetDesktopId].
  rewrite bool_decide_true by done. rewrite (proj2 (truthy_str (deviceId B)) HB).
  cbn [negb].
  assert (Hex : existsb (fun r0 => strict_eq (JStr (desktopId r0)) (JStr (deviceId B))
                                   && bool_decide (mobileId r0 = deviceId A))
                  (pairedRelations st) = true).
  { apply existsb_exists. exists r. split; [by apply list_elem_of_In|].
    rewrite strict_eq_str, HrD, HrM. by rewrite !bool_decide_true. }
  rewrite Hex. cbn [negb devices_get]. rewrite Hdev. by apply sendTo_open.
Qed.

Lemma control_ack_passed_on (st : ServerState) (A B : ConnectedDevice) (accepted : jsval)
    (now : Z) :
  deviceId B <> "" ->
  devices st !! deviceId B = Some B ->
  sockets st !! ws B = Some OPEN ->
  handleMessage A (control_ack_frame (JStr (deviceId B)) accepted) now st
  = emit (Send (ws B) (FControlAck (deviceId A) accepted)) st.
Proof.
  intros HB Hdev Hopen. rewrite dispatch_control_ack by done.
  unfold handleControlAck, control_ack_frame. cbn [m_to m_accepted].
  rewrite (proj2 (truthy_str (deviceId B)) HB). cbn [negb devices_get].
  rewrite Hdev. by apply sendTo_open.
Qed.

Lemma control_revoked_passed_on (st : ServerState) (A B : ConnectedDevice) (now : Z) :
  deviceId B <> "" ->
  devices st !! deviceId B = Some B ->
  sockets st !! ws B = Some OPEN ->
  handleMessage A (control_revoked_frame (JStr (deviceId B))) now st
  = emit (Send (ws B) (FControlRevoked (deviceId A))) st.
Proof.
  intros HB Hdev Hopen. rewrite dispatch_control_revoked by done.
  unfold handleControlRevoked, control_revoked_frame. cbn [m_to].
  rewrite (proj2 (truthy_str (deviceId B)) HB). cbn [negb devices_get].
  rewrite Hdev. by apply sendTo_open.
Qed.

Lemma tryUnlock_right (rc : RemoteControl.RemoteControl) (peer name : string) :
  RemoteControl.state rc
  = RemoteControl.mkControlState RemoteControl.remote (Some peer) (Some name) ->
  peer <> "" ->
  RemoteControl.tryUnlock (RemoteControl.lockPassword rc) rc
  = (true, RemoteControl.set_state RemoteControl.unlocked_state rc,
     [RemoteControl.StateChanged
        (RemoteControl.mkControlState RemoteControl.unlocking (Some peer) (Some name));
      RemoteControl.SendControlRevoked peer;
      RemoteControl.StateChanged RemoteControl.unlocked_state]).
Proof.
  intros Hstate Hpeer. destruct rc as [s pw allow timeout timer pending next].
  simpl in Hstate. subst s. unfold RemoteControl.tryUnlock. simpl.
  rewrite bool_decide_true by done. by rewrite bool_decide_false.
Qed.

Section WithPrimitives.
Context `{Primitives}.
Variable parse_command : text -> option CommandProxy.command.
Variable parse_downlink : text -> option MobileClient.downlink.
Variable stringify_response : jsval -> jsval -> option CommandProxy.response_error -> text.
Variable text_of_string : string -> text.
Variable handlerRegistry : string -> option CommandProxy.handler.

Abbreviation on_frame := (DesktopApp.on_frame parse_command text_of_string stringify_response
                            handlerRegistry).

(** Taking and losing control, end to end.  A paired mobile requests
    control of an unlocked desktop that allows it, holds its session and has
    no lock delay: the server passes the request on, the desktop locks
    itself to the mobile and acknowledges, the server passes the
    acknowledgement on, and the mobile records the desktop as the one it
    controls.  When the desktop's user then enters the password, the desktop
    unlocks, the revocation travels the same way, and the mobile controls no
    desktop any more. *)
Theorem control_handshake_end_to_end (st : ServerState) (Dd Md : ConnectedDevice)
    (d : DesktopApp.Desktop) (cM : MobileClient.RelayClient) (r : PairedRelation)
    (session : Desktop.E2EESession) (iv : bytes) (t1 t2 t3 : Z) :
  deviceType Md = mobile -> deviceId Dd <> "" -> deviceId Md <> "" ->
  devices st !! deviceId Dd = Some Dd -> devices st !! deviceId Md = Some Md ->
  sockets st !! ws Dd = Some OPEN -> sockets st !! ws Md = Some OPEN ->
  r ∈ pairedRelations st -> desktopId r = deviceId Dd -> mobileId r = deviceId Md ->
  MobileClient.ws_open cM = true ->
  DesktopClient.ws_open _ (DesktopApp.client d) = true ->
  DesktopClient.sessions _ (DesktopApp.client d) !! deviceId Md = Some session ->
  RemoteControl.allowRemoteControl (DesktopApp.control d) = true ->
  RemoteControl.mode (RemoteControl.state (DesktopApp.control d)) = RemoteControl.local ->
  RemoteControl.autoLockTimeout (DesktopApp.control d) <= 0 ->
  let cM1 := (MobileClient.requestControl (deviceId Dd) cM).2 in
  exists request f1 in1 ack f2 in2 revoked f3 in3,
    MobileClient.sent cM1 = MobileClient.sent cM ++ [request] /\
    let st1 := handleMessage Md request t1 st in
    sent_by st st1 = [Send (ws Dd) f1] /\ DesktopClient.of_frame f1 = Some in1 /\
    let d1 := on_frame in1 iv d in
    RemoteControl.state (DesktopApp.control d1)
    = RemoteControl.mkControlState RemoteControl.remote (Some (deviceId Md))
        (Some (deviceName Md)) /\
    DesktopClient.sent _ (DesktopApp.client d1)
    = DesktopClient.sent _ (DesktopApp.client d) ++ [ack] /\
    let st2 := handleMessage Dd ack t2 st1 in
    sent_by st1 st2 = [Send (ws Md) f2] /\ MobileClient.of_frame f2 = Some in2 /\
    let cM2 := MobileClient.handleMessage parse_downlink in2 cM1 in
    MobileClient.controllingDesktopId cM2 = Some (deviceId Dd) /\
    let '(ok, d2) :=
      DesktopApp.unlock (RemoteControl.lockPassword (DesktopApp.control d)) d1 in
    ok = true /\
    RemoteControl.state (DesktopApp.control d2) = RemoteControl.unlocked_state /\
    DesktopClient.sent _ (DesktopApp.client d2)
    = DesktopClient.sent _ (DesktopApp.client d1) ++ [revoked] /\
    let st3 := handleMessage Dd revoked t3 st2 in
    sent_by st2 st3 = [Send (ws Md) f3] /\ MobileClient.of_frame f3 = Some in3 /\
    MobileClient.controllingDesktopId
      (MobileClient.handleMessage parse_downlink in3 cM2) = None.
Proof.
  intros HMd HDid HMid HattD HattM HopenD HopenM Hr HrD HrM HwsM HwsD Hsess Hallow Hlocal
    Hdelay cM1.
  set (request := control_request_frame (JStr (deviceId Dd))).
  set (ack := control_ack_frame (JStr (deviceId Md)) (JBool true)).
  set (revoked := control_revoked_frame (JStr (deviceId Md))).
  exists request, (FControlRequest (deviceId Md) (deviceName Md)),
    (DesktopClient.ControlRequestFrame (deviceId Md) (deviceName Md)),
    ack, (FControlAck (deviceId Dd) (JBool true)),
    (MobileClient.ControlAck (deviceId Dd) (JBool true)),
    revoked, (FControlRevoked (deviceId Dd)), (MobileClient.ControlRevoked (deviceId Dd)).
  assert (EcM1 : cM1 = (MobileClient.send request cM).2) by done.
  assert (HsentM : MobileClient.sent cM1 = MobileClient.sent cM ++ [request]).
  { rewrite EcM1. unfold MobileClient.send. by rewrite HwsM. }
  split; [exact HsentM|].
  set (st1 := handleMessage Md request t1 st).
  assert (E1 : st1 = emit (Send (ws Dd) (FControlRequest (deviceId Md) (deviceName Md))) st)
    by (by apply (control_request_passed_on st Md Dd t1 r)).
  cbv zeta. split; [rewrite E1; apply sent_by_emit|]. split; [done|].
  (* the desktop locks and acknowledges *)
  set (d1 := on_frame (DesktopClient.ControlRequestFrame (deviceId Md) (deviceName Md)) iv d).
  set (c1 := DesktopClient.emit _
               (DesktopClient.ControlRequested _ (deviceId Md) (deviceName Md))
               (DesktopApp.client d)).
  set (rc1 := RemoteControl.set_state
                (RemoteControl.mkControlState RemoteControl.remote (Some (deviceId Md))
                   (Some (deviceName Md))) (DesktopApp.control d)).
  assert (Ed1 : d1 = DesktopApp.mkDesktop
                       (DesktopClient.sendControlAck _ (deviceId Md) true c1).2 rc1
                       (DesktopApp.processToDevice d) (DesktopApp.invoked d)).
  { subst d1. rewrite (DesktopFacts.on_frame_emits _ _ _ _ _ iv d (DesktopApp.client d)
                         (DesktopClient.ControlRequested _ (deviceId Md) (deviceName Md)))
      by done.
    unfold DesktopApp.dispatch, DesktopApp.to_control. cbn [DesktopApp.client DesktopApp.control].
    cbn [RemoteControl.on_relay_event]. unfold RemoteControl.handleControlRequest.
    rewrite Hallow, Hlocal. rewrite bool_decide_true by done.
    assert (Hhas : DesktopClient.hasSession _ c1 (deviceId Md) = true).
    { unfold DesktopClient.hasSession. subst c1. cbn [DesktopClient.sessions DesktopClient.emit].
      rewrite Hsess. apply bool_decide_eq_true. by eexists. }
    fold c1. rewrite Hhas. cbn [negb].
    destruct (0 <? RemoteControl.autoLockTimeout (DesktopApp.control d)) eqn:Ht;
      [apply Z.ltb_lt in Ht; lia|].
    done. }
  assert (HsentD1 : DesktopClient.sent _ (DesktopApp.client d1)
                    = DesktopClient.sent _ (DesktopApp.client d) ++ [ack]).
  { rewrite Ed1. unfold DesktopClient.sendControlAck, DesktopClient.send. subst c1.
    cbn [DesktopClient.ws_open DesktopClient.emit]. by rewrite HwsD. }
  split; [by rewrite Ed1|]. split; [exact HsentD1|].
  set (st2 := handleMessage Dd ack t2 st1).
  assert (E2 : st2 = emit (Send (ws Md) (FControlAck (deviceId Dd) (JBool true))) st1).
  { subst st2 ack. apply control_ack_passed_on; try done; by rewrite E1. }
  split; [rewrite E2; apply sent_by_emit|]. split; [done|].
  set (cM2 := MobileClient.handleMessage parse_downlink
                (MobileClient.ControlAck (deviceId Dd) (JBool true)) cM1).
  split; [done|].
  (* the desktop's user unlocks *)
  unfold DesktopApp.unlock. rewrite Ed1. cbn [DesktopApp.control DesktopApp.client].
  change (RemoteControl.lockPassword (DesktopApp.control d))
    with (RemoteControl.lockPassword rc1).
  rewrite (tryUnlock_right rc1 (deviceId Md) (deviceName Md)) by done.
  cbn [fold_left DesktopApp.perform DesktopApp.control DesktopApp.client].
  split; [done|]. split; [done|].
  assert (HsentD2 : DesktopClient.sent _
                      (DesktopClient.sendControlRevoked _ (deviceId Md)
                         (DesktopClient.sendControlAck _ (deviceId Md) true c1).2).2
                    = DesktopClient.sent _
                        (DesktopClient.sendControlAck _ (deviceId Md) true c1).2 ++ [revoked]).
  { unfold DesktopClient.sendControlRevoked, DesktopClient.sendControlAck, DesktopClient.send.
    subst c1. cbn [DesktopClient.ws_open DesktopClient.emit].
    repeat (rewrite HwsD; cbn [snd fst DesktopClient.ws_open DesktopClient.sent]). done. }
  split; [exact HsentD2|].
  set (st3 := handleMessage Dd revoked t3 st2).
  assert (E3 : st3 = emit (Send (ws Md) (FControlRevoked (deviceId Dd))) st2).
  { subst st3 revoked. apply control_revoked_passed_on; try done; by rewrite E2, E1. }
  split; [rewrite E3; apply sent_by_emit|]. by split.
Qed.

End WithPrimitives.

Lemma control_handshake_end_to_end_witness :
  let st := Scenario.run Scenario.paired initial in
  let cM1 := (MobileClient.requestControl (H := Toy.primitives) "D1"
                ClientScenario.idle_mobile).2 in
  exists request f1 in1 ack f2 in2,
    MobileClient.sent cM1 = [request] /\
    sent_by st (handleMessage Scenario.M request 5000 st) = [Send 0%nat f1] /\
    DesktopClient.of_frame f1 = Some in1 /\
    let d1 := DesktopApp.on_frame (H := Toy.primitives) ClientScenario.parse_command id
                ClientScenario.stringify_response ClientScenario.registry in1 Toy.zero_iv
                ClientScenario.open_desktop in
    RemoteControl.isLocked (DesktopApp.control d1) = true /\
    DesktopClient.sent _ (DesktopApp.client d1) = [ack] /\
    sent_by (handleMessage Scenario.M request 5000 st)
      (handleMessage Scenario.D1 ack 5001 (handleMessage Scenario.M request 5000 st))
    = [Send 1%nat f2] /\
    MobileClient.of_frame f2 = Some in2 /\
    MobileClient.controllingDesktopId
      (MobileClient.handleMessage (H := Toy.primitives) ClientScenario.parse_downlink in2 cM1)
    = Some "D1".
Proof.
  intros st cM1.
  destruct (control_handshake_end_to_end (H := Toy.primitives) ClientScenario.parse_command
              ClientScenario.parse_downlink ClientScenario.stringify_response id
              ClientScenario.registry st Scenario.D1 Scenario.M ClientScenario.open_desktop
              ClientScenario.idle_mobile (mkRelation "D1" "M" "U1" 4000)
              Toy.desktop_session Toy.zero_iv 5000 5001 5002)
    as (request & f1 & in1 & ack & f2 & in2 & revoked & f3 & in3 & Hreq & Hrest);
    [reflexivity | discriminate | discriminate | vm_compute; reflexivity
    | vm_compute; reflexivity | vm_compute; reflexivity | vm_compute; reflexivity
    | vm_compute; repeat constructor | reflexivity | reflexivity | reflexivity | reflexivity
    | reflexivity | reflexivity | reflexivity | simpl; lia |].
  cbv zeta in Hrest.
  destruct Hrest as (Hs1 & Hin1 & Hstate & Hack & Hs2 & Hin2 & Hctl & _).
  exists request, f1, in1, ack, f2, in2.
  split; [exact Hreq|]. split; [exact Hs1|]. split; [exact Hin1|]. cbv zeta.
  split; [unfold RemoteControl.isLocked; by rewrite Hstate|].
  split; [exact Hack|]. split; [exact Hs2|]. split; [exact Hin2 | exact Hctl].
Defined.

End ControlHandshake.


Module PairingOnce.
Import Js Buffer E2EE.

Section WithPrimitives.
Context `{Primitives}.
Variable json : Type.
Variable parse_uplink : text -> option json.
Variable parse_downlink : text -> option MobileClient.downlink.
Variable text_of_string : string -> text.

(** One QR code, one pairing.  A [pairing-accepted] frame changes a client
    only while a pairing is in progress, and the frame that completes the
    pairing ends it: on the desktop the key pair and the code are dropped,
    on the mobile the pending session, so that every further
    [pairing-accepted] frame, whoever it names, is ignored until a new code
    is shown or scanned. *)
Theorem pairing_answer_taken_once :
  (forall (c : DesktopClient.RelayClient json) key id name key' id' name',
     let c1 := DesktopClient.handleMessage _ parse_uplink text_of_string
                 (DesktopClient.PairingAccepted key id name) c in
     c1 <> c ->
     is_Some (DesktopClient.sessions _ c1 !! id) /\
     DesktopClient.pairingKeyPair _ c1 = None /\ DesktopClient.pairingCode _ c1 = None /\
     DesktopClient.handleMessage _ parse_uplink text_of_string
       (DesktopClient.PairingAccepted key' id' name') c1 = c1) /\
  (forall (c : MobileClient.RelayClient) id name id' name',
     let c1 := MobileClient.handleMessage parse_downlink
                 (MobileClient.PairingAccepted id name) c in
     c1 <> c ->
     MobileClient.pendingSession c1 = None /\
     MobileClient.handleMessage parse_downlink (MobileClient.PairingAccepted id' name') c1
     = c1).
Proof.
  split.
  - intros c key id name key' id' name' c1 Hchanged. subst c1.
    cbn [DesktopClient.handleMessage] in *.
    destruct (DesktopClient.pairingKeyPair _ c) as [d|]; [|done].
    destruct (DesktopClient.pairingCode _ c) as [code|]; [|done].
    destruct (bool_decide (code = "")); [done|].
    destruct (Desktop.deriveSession d key (text_of_string code)) as [session|]; [|done].
    simpl. split; [rewrite lookup_insert_eq; by eexists | done].
  - intros c id name id' name' c1 Hchanged. subst c1.
    cbn [MobileClient.handleMessage] in *.
    destruct (MobileClient.pendingSession c) as [[pendingId session]|]; [|done].
    cbv zeta in *.
    destruct (bool_decide ((if bool_decide (id = "") then pendingId else id) = ""));
      [done | by simpl].
Qed.

End WithPrimitives.

Lemma pairing_answer_taken_once_witness :
  let waiting :=
    (DesktopClient.generatePairingQR (H := Toy.primitives) CommandProxy.command 7%N "C9"
       ClientScenario.unpaired_desktop).2 in
  let key := Mobile.publicKey (Mobile.generateKeyPair (H := Toy.primitives) 11%N) in
  let paired := DesktopClient.handleMessage (H := Toy.primitives) _
                  ClientScenario.parse_command id
                  (DesktopClient.PairingAccepted key "M1" "Phone1") waiting in
  DesktopClient.hasSession _ paired "M1" = true /\
  DesktopClient.handleMessage (H := Toy.primitives) _ ClientScenario.parse_command id
    (DesktopClient.PairingAccepted key "M2" "Phone2") paired = paired.
Proof.
  intros waiting key paired.
  destruct (pairing_answer_taken_once (H := Toy.primitives) CommandProxy.command
              ClientScenario.parse_command ClientScenario.parse_downlink id) as [Hd _].
  destruct (Hd waiting key "M1" "Phone1" key "M2" "Phone2") as (_ & _ & _ & Hignored).
  - intros Heq. apply (f_equal (fun c => length (DesktopClient.emitted _ c))) in Heq.
    vm_compute in Heq. discriminate Heq.
  - split; [vm_compute; reflexivity | exact Hignored].
Defined.

End PairingOnce.
